(** * A TypeScript web application server: routing, servlet container, Spring bridge

    Shallow embedding of the request-dispatch core of the server:

    - [JsString]: the [String.prototype] primitives the sources call;
    - [SpringBridge]: [src/spring/SpringBridge.ts] (path matcher, health
      probe, metadata snapshot, periodic health check);
    - [Request], [Response]: the accessors and the sending operations of
      [src/core/Request.ts] and [src/core/Response.ts];
    - [RegExp]: the fragment of the pattern language that route patterns
      are written in;
    - [Route]: [src/core/Route.ts] (pattern compilation, matching);
    - [Router]: [src/core/Router.ts] (registration, lookup, middleware
      chain, error boundary);
    - [JsMap], [sort]: [Map] and [Array.prototype.sort];
    - [ServletContainer]: [src/servlet/ServletContainer.ts] (lifecycle,
      registration, longest-prefix dispatch).

    JavaScript strings are modelled by [string]; one character stands for one
    code unit, so [length], [startsWith], [slice] and [includes] count and
    compare code units exactly as the engine does. *)

From stdpp Require Import gmap strings list.
From Stdlib Require Import Ascii ZArith Lia.

Local Open Scope string_scope.
Local Open Scope list_scope.

(** ** String primitives *)

Module JsString.

(** [s.startsWith(search)] *)
Fixpoint startsWith (s search : string) {struct search} : bool :=
  match search with
  | EmptyString => true
  | String c search' =>
      match s with
      | EmptyString => false
      | String d s' => if Ascii.eqb c d then startsWith s' search' else false
      end
  end.

(** Relative indices of [slice]: a negative index counts from the end, and
    every index is clamped to [0 .. length]. *)
Definition clampIndex (len i : Z) : Z :=
  if (i <? 0)%Z then Z.max (len + i) 0 else Z.min i len.

(** [s.slice(start, finish)]; [finish = None] is the one-argument call. *)
Definition slice (s : string) (start : Z) (finish : option Z) : string :=
  let len := Z.of_nat (String.length s) in
  let from := clampIndex len start in
  let to := match finish with
            | None => len
            | Some e => clampIndex len e
            end in
  String.substring (Z.to_nat from) (Z.to_nat (Z.max (to - from) 0)) s.

(** [s.endsWith(search)] *)
Definition endsWith (s search : string) : bool :=
  (String.length search <=? String.length s)%nat
  && String.eqb
       (String.substring (String.length s - String.length search)
                  (String.length search) s)
       search.

(** [s.includes(search)] *)
Fixpoint includes (s search : string) : bool :=
  startsWith s search
  || match s with
     | EmptyString => false
     | String _ s' => includes s' search
     end.

(** [s.toUpperCase()] on the ASCII letters. *)
Definition upperChar (c : ascii) : ascii :=
  let n := Ascii.nat_of_ascii c in
  if ((97 <=? n) && (n <=? 122))%nat then Ascii.ascii_of_nat (n - 32) else c.

Fixpoint toUpperCase (s : string) : string :=
  match s with
  | EmptyString => EmptyString
  | String c s' => String (upperChar c) (toUpperCase s')
  end.

Lemma app_cons (c : ascii) (p r : string) :
  String c p +:+ r = String c (p +:+ r).
Proof. reflexivity. Qed.

Lemma app_nil_l (r : string) : "" +:+ r = r.
Proof. reflexivity. Qed.

Lemma startsWith_app (p r : string) : startsWith (p +:+ r) p = true.
Proof.
  induction p as [|c p IH]; [done|].
  rewrite app_cons. cbn. rewrite Ascii.eqb_refl. exact IH.
Qed.

Lemma startsWith_iff (s p : string) :
  startsWith s p = true ↔ ∃ r, s = p +:+ r.
Proof.
  split.
  - revert s. induction p as [|c p IH]; intros s H.
    + by exists s.
    + destruct s as [|d s]; [done|]. cbn in H.
      destruct (Ascii.eqb_spec c d) as [->|]; [|done].
      destruct (IH _ H) as [r ->]. by exists r.
  - intros [r ->]. apply startsWith_app.
Qed.

Lemma startsWith_refl (s : string) : startsWith s s = true.
Proof. induction s as [|c s IH]; [done|]. cbn. by rewrite Ascii.eqb_refl. Qed.

Lemma startsWith_length (s p : string) :
  startsWith s p = true → (String.length p ≤ String.length s)%nat.
Proof.
  revert s. induction p as [|c p IH]; intros s H; [cbn; lia|].
  destruct s as [|d s]; [done|]. cbn in *.
  destruct (Ascii.eqb c d); [|done]. apply IH in H. lia.
Qed.

(** Two prefixes of one string that have the same length are the same
    string. *)
Lemma startsWith_same_length (s p q : string) :
  startsWith s p = true → startsWith s q = true →
  String.length p = String.length q → p = q.
Proof.
  revert s q. induction p as [|c p IH]; intros s [|e q] Hp Hq Hlen;
    cbn in Hlen; try done.
  destruct s as [|d s]; [done|]. cbn in Hp, Hq.
  destruct (Ascii.eqb_spec c d) as [->|]; [|done].
  destruct (Ascii.eqb_spec e d) as [->|]; [|done].
  f_equal. eapply IH; eauto.
Qed.

Lemma length_app (a b : string) :
  String.length (a +:+ b) = (String.length a + String.length b)%nat.
Proof. induction a as [|c a IH]; [done|]. rewrite app_cons. cbn. by rewrite IH. Qed.

Lemma substring_0_app (a b : string) :
  String.substring 0 (String.length a) (a +:+ b) = a.
Proof.
  induction a as [|c a IH]; [rewrite app_nil_l; by destruct b|].
  rewrite app_cons. cbn. by rewrite IH.
Qed.

Lemma substring_skip_app (a b : string) (m : nat) :
  String.substring (String.length a) m (a +:+ b) = String.substring 0 m b.
Proof. induction a as [|c a IH]; [done|]. rewrite app_cons. cbn. exact IH. Qed.

Lemma substring_0_all (b : string) : String.substring 0 (String.length b) b = b.
Proof. induction b as [|c b IH]; [done|]. cbn. by rewrite IH. Qed.

Lemma endsWith_app (a b : string) : endsWith (a +:+ b) b = true.
Proof.
  unfold endsWith. rewrite length_app.
  apply andb_true_intro; split; [apply Nat.leb_le; lia|].
  replace (String.length a + String.length b - String.length b)%nat
    with (String.length a) by lia.
  rewrite substring_skip_app, substring_0_all. apply String.eqb_refl.
Qed.

(** [slice(0, -k)] of [a ++ b] with [length b = k] is [a]. *)
Lemma slice_drop_suffix (a b : string) :
  slice (a +:+ b) 0 (Some (- Z.of_nat (String.length b)))%Z = a
  ∨ String.length b = 0%nat.
Proof.
  destruct (decide (String.length b = 0%nat)) as [|Hb]; [by right|left].
  unfold slice, clampIndex. rewrite length_app.
  replace (0 <? 0)%Z with false by done.
  replace (- Z.of_nat (String.length b) <? 0)%Z with true
    by (symmetry; apply Z.ltb_lt; lia).
  match goal with
  | |- String.substring ?n ?m _ = _ =>
      replace n with 0%nat by lia; replace m with (String.length a) by lia
  end.
  apply substring_0_app.
Qed.

Lemma slice_from_app (a b : string) :
  slice (a +:+ b) (Z.of_nat (String.length a)) None = b.
Proof.
  unfold slice, clampIndex. rewrite length_app.
  replace (Z.of_nat (String.length a) <? 0)%Z with false
    by (symmetry; apply Z.ltb_ge; lia).
  match goal with
  | |- String.substring ?n ?m _ = _ =>
      replace n with (String.length a) by lia;
      replace m with (String.length b) by lia
  end.
  rewrite substring_skip_app. apply substring_0_all.
Qed.

Lemma startsWith_char (d c : ascii) (tail : string) :
  startsWith (String d tail) (String c EmptyString) = Ascii.eqb c d.
Proof. cbn [startsWith]. by destruct (Ascii.eqb c d). Qed.

Lemma includes_char (d c : ascii) (tail : string) :
  includes (String d tail) (String c EmptyString)
  = Ascii.eqb c d || includes tail (String c EmptyString).
Proof. cbn [includes]. by rewrite startsWith_char. Qed.

Lemma includes_head (c : ascii) (s : string) :
  includes (String c s) (String c EmptyString) = true.
Proof. by rewrite includes_char, Ascii.eqb_refl. Qed.

Lemma substring_split (s : string) (n : nat) :
  (n ≤ String.length s)%nat →
  s = String.substring 0 n s +:+ String.substring n (String.length s - n) s.
Proof.
  revert n. induction s as [|c s IH]; intros n Hn.
  - cbn in Hn. by replace n with 0%nat by lia.
  - destruct n as [|n].
    + cbn. by rewrite substring_0_all.
    + cbn in Hn. cbn [String.substring String.length Nat.sub].
      rewrite app_cons. f_equal. apply IH. lia.
Qed.

Lemma endsWith_inv (s x : string) :
  endsWith s x = true → ∃ a, s = a +:+ x.
Proof.
  unfold endsWith. intros [Hlen Heq]%andb_true_iff.
  apply Nat.leb_le in Hlen. apply String.eqb_eq in Heq.
  exists (String.substring 0 (String.length s - String.length x) s).
  pose proof (substring_split s (String.length s - String.length x)) as Hs.
  replace (String.length s - (String.length s - String.length x))%nat
    with (String.length x) in Hs by lia.
  rewrite Heq in Hs. apply Hs. lia.
Qed.

Lemma app_assoc (a b c : string) : (a +:+ b) +:+ c = a +:+ (b +:+ c).
Proof.
  induction a as [|x a IH]; [done|]. rewrite !app_cons. by rewrite IH.
Qed.

(** Equal concatenations with suffixes of equal length have equal parts. *)
Lemma app_inj_suffix (a b c d : string) :
  a +:+ b = c +:+ d → String.length b = String.length d → a = c ∧ b = d.
Proof.
  revert c. induction a as [|x a IH]; intros c H Hlen.
  - destruct c as [|y c]; [done|]. rewrite app_nil_l in H.
    apply (f_equal String.length) in H. rewrite length_app in H.
    cbn in H. lia.
  - destruct c as [|y c].
    + rewrite app_nil_l in H.
      apply (f_equal String.length) in H. rewrite length_app in H.
      cbn in H. lia.
    + rewrite !app_cons in H. injection H as -> H.
      destruct (IH _ H Hlen) as [-> ->]. done.
Qed.

End JsString.

(** ** Completions

    A call either returns a value or throws; an [async] function settles its
    promise the same way, and [await] hands the completion to the caller. *)

(** An error object: its [name], its [message], and the [cause] the two
    container exception classes carry. *)
Inductive Error :=
| MkError (name message : string)
| WithCause (name message : string) (cause : Error).

Definition errorMessage (e : Error) : string :=
  match e with
  | MkError _ message => message
  | WithCause _ message _ => message
  end.

(** [new Error(message)] *)
Definition plainError (message : string) : Error := MkError "Error" message.

Inductive Completion (A : Type) : Type :=
| Normal (a : A)
| Throw (e : Error).
Arguments Normal {A} a.
Arguments Throw {A} e.

(** ** Effects

    A method runs on the mutable state [S] it can reach and returns or
    throws. Code supplied from outside (handlers, middleware, servlet
    hooks) is taken to run to completion once called, so that [await] of
    its result is sequencing. *)

Definition Eff (S A : Type) : Type := S → Completion A * S.

#[global] Instance Eff_ret (S : Type) : MRet (Eff S) := λ A a w, (Normal a, w).

#[global] Instance Eff_bind (S : Type) : MBind (Eff S) := λ A B f m w,
  match m w with
  | (Normal a, w') => f a w'
  | (Throw e, w') => (Throw e, w')
  end.

Definition throw {S A : Type} (e : Error) : Eff S A := λ w, (Throw e, w).

(** [try { body } catch (error) { handler }] *)
Definition tryCatch {S A : Type} (body : Eff S A) (handler : Error → Eff S A)
  : Eff S A :=
  λ w,
    match body w with
    | (Normal a, w') => (Normal a, w')
    | (Throw e, w') => handler e w'
    end.

(** A [for ... of] loop whose body is awaited. *)
Fixpoint forEach {S A : Type} (body : A → Eff S unit) (items : list A)
  : Eff S unit :=
  match items with
  | [] => mret tt
  | item :: rest => body item;; forEach body rest
  end.

(** ** SpringBridge.ts *)

Module SpringBridge.

Record SpringMapping := {
  path : string;
  method : string;
  produces : list string;
  consumes : list string;
  className : string;
  methodName : string
}.

Record SpringMetadata := {
  mappings : list SpringMapping;
  contextPath : string;
  port : Z;
  profiles : list string;
  properties : gmap string string
}.

Record SpringBridgeConfig := {
  springHost : string;
  springPort : Z;
  springContextPath : string;
  healthCheckPath : string;
  metadataPath : string;
  timeout : Z;
  retryAttempts : Z;
  retryDelay : Z
}.

(** The defaults of the constructor. *)
Definition defaultConfig : SpringBridgeConfig := {|
  springHost := "localhost";
  springPort := 8081;
  springContextPath := "";
  healthCheckPath := "/actuator/health";
  metadataPath := "/actuator/mappings";
  timeout := 30000;
  retryAttempts := 3;
  retryDelay := 1000
|}.

(** The fields of a bridge object. [issued] is a ghost log of the calls to
    [makeHttpRequest] (method and path), oldest first. *)
Record t := {
  config : SpringBridgeConfig;
  springMetadata : option SpringMetadata;
  isSpringReady : bool;
  healthCheckInterval : bool;
  issued : list (string * string)
}.

Definition create (cfg : SpringBridgeConfig) : t := {|
  config := cfg;
  springMetadata := None;
  isSpringReady := false;
  healthCheckInterval := false;
  issued := []
|}.

Definition setReady (ready : bool) (b : t) : t := {|
  config := config b;
  springMetadata := springMetadata b;
  isSpringReady := ready;
  healthCheckInterval := healthCheckInterval b;
  issued := issued b
|}.

Definition setMetadata (md : option SpringMetadata) (b : t) : t := {|
  config := config b;
  springMetadata := md;
  isSpringReady := isSpringReady b;
  healthCheckInterval := healthCheckInterval b;
  issued := issued b
|}.

Definition logRequest (method path : string) (b : t) : t := {|
  config := config b;
  springMetadata := springMetadata b;
  isSpringReady := isSpringReady b;
  healthCheckInterval := healthCheckInterval b;
  issued := issued b ++ [(method, path)]
|}.

(** What the upstream does with the [http.get] of the health probe: it
    answers with a status code, the socket emits ['error'], or the 5 s
    timer emits ['timeout']. *)
Inductive HealthProbe :=
| ProbeResponse (statusCode : Z)
| ProbeError
| ProbeTimeout.

(** What the upstream does with a [makeHttpRequest]: the promise resolves
    on ['end'] with status and body, or rejects on ['error'] and on
    ['timeout']. *)
Inductive HttpOutcome :=
| HttpResolved (statusCode : Z) (body : string)
| HttpRejected (e : Error).

(** [checkSpringHealth]: the promise is settled by the first of the three
    callbacks, and each of them calls [resolve]. *)
Definition checkSpringHealth (probe : HealthProbe) : Completion bool :=
  match probe with
  | ProbeResponse statusCode => Normal (statusCode =? 200)%Z
  | ProbeError => Normal false
  | ProbeTimeout => Normal false
  end.

Definition makeHttpRequest (method path : string) (net : HttpOutcome) (b : t)
  : Completion (Z * string) * t :=
  let b' := logRequest (JsString.toUpperCase method) path b in
  match net with
  | HttpResolved statusCode body => (Normal (statusCode, body), b')
  | HttpRejected e => (Throw e, b')
  end.

(** [matchPath] *)
Definition matchPath (pattern path : string) : bool :=
  if String.eqb pattern path then true
  else if JsString.endsWith pattern "/**" then
    let basePath := JsString.slice pattern 0 (Some (-3)%Z) in
    JsString.startsWith path basePath
  else if JsString.endsWith pattern "/*" then
    let basePath := JsString.slice pattern 0 (Some (-2)%Z) in
    let remainingPath :=
      JsString.slice path (Z.of_nat (String.length basePath)) None in
    JsString.startsWith path basePath
    && negb (JsString.includes remainingPath "/")
  else false.

(** [hasSpringMapping] *)
Definition hasSpringMapping (method path : string) (b : t) : bool :=
  match springMetadata b with
  | None => false
  | Some md =>
      existsb
        (fun mapping =>
           let methodMatches :=
             String.eqb mapping.(SpringBridge.method)
                        (JsString.toUpperCase method)
             || String.eqb mapping.(SpringBridge.method) "REQUEST" in
           let pathMatches := matchPath mapping.(SpringBridge.path) path in
           methodMatches && pathMatches)
        (mappings md)
  end.

Section Metadata.

(** Lines 155-187 of [loadSpringMetadata]: [JSON.parse] of the response
    body followed by the traversal of the actuator document
    ([contexts.application.mappings.dispatcherServlets]). It yields the
    collected mappings, or throws ([SyntaxError] of a malformed body,
    [TypeError] of a document of the wrong shape). *)
Variable decodeMappings : string → Completion (list SpringMapping).

(** [loadSpringMetadata]: the snapshot is assigned after the whole
    document has been decoded; the [catch] logs and throws again. *)
Definition loadSpringMetadata (net : HttpOutcome) (b : t)
  : Completion unit * t :=
  let '(response, b1) := makeHttpRequest "GET" (metadataPath (config b)) net b in
  match response with
  | Throw e => (Throw e, b1)
  | Normal (_, body) =>
      match decodeMappings body with
      | Throw e => (Throw e, b1)
      | Normal collected =>
          (Normal tt,
           setMetadata
             (Some {| mappings := collected;
                      contextPath := springContextPath (config b1);
                      port := springPort (config b1);
                      profiles := [];
                      properties := ∅ |})
             b1)
      end
  end.

(** One run of the [setInterval] callback of [startHealthCheck]. *)
Definition healthCheckTick (probe : HealthProbe) (net : HttpOutcome) (b : t)
  : Completion unit * t :=
  match checkSpringHealth probe with
  | Throw e => (Throw e, b)
  | Normal isHealthy =>
      if negb (Bool.eqb (isSpringReady b) isHealthy) then
        let b1 := setReady isHealthy b in
        if isHealthy then
          match loadSpringMetadata net b1 with
          | (Normal _, b2) => (Normal tt, b2)
          | (Throw _, b2) => (Normal tt, b2)
          end
        else (Normal tt, b1)
      else (Normal tt, b)
  end.

(** A metadata fetch fails when the transport rejects or the body cannot
    be decoded. *)
Definition fetchFails (net : HttpOutcome) : Prop :=
  match net with
  | HttpRejected _ => True
  | HttpResolved _ body => ∃ e, decodeMappings body = Throw e
  end.

End Metadata.

(** *** The path matcher *)

Lemma matchPath_exact (path : string) : matchPath path path = true.
Proof. unfold matchPath. by rewrite String.eqb_refl. Qed.

(** A pattern [base/**] accepts every path that starts with [base]. *)
Lemma matchPath_double_wildcard (base rest : string) :
  matchPath (base +:+ "/**") (base +:+ rest) = true.
Proof.
  unfold matchPath. destruct (String.eqb _ _); [done|].
  rewrite JsString.endsWith_app.
  destruct (JsString.slice_drop_suffix base "/**") as [H|]; [|done].
  change (- Z.of_nat (String.length "/**"))%Z with (-3)%Z in H. rewrite H.
  apply JsString.startsWith_app.
Qed.

Lemma single_not_double (base : string) :
  JsString.endsWith (base +:+ "/*") "/**" = false.
Proof.
  destruct (JsString.endsWith _ _) eqn:E; [|done].
  apply JsString.endsWith_inv in E as [a E].
  change "/**" with ("/" +:+ "**") in E.
  rewrite <- JsString.app_assoc in E.
  by apply JsString.app_inj_suffix in E as [_ ?].
Qed.

(** A pattern [base/*] accepts a path [base/rest] only when it is the
    pattern itself: the remainder computed after [base] starts with the
    separator. *)
Lemma matchPath_single_wildcard_child (base rest : string) :
  matchPath (base +:+ "/*") (base +:+ "/" +:+ rest) = String.eqb rest "*".
Proof.
  unfold matchPath.
  destruct (String.eqb_spec (base +:+ "/*") (base +:+ "/" +:+ rest)) as [E|Hne].
  { apply String.app_inj in E.
    change "/*" with ("/" +:+ "*") in E. apply String.app_inj in E.
    subst rest. done. }
  destruct (String.eqb_spec rest "*") as [->|_]; [done|].
  rewrite single_not_double, JsString.endsWith_app.
  destruct (JsString.slice_drop_suffix base "/*") as [H|]; [|done].
  change (- Z.of_nat (String.length "/*"))%Z with (-2)%Z in H. rewrite H.
  rewrite JsString.slice_from_app, JsString.startsWith_app.
  change ("/" +:+ rest) with (String "/" rest).
  by rewrite JsString.includes_head.
Qed.

(** C4 (code defect). An exact match succeeds and [base/**] accepts every
    path that starts with [base], but [base/*] accepts no path [base/rest]
    except the pattern itself: after [slice(0, -2)] the base has lost its
    separator, so the remainder of [/static/a] is [/a], which contains the
    separator, and [/static/*] rejects [/static/a]. *)
Theorem matchPath_single_wildcard_rejects_segment :
  (∀ path, matchPath path path = true)
  ∧ (∀ base rest, matchPath (base +:+ "/**") (base +:+ rest) = true)
  ∧ (∀ base rest,
       matchPath (base +:+ "/*") (base +:+ "/" +:+ rest) = String.eqb rest "*")
  ∧ matchPath "/static/**" "/static/a/b" = true
  ∧ matchPath "/static/*" "/static/a/b" = false
  ∧ matchPath "/static/*" "/static/a" = false.
Proof.
  split; [exact matchPath_exact|].
  split; [exact matchPath_double_wildcard|].
  split; [exact matchPath_single_wildcard_child|].
  repeat split; reflexivity.
Qed.

(** *** The health probe *)

(** C8 (as the code has it). The probe never throws; it reports healthy
    exactly when the upstream answered the GET with status 200, and
    unhealthy for every other status, for a transport error and for a
    timeout. *)
Theorem checkSpringHealth_healthy_iff_200 (probe : HealthProbe) :
  ∃ healthy : bool,
    checkSpringHealth probe = Normal healthy
    ∧ (healthy = true ↔ probe = ProbeResponse 200).
Proof.
  destruct probe as [statusCode| |]; cbn.
  - exists (statusCode =? 200)%Z. split; [done|].
    rewrite Z.eqb_eq. split; [by intros ->|by intros [= ->]].
  - exists false. by split.
  - exists false. by split.
Qed.

(** C8 (as stated) fails: 204 is a 2xx status and is reported unhealthy. *)
Lemma checkSpringHealth_204_unhealthy :
  (200 ≤ 204 ≤ 299)%Z
  ∧ checkSpringHealth (ProbeResponse 204) = Normal false.
Proof. split; [lia|reflexivity]. Qed.

(** *** The periodic health check *)

Section MetadataFacts.

Variable decodeMappings : string → Completion (list SpringMapping).

Lemma makeHttpRequest_state (method path : string) (net : HttpOutcome) (b : t) :
  (makeHttpRequest method path net b).2
  = logRequest (JsString.toUpperCase method) path b.
Proof. by destruct net. Qed.

(** Whatever the outcome, [loadSpringMetadata] issues one GET of the
    metadata path and touches neither the readiness flag nor the
    configuration. *)
Lemma loadSpringMetadata_frame (net : HttpOutcome) (b : t) :
  let b' := (loadSpringMetadata decodeMappings net b).2 in
  issued b' = (issued b ++ [("GET", metadataPath (config b))])%list
  ∧ isSpringReady b' = isSpringReady b
  ∧ config b' = config b.
Proof.
  unfold loadSpringMetadata.
  destruct net as [statusCode body|e]; cbn; [|done].
  by destruct (decodeMappings body).
Qed.

(** A failed fetch throws and leaves the stored snapshot as it was. *)
Lemma loadSpringMetadata_failure (net : HttpOutcome) (b : t) :
  fetchFails decodeMappings net →
  ∃ e b', loadSpringMetadata decodeMappings net b = (Throw e, b')
          ∧ springMetadata b' = springMetadata b.
Proof.
  unfold loadSpringMetadata.
  destruct net as [statusCode body|e]; cbn.
  - intros [e ->]. by eexists _, _.
  - intros _. by eexists _, _.
Qed.

End MetadataFacts.

(** C7. On a tick that finds the upstream healthy while the bridge is
    unready, the bridge becomes ready and issues exactly one GET of the
    metadata path; a tick without that transition issues none. When the
    fetch fails (the transport rejects, or the body cannot be decoded),
    [loadSpringMetadata] throws with the stored snapshot unchanged, and the
    tick itself completes normally with the snapshot unchanged and the
    readiness flag still set. *)
Theorem healthCheckTick_refetch_and_failure
    (decodeMappings : string → Completion (list SpringMapping))
    (probe : HealthProbe) (net : HttpOutcome) (b : t) :
  (isSpringReady b = false → checkSpringHealth probe = Normal true →
   ∃ b', healthCheckTick decodeMappings probe net b = (Normal tt, b')
         ∧ isSpringReady b' = true
         ∧ issued b' = (issued b ++ [("GET", metadataPath (config b))])%list
         ∧ (fetchFails decodeMappings net →
            springMetadata b' = springMetadata b))
  ∧ (isSpringReady b = true ∨ checkSpringHealth probe = Normal false →
     ∃ b', healthCheckTick decodeMappings probe net b = (Normal tt, b')
           ∧ issued b' = issued b
           ∧ springMetadata b' = springMetadata b)
  ∧ (fetchFails decodeMappings net →
     ∃ e b', loadSpringMetadata decodeMappings net b = (Throw e, b')
             ∧ springMetadata b' = springMetadata b
             ∧ isSpringReady b' = isSpringReady b).
Proof.
  split; [|split].
  - intros Hready Hprobe. unfold healthCheckTick. rewrite Hprobe, Hready. cbn.
    pose proof (loadSpringMetadata_frame decodeMappings net (setReady true b))
      as (Hissued & Hflag & _).
    destruct (loadSpringMetadata decodeMappings net (setReady true b))
      as [[[]|e] b2] eqn:Hload; cbn in *.
    + exists b2. repeat split; [done..|].
      intros Hfail.
      destruct (loadSpringMetadata_failure decodeMappings net (setReady true b) Hfail)
        as (e & b' & Heq & _).
      congruence.
    + exists b2. repeat split; [done..|].
      intros Hfail.
      destruct (loadSpringMetadata_failure decodeMappings net (setReady true b) Hfail)
        as (e' & b' & Heq & Hsnap).
      rewrite Hload in Heq. by injection Heq as _ <-.
  - intros Hsame. unfold healthCheckTick.
    destruct (checkSpringHealth probe) as [isHealthy|e] eqn:Hprobe.
    2: { by destruct probe. }
    destruct (isSpringReady b) eqn:Hready, isHealthy; cbn.
    + by exists b.
    + by eexists.
    + destruct Hsame as [|]; done.
    + by exists b.
  - intros Hfail.
    destruct (loadSpringMetadata_failure decodeMappings net b Hfail)
      as (e & b' & Heq & Hsnap).
    exists e, b'. repeat split; [done..|].
    pose proof (loadSpringMetadata_frame decodeMappings net b) as (_ & Hflag & _).
    by rewrite Heq in Hflag.
Qed.

(** The decoder of the witness: it accepts the empty actuator document. *)
Definition sampleDecode (body : string) : Completion (list SpringMapping) :=
  if String.eqb body "{}" then Normal []
  else Throw (MkError "SyntaxError" "Unexpected token").

Definition sampleSnapshot : SpringMetadata := {|
  mappings :=
    [{| path := "/api/**"; method := "GET"; produces := []; consumes := [];
        className := "ApiController"; methodName := "list" |}];
  contextPath := ""; port := 8081; profiles := []; properties := ∅
|}.

(** An unready bridge that still holds the snapshot of an earlier fetch. *)
Definition sampleBridge : t := {|
  config := defaultConfig;
  springMetadata := Some sampleSnapshot;
  isSpringReady := false;
  healthCheckInterval := true;
  issued := [("GET", "/actuator/mappings")]
|}.

Lemma healthCheckTick_refetch_and_failure_witness :
  ∃ b', healthCheckTick sampleDecode (ProbeResponse 200)
          (HttpResolved 200 "<html>") sampleBridge = (Normal tt, b')
        ∧ isSpringReady b' = true
        ∧ issued b' = [("GET", "/actuator/mappings"); ("GET", "/actuator/mappings")]
        ∧ springMetadata b' = Some sampleSnapshot.
Proof.
  destruct (healthCheckTick_refetch_and_failure sampleDecode (ProbeResponse 200)
              (HttpResolved 200 "<html>") sampleBridge) as [Htick _].
  destruct (Htick eq_refl eq_refl) as (b' & Hrun & Hready & Hissued & Hsnap).
  exists b'. repeat split; [exact Hrun|exact Hready|exact Hissued|].
  apply Hsnap. cbn. eexists. reflexivity.
Defined.

End SpringBridge.

(** ** Request.ts and Response.ts *)

Module Request.

(** The two accessors the dispatch code reads: [method] and [path] (the
    pathname of the request URL, not percent-decoded). *)
Record t := { method : string; path : string }.

End Request.

Module Response.

(** The wrapped [ServerResponse]: [end] commits status, headers and body. *)
Record ServerResponse := {
  rawStatusCode : Z;
  rawHeaders : gmap string string;
  rawHeadersSent : bool;
  rawFinished : bool;
  rawBody : option string
}.

Record t := {
  raw : ServerResponse;
  _statusCode : Z;
  _headers : gmap string string;
  _headersSent : bool
}.

(** [new Response(res)] around a response nothing was written to. *)
Definition fresh : t := {|
  raw := {| rawStatusCode := 200; rawHeaders := ∅; rawHeadersSent := false;
            rawFinished := false; rawBody := None |};
  _statusCode := 200;
  _headers := ∅;
  _headersSent := false
|}.

Definition status (code : Z) (r : t) : t := {|
  raw := raw r; _statusCode := code; _headers := _headers r;
  _headersSent := _headersSent r
|}.

(** ASCII [toLowerCase], for header names. *)
Definition lowerChar (c : ascii) : ascii :=
  let n := Ascii.nat_of_ascii c in
  if ((65 <=? n) && (n <=? 90))%nat then Ascii.ascii_of_nat (n + 32) else c.

Fixpoint toLowerCase (s : string) : string :=
  match s with
  | EmptyString => EmptyString
  | String c s' => String (lowerChar c) (toLowerCase s')
  end.

Definition setHeader (name value : string) (r : t) : t := {|
  raw := raw r; _statusCode := _statusCode r;
  _headers := <[toLowerCase name := value]> (_headers r);
  _headersSent := _headersSent r
|}.

Definition contentType (type : string) (r : t) : t :=
  setHeader "Content-Type" type r.

Definition headersSent (r : t) : bool :=
  _headersSent r || rawHeadersSent (raw r).

Definition finished (r : t) : bool := rawFinished (raw r).

(** [writeHeadersIfNeeded]: the pending status and headers are copied to the
    raw response once. *)
Definition writeHeadersIfNeeded (r : t) : t :=
  if headersSent r then r
  else {|
    raw := {| rawStatusCode := _statusCode r;
              rawHeaders := _headers r ∪ rawHeaders (raw r);
              rawHeadersSent := rawHeadersSent (raw r);
              rawFinished := rawFinished (raw r);
              rawBody := rawBody (raw r) |};
    _statusCode := _statusCode r;
    _headers := _headers r;
    _headersSent := true
  |}.

(** [ServerResponse.end(body)]: the first call flushes the head and the
    body and finishes the response; a later call changes nothing. *)
Definition rawEnd (body : option string) (s : ServerResponse) : ServerResponse :=
  if rawFinished s then s
  else {| rawStatusCode := rawStatusCode s;
          rawHeaders := rawHeaders s;
          rawHeadersSent := true;
          rawFinished := true;
          rawBody := body |}.

Definition withRaw (s : ServerResponse) (r : t) : t := {|
  raw := s; _statusCode := _statusCode r; _headers := _headers r;
  _headersSent := _headersSent r
|}.

Definition send (body : string) (r : t) : t :=
  let r1 := writeHeadersIfNeeded r in
  withRaw (rawEnd (Some body) (raw r1)) r1.

Definition end_ (r : t) : t :=
  let r1 := writeHeadersIfNeeded r in
  withRaw (rawEnd None (raw r1)) r1.

(** [json(data)]; the argument is the text [JSON.stringify(data)]. *)
Definition json (data : string) (r : t) : t :=
  send data (contentType "application/json; charset=utf-8" r).

Definition text (body : string) (r : t) : t :=
  send body (contentType "text/plain; charset=utf-8" r).

Definition html (body : string) (r : t) : t :=
  send body (contentType "text/html; charset=utf-8" r).

Lemma finished_send (body : string) (r : t) : finished (send body r) = true.
Proof.
  unfold send, finished, withRaw, rawEnd. cbn.
  by destruct (rawFinished (raw (writeHeadersIfNeeded r))) eqn:E.
Qed.

Lemma finished_text (body : string) (r : t) : finished (text body r) = true.
Proof. apply finished_send. Qed.

(** On a response nothing was sent on, [status(code).text(body)] commits
    exactly that status and body. *)
Lemma status_text_commits (code : Z) (body : string) (r : t) :
  headersSent r = false → finished r = false →
  let r' := text body (status code r) in
  rawStatusCode (raw r') = code ∧ rawBody (raw r') = Some body
  ∧ finished r' = true.
Proof.
  unfold headersSent, finished. intros Hsent Hfin.
  unfold text, send, contentType, setHeader, status, writeHeadersIfNeeded,
    headersSent, withRaw, rawEnd, finished. cbn.
  rewrite Hsent. cbn. rewrite Hfin. done.
Qed.

End Response.

(** ** Regular expressions of route patterns

    [createPattern] hands [new RegExp] a source made of the anchors, ordinary
    characters, the escaped separator [\/] and the capture [([^\/]+)]. This
    module gives that fragment of the pattern language its meaning: [parse]
    reads a source ([None] when it leaves the fragment), [exec] is
    [RegExp.prototype.exec] of a pattern without flags. *)

Module RegExp.

Inductive Node :=
| Start                (* ^ *)
| End_                 (* $ *)
| Char (c : ascii)     (* an ordinary character, or the escaped separator *)
| Segment.             (* ([^\/]+) : greedy, capturing *)

Definition t := list Node.

(** The syntax characters of the pattern language. *)
Definition isSyntaxChar (c : ascii) : bool :=
  existsb (Ascii.eqb c)
    ["^"; "$"; "\"; "."; "*"; "+"; "?"; "("; ")"; "["; "]"; "{"; "}"; "|"]%char.

(** The source text of the capture, after its opening parenthesis. *)
Definition segmentTail : string := "[^\/]+)".

(** [parseFrom source skip]: the nodes of [source] once its first [skip]
    characters (the rest of a capture already read) are passed over. *)
Fixpoint parseFrom (source : string) (skip : nat) : option t :=
  match source with
  | EmptyString => match skip with O => Some [] | S _ => None end
  | String c rest =>
      match skip with
      | S skip' => parseFrom rest skip'
      | O =>
          if Ascii.eqb c "^" then cons Start <$> parseFrom rest 0
          else if Ascii.eqb c "$" then cons End_ <$> parseFrom rest 0
          else if Ascii.eqb c "\" then
            if JsString.startsWith rest "/"
            then cons (Char "/") <$> parseFrom rest 1
            else None
          else if Ascii.eqb c "(" then
            if JsString.startsWith rest segmentTail
            then cons Segment <$> parseFrom rest (String.length segmentTail)
            else None
          else if isSyntaxChar c then None
          else cons (Char c) <$> parseFrom rest 0
      end
  end.

Definition parse (source : string) : option t := parseFrom source 0.

(** The result of a successful [exec]: [matches[0]] and the captures
    [matches[1..]]. *)
Definition Matches : Type := string * list string.

(** The capture [([^\/]+)] followed by the continuation [k]: the longest
    run of non-separator characters is tried first, then shorter ones. *)
Fixpoint segment (k : string → option Matches) (input : string)
  : option (string * Matches) :=
  match input with
  | EmptyString => None
  | String d input' =>
      if Ascii.eqb d "/" then None
      else
        match segment k input' with
        | Some (capture, r) => Some (String d capture, r)
        | None =>
            match k input' with
            | Some r => Some (String d EmptyString, r)
            | None => None
            end
        end
  end.

(** [run nodes atStart input]: match [nodes] at the current position, which
    is the start of the subject exactly when [atStart] holds. *)
Fixpoint run (nodes : t) : bool → string → option Matches :=
  match nodes with
  | [] => fun _ _ => Some (EmptyString, [])
  | Start :: k => fun atStart input =>
      if atStart then run k atStart input else None
  | End_ :: k => fun atStart input =>
      match input with
      | EmptyString => run k atStart input
      | String _ _ => None
      end
  | Char c :: k => fun _ input =>
      match input with
      | EmptyString => None
      | String d input' =>
          if Ascii.eqb c d then
            match run k false input' with
            | Some (matched, captures) => Some (String d matched, captures)
            | None => None
            end
          else None
      end
  | Segment :: k => fun _ input =>
      match segment (run k false) input with
      | Some (capture, (matched, captures)) =>
          Some (capture +:+ matched, capture :: captures)
      | None => None
      end
  end.

(** The match is attempted at index 0, then at each later index. *)
Fixpoint execFrom (re : t) (atStart : bool) (input : string) : option Matches :=
  match run re atStart input with
  | Some r => Some r
  | None =>
      match input with
      | EmptyString => None
      | String _ input' => execFrom re false input'
      end
  end.

Definition exec (re : t) (input : string) : option Matches :=
  execFrom re true input.


Lemma parseFrom_char (c : ascii) (rest : string) :
  isSyntaxChar c = false →
  parseFrom (String c rest) 0 = cons (Char c) <$> parseFrom rest 0.
Proof.
  intros Hc. cbn [parseFrom]. rewrite Hc.
  unfold isSyntaxChar in Hc. cbn [existsb] in Hc.
  repeat (apply orb_false_elim in Hc as [? Hc]).
  repeat match goal with H : Ascii.eqb c _ = false |- _ => rewrite H; clear H end.
  reflexivity.
Qed.

Lemma parseFrom_slash (rest : string) :
  parseFrom (String "\" (String "/" rest)) 0
  = cons (Char "/") <$> parseFrom rest 0.
Proof. reflexivity. Qed.

Lemma parseFrom_capture (rest : string) :
  parseFrom (String "(" (segmentTail +:+ rest)) 0
  = cons Segment <$> parseFrom rest 0.
Proof. reflexivity. Qed.

Lemma parseFrom_start (rest : string) :
  parseFrom (String "^" rest) 0 = cons Start <$> parseFrom rest 0.
Proof. reflexivity. Qed.

Lemma parseFrom_end : parseFrom "$" 0 = Some [End_].
Proof. reflexivity. Qed.

(** A capture holds at least one character and no separator. *)
Definition goodCapture (capture : string) : Prop :=
  capture ≠ EmptyString ∧ JsString.includes capture "/" = false.

Lemma segment_inv (k : string → option Matches) (input capture : string)
    (r : Matches) :
  segment k input = Some (capture, r) →
  ∃ rest, input = capture +:+ rest ∧ k rest = Some r ∧ goodCapture capture.
Proof.
  revert capture r. induction input as [|d input IH]; intros capture r H; [done|].
  cbn in H. destruct (Ascii.eqb_spec d "/") as [|Hd]; [done|].
  assert (Hhead : ∀ tail, JsString.includes tail "/" = false →
                          JsString.includes (String d tail) "/" = false).
  { intros tail Htail. rewrite JsString.includes_char, Htail.
    by destruct (Ascii.eqb_spec "/" d) as [<-|_]. }
  destruct (segment k input) as [[capture' r']|] eqn:Hseg.
  - injection H as <- <-.
    destruct (IH _ _ eq_refl) as (rest & -> & Hk & _ & Hgood).
    exists rest. split; [done|]. split; [done|]. split; [done|]. by apply Hhead.
  - destruct (k input) as [r'|] eqn:Hk; [|done]. injection H as <- <-.
    exists input. split; [done|]. split; [done|]. split; [done|]. by apply Hhead.
Qed.



(** A pattern that starts with [^] does not match at a later index. *)
Lemma execFrom_later (k : t) (input : string) :
  execFrom (Start :: k) false input = None.
Proof. induction input as [|d input IH]; [done|]. cbn. exact IH. Qed.

Lemma exec_anchored_start (k : t) (input : string) :
  exec (Start :: k) input = run k true input.
Proof.
  unfold exec. destruct input as [|d input]; cbn.
  - by destruct (run k true "").
  - destruct (run k true (String d input)); [done|]. apply execFrom_later.
Qed.

End RegExp.

(** ** Route.ts *)

Module Route.

Inductive HttpMethod := GET | POST | PUT | DELETE | PATCH | HEAD | OPTIONS.

(** The string a method literal stands for. *)
Definition methodString (m : HttpMethod) : string :=
  match m with
  | GET => "GET" | POST => "POST" | PUT => "PUT" | DELETE => "DELETE"
  | PATCH => "PATCH" | HEAD => "HEAD" | OPTIONS => "OPTIONS"
  end.

(** A property value of the parameter record: a captured string, or
    [undefined] when [matches] has no such index. *)
Inductive Value := undefined | str (s : string).

(** [Record<string, string>], an object literal used as a map. *)
Abbreviation Params := (gmap string Value).

(** [obj[key] = value] on an object literal whose value is no object: the
    key [__proto__] reaches the inherited setter, which ignores the value;
    any other key becomes (or overwrites) an own property. *)
Definition recordSet (key : string) (value : Value) (obj : Params) : Params :=
  if String.eqb key "__proto__" then obj else <[key := value]> obj.

(** A handler acts on the response and returns or throws. *)
Definition RouteHandler : Type :=
  Request.t → Response.t → option Params → Completion unit * Response.t.

Record t := {
  method : HttpMethod;
  path : string;
  handler : RouteHandler;
  pattern : RegExp.t;
  paramNames : list string
}.

(** [path.replace(/\//g, '\\/')] *)
Fixpoint escapeSlashes (s : string) : string :=
  match s with
  | EmptyString => EmptyString
  | String c s' =>
      if Ascii.eqb c "/" then String "\" (String "/" (escapeSlashes s'))
      else String c (escapeSlashes s')
  end.

(** What [[^\/]+] takes at the head of [s]: the longest run of characters
    other than the separator. *)
Fixpoint nameRun (s : string) : string :=
  match s with
  | EmptyString => EmptyString
  | String c s' => if Ascii.eqb c "/" then EmptyString else String c (nameRun s')
  end.

(** The text the callback returns for each parameter. *)
Definition captureSource : string := "([^\/]+)".

(** [.replace(/:([^\/]+)/g, callback)]: scanning from the left, a colon
    followed by a non-empty run is replaced by [captureSource] and the run
    is pushed on [paramNames]; [skip] counts the characters of the current
    match still to pass over. The result is the new string and the names in
    the order of the calls. *)
Fixpoint replaceParams (s : string) (skip : nat) : string * list string :=
  match s with
  | EmptyString => (EmptyString, [])
  | String c s' =>
      match skip with
      | S skip' => replaceParams s' skip'
      | O =>
          if Ascii.eqb c ":" then
            let paramName := nameRun s' in
            match paramName with
            | EmptyString =>
                let '(out, names) := replaceParams s' 0 in (String c out, names)
            | String _ _ =>
                let '(out, names) := replaceParams s' (String.length paramName) in
                (captureSource +:+ out, paramName :: names)
            end
          else
            let '(out, names) := replaceParams s' 0 in (String c out, names)
      end
  end.

(** [createPattern]; [None] when the source leaves the fragment of
    [RegExp]. *)
Definition createPattern (path : string) : option (RegExp.t * list string) :=
  let '(regexPattern, paramNames) := replaceParams (escapeSlashes path) 0 in
  match RegExp.parse ("^" +:+ regexPattern +:+ "$") with
  | Some pattern => Some (pattern, paramNames)
  | None => None
  end.

(** The constructor. *)
Definition new (method : HttpMethod) (path : string) (handler : RouteHandler)
  : option t :=
  match createPattern path with
  | Some (pattern, paramNames) =>
      Some {| method := method; path := path; handler := handler;
              pattern := pattern; paramNames := paramNames |}
  | None => None
  end.

(** [matches[i]] *)
Definition matchesAt (matches : RegExp.Matches) (i : nat) : Value :=
  match (matches.1 :: matches.2) !! i with
  | Some s => str s
  | None => undefined
  end.

(** The loop of [match]: [params[paramNames[i]] = matches[i + 1]] for [i]
    from the given index on. *)
Fixpoint assignParams (names : list string) (i : nat)
    (matches : RegExp.Matches) (params : Params) : Params :=
  match names with
  | [] => params
  | name :: names' =>
      assignParams names' (S i) matches
        (recordSet name (matchesAt matches (i + 1)) params)
  end.

(** [match] *)
Definition match_ (route : t) (path : string) : option Params :=
  match RegExp.exec (pattern route) path with
  | None => None
  | Some matches => Some (assignParams (paramNames route) 0 matches ∅)
  end.


(** *** The compiled pattern of a plain template *)



(** [parsesAs src body]: in front of any further source, [src] is read as
    the nodes [body]. *)
Definition parsesAs (src : string) (body : RegExp.t) : Prop :=
  ∀ suffix,
    RegExp.parseFrom (src +:+ suffix) 0
    = (body ++.) <$> RegExp.parseFrom suffix 0.

Lemma parsesAs_nil : parsesAs EmptyString [].
Proof. intros suffix. rewrite JsString.app_nil_l. by destruct (RegExp.parseFrom _ _). Qed.

Lemma parsesAs_char (c : ascii) (src : string) (body : RegExp.t) :
  RegExp.isSyntaxChar c = false → parsesAs src body →
  parsesAs (String c src) (RegExp.Char c :: body).
Proof.
  intros Hc Hsrc suffix. rewrite JsString.app_cons.
  rewrite RegExp.parseFrom_char by done.
  rewrite (Hsrc suffix). by destruct (RegExp.parseFrom suffix 0).
Qed.

Lemma parsesAs_slash (src : string) (body : RegExp.t) :
  parsesAs src body →
  parsesAs (String "\" (String "/" src)) (RegExp.Char "/" :: body).
Proof.
  intros Hsrc suffix. rewrite !JsString.app_cons.
  rewrite RegExp.parseFrom_slash.
  rewrite (Hsrc suffix). by destruct (RegExp.parseFrom suffix 0).
Qed.

Lemma parsesAs_capture (src : string) (body : RegExp.t) :
  parsesAs src body →
  parsesAs (captureSource +:+ src) (RegExp.Segment :: body).
Proof.
  intros Hsrc suffix. unfold captureSource. rewrite JsString.app_assoc.
  change ("([^\/]+)" +:+ (src +:+ suffix))
    with (String "(" (RegExp.segmentTail +:+ (src +:+ suffix))).
  rewrite RegExp.parseFrom_capture.
  rewrite (Hsrc suffix). by destruct (RegExp.parseFrom suffix 0).
Qed.




(** *** The parameter record *)




(** *** Matching *)


(** The names as compiled: a name that is followed by a separator keeps the
    backslash that escaped it. *)
Example createPattern_names :
  snd <$> createPattern "/users/:id/posts/:postId" = Some ["id\"; "postId"].
Proof. reflexivity. Qed.

(** A handler that sends nothing. *)
Definition idleHandler : RouteHandler := fun _ response _ => (Normal tt, response).



End Route.


(** ** Router.ts *)

Module Router.

(** What a call of [handle] can touch: the response object, the
    [nextCalled] and [middlewareCompleted] variables captured by the
    closures it creates ([cells], in the order of their declarations), the
    rejections of promises nobody awaits, and the console. *)
Record World := {
  response : Response.t;
  cells : list bool;
  unhandled : list Error;
  console : list string
}.

Definition initialWorld (r : Response.t) : World :=
  {| response := r; cells := []; unhandled := []; console := [] |}.

Abbreviation M := (Eff World).

(** Calling an [async] function without awaiting the promise it returns:
    the callee runs, and a rejection ends up with nobody to handle it. *)
Definition detach (body : M unit) : M unit :=
  λ w,
    match body w with
    | (Normal _, w') => (Normal tt, w')
    | (Throw e, w') =>
        (Normal tt,
         {| response := response w'; cells := cells w';
            unhandled := unhandled w' ++ [e]; console := console w' |})
    end.

(** [let flag = init] captured by a closure. *)
Definition newCell (init : bool) : M nat :=
  λ w,
    (Normal (length (cells w)),
     {| response := response w; cells := cells w ++ [init];
        unhandled := unhandled w; console := console w |}).

Definition readCell (cell : nat) : M bool :=
  λ w, (Normal (default false (cells w !! cell)), w).

Definition writeCell (cell : nat) (value : bool) : M unit :=
  λ w,
    (Normal tt,
     {| response := response w; cells := <[cell := value]> (cells w);
        unhandled := unhandled w; console := console w |}).

(** A call on the response object. *)
Definition onResponse (f : Response.t → Response.t) : M unit :=
  λ w,
    (Normal tt,
     {| response := f (response w); cells := cells w;
        unhandled := unhandled w; console := console w |}).

(** [response.finished] *)
Definition responseFinished : M bool :=
  λ w, (Normal (Response.finished (response w)), w).

Definition consoleError (label : string) (e : Error) : M unit :=
  λ w,
    (Normal tt,
     {| response := response w; cells := cells w; unhandled := unhandled w;
        console := console w ++ [label +:+ " " +:+ errorMessage e] |}).

(** Calling a route handler with the response of the world. *)
Definition callHandler (h : Route.RouteHandler) (request : Request.t)
    (params : option Route.Params) : M unit :=
  λ w,
    let '(completion, r) := h request (response w) params in
    (completion,
     {| response := r; cells := cells w; unhandled := unhandled w;
        console := console w |}).

(** [(request, response, next) => ...]; the second argument is [next]. *)
Definition MiddlewareHandler : Type := Request.t → M unit → M unit.

Record t := {
  routes : list Route.t;
  middlewares : list MiddlewareHandler
}.

Definition empty : t := {| routes := []; middlewares := [] |}.

(** [addRoute]; [None] when the template does not compile. *)
Definition addRoute (method : Route.HttpMethod) (path : string)
    (handler : Route.RouteHandler) (router : t) : option t :=
  match Route.new method path handler with
  | Some route =>
      Some {| routes := routes router ++ [route];
              middlewares := middlewares router |}
  | None => None
  end.

Definition get := addRoute Route.GET.
Definition post := addRoute Route.POST.
Definition put := addRoute Route.PUT.
Definition delete := addRoute Route.DELETE.
Definition patch := addRoute Route.PATCH.

Definition use (middleware : MiddlewareHandler) (router : t) : t :=
  {| routes := routes router;
     middlewares := middlewares router ++ [middleware] |}.

(** The test of one iteration of [findRoute]: the method is compared, then
    the path is matched. *)
Definition tryRoute (route : Route.t) (method path : string)
  : option Route.Params :=
  if String.eqb (Route.methodString (Route.method route)) method
  then Route.match_ route path
  else None.

Fixpoint findRouteIn (routes : list Route.t) (method path : string)
  : option (Route.t * Route.Params) :=
  match routes with
  | [] => None
  | route :: rest =>
      match tryRoute route method path with
      | Some params => Some (route, params)
      | None => findRouteIn rest method path
      end
  end.

(** [findRoute] *)
Definition findRoute (method path : string) (router : t)
  : option (Route.t * Route.Params) :=
  findRouteIn (routes router) method path.

(** The body of the 404 page (the markup around the two values is left
    out). *)
Definition notFoundPage (request : Request.t) : string :=
  "404 - Page Not Found " +:+ Request.path request
  +:+ " Method: " +:+ Request.method request.

Definition handle404 (request : Request.t) : M unit :=
  onResponse (λ r, Response.html (notFoundPage request) (Response.status 404 r)).

(** [executeRouting] *)
Definition executeRouting (router : t) (request : Request.t) : M unit :=
  match findRoute (Request.method request) (Request.path request) router with
  | Some (route, params) =>
      callHandler (Route.handler route) request (Some params)
  | None => handle404 request
  end.

(** [executeMiddlewares] on the middleware from the current index on. *)
Fixpoint runChain (request : Request.t) (rest : list MiddlewareHandler)
  : M unit :=
  match rest with
  | [] => mret tt
  | middleware :: rest' =>
      nextCalled ← newCell false;
      let next : M unit :=
        called ← readCell nextCalled;
        if called : bool then
          throw (plainError "next() called multiple times")
        else
          writeCell nextCalled true;;
          detach (runChain request rest')
      in
      tryCatch
        (middleware request next;;
         called ← readCell nextCalled;
         if called : bool then mret tt else mret tt)
        (λ error, throw error)
  end.

(** [executeMiddlewares(request, response, middlewares, index)] *)
Definition executeMiddlewares (request : Request.t)
    (middlewares : list MiddlewareHandler) (index : nat) : M unit :=
  runChain request (drop index middlewares).

(** [handle] *)
Definition handle (router : t) (request : Request.t) : M unit :=
  tryCatch
    (if (0 <? length (middlewares router))%nat then
       middlewareCompleted ← newCell false;
       let routing : MiddlewareHandler := λ req _,
         executeRouting router req;;
         writeCell middlewareCompleted true in
       executeMiddlewares request (middlewares router ++ [routing]) 0;;
       completed ← readCell middlewareCompleted;
       if completed : bool then mret tt else mret tt
     else
       executeRouting router request)
    (λ error,
       consoleError "Router error:" error;;
       finished ← responseFinished;
       if negb finished then
         onResponse
           (λ r, Response.text "Internal Server Error" (Response.status 500 r))
       else mret tt).

(** *** Registration and lookup *)


Lemma findRouteIn_None (routes : list Route.t) (method path : string) :
  findRouteIn routes method path = None
  ↔ Forall (λ route, tryRoute route method path = None) routes.
Proof.
  induction routes as [|r rest IH]; cbn; [by split|].
  destruct (tryRoute r method path) eqn:Hr.
  - split; [done|]. intros [Hhead _]%Forall_cons. congruence.
  - rewrite IH. split; [by constructor|]. by intros [_ ?]%Forall_cons.
Qed.




Definition handlerA : Route.RouteHandler :=
  λ _ response _, (Normal tt, Response.text "A" response).

Definition handlerB : Route.RouteHandler :=
  λ _ response _, (Normal tt, Response.text "B" response).

Definition getUser7 : Request.t :=
  {| Request.method := "GET"; Request.path := "/users/7" |}.

(** [/users/:id] before [/users/:name]. *)
Definition idThenName : option t :=
  get "/users/:id" handlerA empty ≫= get "/users/:name" handlerB.

(** [/users/:name] before [/users/:id]. *)
Definition nameThenId : option t :=
  get "/users/:name" handlerB empty ≫= get "/users/:id" handlerA.


(** With either order of the two templates, the request reaches the
    handler of the one registered first. *)
Example first_of_two_templates_wins :
  (∃ router, idThenName = Some router
     ∧ Response.rawBody
         (Response.raw
            (response (executeRouting router getUser7
                         (initialWorld Response.fresh)).2))
       = Some "A")
  ∧ (∃ router, nameThenId = Some router
     ∧ Response.rawBody
         (Response.raw
            (response (executeRouting router getUser7
                         (initialWorld Response.fresh)).2))
       = Some "B").
Proof. split; eexists; (split; [reflexivity|]); by vm_compute. Qed.

(** *** Errors *)

(** The response the [catch] of [handle] leaves behind: untouched when it
    was finished, the 500 answer otherwise. *)
Definition afterCatch (r : Response.t) : Response.t :=
  if Response.finished r then r
  else Response.text "Internal Server Error" (Response.status 500 r).

(** [handle] never throws. *)
Lemma handle_returns (router : t) (request : Request.t) (w : World) :
  ∃ w', handle router request w = (Normal tt, w').
Proof.
  unfold handle, tryCatch.
  match goal with |- context [match ?body w with _ => _ end] =>
    destruct (body w) as [[[]|e] w1] end.
  - by eexists.
  - unfold mbind, Eff_bind, consoleError, responseFinished. cbn.
    destruct (Response.finished (response w1)); by eexists.
Qed.








End Router.

(** ** [Map] with string keys

    The entries of an ES2015 [Map], in insertion order. *)

Module JsMap.

Definition t (V : Type) : Type := list (string * V).

Fixpoint get {V : Type} (key : string) (m : t V) : option V :=
  match m with
  | [] => None
  | (k, v) :: rest => if String.eqb k key then Some v else get key rest
  end.

Definition has {V : Type} (key : string) (m : t V) : bool :=
  match get key m with
  | Some _ => true
  | None => false
  end.

(** [set] keeps the position of a key that is present and appends a new
    one. *)
Fixpoint set {V : Type} (key : string) (value : V) (m : t V) : t V :=
  match m with
  | [] => [(key, value)]
  | (k, v) :: rest =>
      if String.eqb k key then (k, value) :: rest
      else (k, v) :: set key value rest
  end.

Fixpoint delete {V : Type} (key : string) (m : t V) : t V :=
  match m with
  | [] => []
  | (k, v) :: rest =>
      if String.eqb k key then delete key rest else (k, v) :: delete key rest
  end.

Definition values {V : Type} (m : t V) : list V := m.*2.

Definition size {V : Type} (m : t V) : nat := length m.

End JsMap.

(** [Array.prototype.sort(compare)]: a stable sort; [compare a b <= 0]
    keeps [a] in front of [b]. *)
Fixpoint sortInsert {A : Type} (compare : A → A → Z) (x : A) (sorted : list A)
  : list A :=
  match sorted with
  | [] => [x]
  | y :: rest =>
      if (compare x y <=? 0)%Z then x :: y :: rest
      else y :: sortInsert compare x rest
  end.

Fixpoint sort {A : Type} (compare : A → A → Z) (items : list A) : list A :=
  match items with
  | [] => []
  | x :: rest => sortInsert compare x (sort compare rest)
  end.

(** ** ServletContainer.ts *)

Module ServletContainer.

Record ServletConfig := {
  servletName : string;
  initParameters : gmap string string
}.

(** The identity of a servlet object. *)
Definition ServletRef : Type := nat.

Record ServletMapping := {
  urlPattern : string;
  servlet : ServletRef;
  config : ServletConfig;
  loadOnStartup : option Z;
  createdAt : Z;
  lastAccessed : Z;
  requestCount : nat
}.

(** The fields of a container. *)
Record t := {
  servletMappings : JsMap.t ServletMapping;
  servletsByName : JsMap.t ServletMapping;
  isStarted : bool;
  startedAt : option Z;
  totalRequests : nat
}.

(** [new ServletContainer()] *)
Definition create : t := {|
  servletMappings := [];
  servletsByName := [];
  isStarted := false;
  startedAt := None;
  totalRequests := 0
|}.

(** What the life of a servlet object looks like from outside: [init]
    completed, [service] was called, [destroy] completed. *)
Inductive Event :=
| Initialized (s : ServletRef)
| Serviced (s : ServletRef)
| Destroyed (s : ServletRef).

(** What the methods of the container reach: the container, the [config]
    field of every [GenericServlet] (absent: [null]), the response of the
    request at hand, the clock behind [new Date()], and the record of the
    calls that reached the servlets. *)
Record World := {
  container : t;
  servletConfigs : gmap ServletRef ServletConfig;
  response : Response.t;
  now : Z;
  events : list Event
}.

Definition initialWorld : World := {|
  container := create;
  servletConfigs := ∅;
  response := Response.fresh;
  now := 0;
  events := []
|}.

Abbreviation M := (Eff World).

(** The code of the servlets, as far as one call of a container method
    meets it: the outcome of [initServlet()] and of [destroy()], and what
    [service] does with the response. *)
Record Hooks := {
  onInit : ServletRef → Completion unit;
  onDestroy : ServletRef → Completion unit;
  onService : ServletRef → Request.t → Response.t → Completion unit * Response.t
}.

Definition ServletContainerException (message : string) : Error :=
  MkError "ServletContainerException" message.

Definition ServletContainerExceptionCaused (message : string) (cause : Error)
  : Error :=
  WithCause "ServletContainerException" message cause.

Definition getContainer : M t := λ w, (Normal (container w), w).

Definition setContainer (c : t) : M unit :=
  λ w,
    (Normal tt,
     {| container := c; servletConfigs := servletConfigs w;
        response := response w; now := now w; events := events w |}).

Definition getNow : M Z := λ w, (Normal (now w), w).

Definition record (e : Event) : M unit :=
  λ w,
    (Normal tt,
     {| container := container w; servletConfigs := servletConfigs w;
        response := response w; now := now w; events := events w ++ [e] |}).

Definition onResponse (f : Response.t → Response.t) : M unit :=
  λ w,
    (Normal tt,
     {| container := container w; servletConfigs := servletConfigs w;
        response := f (response w); now := now w; events := events w |}).

(** [response.headersSent] *)
Definition responseHeadersSent : M bool :=
  λ w, (Normal (Response.headersSent (response w)), w).

(** The result of a hook becomes the completion of the call. *)
Definition complete (c : Completion unit) : M unit := λ w, (c, w).

(** [GenericServlet.init]: the configuration is stored, then the hook
    runs. *)
Definition storeConfig (s : ServletRef) (cfg : ServletConfig) : M unit :=
  λ w,
    (Normal tt,
     {| container := container w;
        servletConfigs := <[s := cfg]> (servletConfigs w);
        response := response w; now := now w; events := events w |}).

Definition servletInit (hooks : Hooks) (s : ServletRef) (cfg : ServletConfig)
  : M unit :=
  storeConfig s cfg;;
  complete (onInit hooks s);;
  record (Initialized s).

(** [servlet.destroy()] *)
Definition servletDestroy (hooks : Hooks) (s : ServletRef) : M unit :=
  complete (onDestroy hooks s);;
  record (Destroyed s).

(** [servlet.service(request, response)] *)
Definition runService (hooks : Hooks) (s : ServletRef) (request : Request.t)
  : M unit :=
  λ w,
    let '(completion, r) := onService hooks s request (response w) in
    (completion,
     {| container := container w; servletConfigs := servletConfigs w;
        response := r; now := now w; events := events w |}).

Definition servletService (hooks : Hooks) (s : ServletRef) (request : Request.t)
  : M unit :=
  record (Serviced s);;
  runService hooks s request.

(** [GenericServlet.getServletConfig] *)
Definition getServletConfig (s : ServletRef) : M (option ServletConfig) :=
  λ w, (Normal (servletConfigs w !! s), w).

(** [initializeServlet] *)
Definition initializeServlet (hooks : Hooks) (mapping : ServletMapping)
  : M unit :=
  tryCatch
    (servletInit hooks (servlet mapping) (config mapping))
    (λ error,
       throw
         (ServletContainerExceptionCaused
            ("Servlet initialization failed: "
             +:+ servletName (config mapping))
            error)).

(** [isServletInitialized] *)
Definition isServletInitialized (mapping : ServletMapping) : M bool :=
  cfg ← getServletConfig (servlet mapping);
  mret (bool_decide (is_Some cfg)).

(** The key of the sort in [start]: [loadOnStartup || 0]. *)
Definition startupOrder (mapping : ServletMapping) : Z :=
  default 0%Z (loadOnStartup mapping).

Definition startupServlets (c : t) : list ServletMapping :=
  sort (λ a b, startupOrder a - startupOrder b)%Z
    (List.filter (λ mapping, bool_decide (is_Some (loadOnStartup mapping)))
       (JsMap.values (servletMappings c))).

Definition setStarted (started : bool) (at_ : option Z) (c : t) : t := {|
  servletMappings := servletMappings c;
  servletsByName := servletsByName c;
  isStarted := started;
  startedAt := at_;
  totalRequests := totalRequests c
|}.

(** [start] *)
Definition start (hooks : Hooks) : M unit :=
  c ← getContainer;
  if isStarted c then
    throw (ServletContainerException "Container is already started")
  else
    tryCatch
      (forEach (initializeServlet hooks) (startupServlets c);;
       time ← getNow;
       c' ← getContainer;
       setContainer (setStarted true (Some time) c'))
      (λ error,
         throw (ServletContainerExceptionCaused "Container startup failed" error)).

(** The body of the loop of [stop]: an error of [destroy] is logged. *)
Definition destroyLogged (hooks : Hooks) (mapping : ServletMapping) : M unit :=
  tryCatch (servletDestroy hooks (servlet mapping)) (λ _, mret tt).

(** [stop] *)
Definition stop (hooks : Hooks) : M unit :=
  c ← getContainer;
  if negb (isStarted c) then mret tt
  else
    tryCatch
      (forEach (destroyLogged hooks) (JsMap.values (servletMappings c));;
       c' ← getContainer;
       setContainer (setStarted false None c'))
      (λ error,
         throw (ServletContainerExceptionCaused "Container shutdown failed" error)).

Definition withMappings (byPattern byName : JsMap.t ServletMapping) (c : t) : t := {|
  servletMappings := byPattern;
  servletsByName := byName;
  isStarted := isStarted c;
  startedAt := startedAt c;
  totalRequests := totalRequests c
|}.

(** [registerServlet] *)
Definition registerServlet (hooks : Hooks) (pattern : string) (s : ServletRef)
    (cfg : ServletConfig) (priority : option Z) : M unit :=
  c ← getContainer;
  if JsMap.has pattern (servletMappings c) then
    throw (ServletContainerException
             ("Servlet already mapped to URL pattern: " +:+ pattern))
  else if JsMap.has (servletName cfg) (servletsByName c) then
    throw (ServletContainerException
             ("Servlet name already exists: " +:+ servletName cfg))
  else
    time ← getNow;
    let mapping := {|
      urlPattern := pattern; servlet := s; config := cfg;
      loadOnStartup := priority; createdAt := time; lastAccessed := time;
      requestCount := 0
    |} in
    setContainer
      (withMappings (JsMap.set pattern mapping (servletMappings c))
                    (JsMap.set (servletName cfg) mapping (servletsByName c))
                    c);;
    if isStarted c then initializeServlet hooks mapping else mret tt.

(** [unregisterServlet] *)
Definition unregisterServlet (hooks : Hooks) (pattern : string) : M unit :=
  c ← getContainer;
  match JsMap.get pattern (servletMappings c) with
  | None =>
      throw (ServletContainerException
               ("No servlet mapped to URL pattern: " +:+ pattern))
  | Some mapping =>
      tryCatch
        (servletDestroy hooks (servlet mapping);;
         c' ← getContainer;
         setContainer
           (withMappings
              (JsMap.delete pattern (servletMappings c'))
              (JsMap.delete (servletName (config mapping)) (servletsByName c'))
              c'))
        (λ error,
           throw (ServletContainerExceptionCaused
                    ("Failed to unregister servlet: " +:+ pattern) error))
  end.

(** The entries a prefix search keeps, and the order it puts them in. *)
Definition prefixMatches (requestPath : string) (mappings : JsMap.t ServletMapping)
  : list (string * ServletMapping) :=
  List.filter (λ entry, JsString.startsWith requestPath entry.1) mappings.

Definition longerFirst (a b : string * ServletMapping) : Z :=
  (Z.of_nat (String.length b.1) - Z.of_nat (String.length a.1))%Z.

(** [findMatchingServlet] *)
Definition findMatchingServlet (requestPath : string)
    (mappings : JsMap.t ServletMapping) : option ServletMapping :=
  match List.find (λ entry, String.eqb requestPath entry.1) mappings with
  | Some (_, mapping) => Some mapping
  | None =>
      match sort longerFirst (prefixMatches requestPath mappings) with
      | first :: _ => Some first.2
      | [] => None
      end
  end.

(** The mapping object is shared by the two indexes: an assignment to one
    of its fields shows under its pattern and under its name. *)
Definition storeMapping (mapping : ServletMapping) (c : t) : t := {|
  servletMappings := JsMap.set (urlPattern mapping) mapping (servletMappings c);
  servletsByName :=
    JsMap.set (servletName (config mapping)) mapping (servletsByName c);
  isStarted := isStarted c;
  startedAt := startedAt c;
  totalRequests := totalRequests c
|}.

Definition countRequest (c : t) : t := {|
  servletMappings := servletMappings c;
  servletsByName := servletsByName c;
  isStarted := isStarted c;
  startedAt := startedAt c;
  totalRequests := S (totalRequests c)
|}.

(** The statistics update at the head of the [try] block. *)
Definition touch (time : Z) (mapping : ServletMapping) : ServletMapping := {|
  urlPattern := urlPattern mapping; servlet := servlet mapping;
  config := config mapping; loadOnStartup := loadOnStartup mapping;
  createdAt := createdAt mapping; lastAccessed := time;
  requestCount := S (requestCount mapping)
|}.

(** The body of the error response (the serialised object, without its
    timestamp). *)
Definition servletErrorBody (error : Error) (mapping : ServletMapping) : string :=
  "Servlet Error: " +:+ errorMessage error
  +:+ " servlet: " +:+ servletName (config mapping).

(** [handleRequest] *)
Definition handleRequest (hooks : Hooks) (request : Request.t) : M bool :=
  c ← getContainer;
  if negb (isStarted c) then
    throw (ServletContainerException "Container is not started")
  else
    match findMatchingServlet (Request.path request) (servletMappings c) with
    | None => mret false
    | Some matchedMapping =>
        tryCatch
          (time ← getNow;
           let touched := touch time matchedMapping in
           setContainer (countRequest (storeMapping touched c));;
           initialized ← isServletInitialized touched;
           (if negb initialized then initializeServlet hooks touched
            else mret tt);;
           servletService hooks (servlet touched) request;;
           mret true)
          (λ error,
             sent ← responseHeadersSent;
             (if negb sent then
                onResponse
                  (λ r, Response.json (servletErrorBody error matchedMapping)
                          (Response.status 500 r))
              else mret tt);;
             mret true)
    end.

(** *** Selection of the servlet *)

Lemma find_get (path : string) (mappings : JsMap.t ServletMapping) :
  List.find (λ entry, String.eqb path entry.1) mappings
  = (λ mapping, (path, mapping)) <$> JsMap.get path mappings.
Proof.
  induction mappings as [|[k v] rest IH]; [done|]. cbn.
  rewrite String.eqb_sym. destruct (String.eqb_spec k path) as [->|]; [done|].
  exact IH.
Qed.

Lemma get_elem_of {V : Type} (key : string) (m : JsMap.t V) (v : V) :
  JsMap.get key m = Some v → (key, v) ∈ m.
Proof.
  induction m as [|[k x] rest IH]; [done|]. cbn.
  destruct (String.eqb_spec k key) as [->|].
  - intros [= ->]. by left.
  - intros H. right. by apply IH.
Qed.

Lemma get_None_elem_of {V : Type} (key : string) (m : JsMap.t V) (v : V) :
  JsMap.get key m = None → (key, v) ∉ m.
Proof.
  induction m as [|[k x] rest IH]; cbn; [intros _; apply not_elem_of_nil|].
  destruct (String.eqb_spec k key) as [->|Hne]; [done|].
  intros H [[= -> ->]|Hin]%elem_of_cons; [done|]. by apply IH in Hin.
Qed.

Lemma elem_of_prefixMatches (path : string) (mappings : JsMap.t ServletMapping)
    (entry : string * ServletMapping) :
  entry ∈ prefixMatches path mappings
  ↔ entry ∈ mappings ∧ JsString.startsWith path entry.1 = true.
Proof. unfold prefixMatches. rewrite !list_elem_of_In. apply filter_In. Qed.

(** The head of the sorted candidates is a longest one. *)
Lemma sort_longerFirst_head (candidates : list (string * ServletMapping)) :
  match sort longerFirst candidates with
  | [] => candidates = []
  | first :: _ =>
      first ∈ candidates
      ∧ ∀ other, other ∈ candidates →
                 (String.length other.1 ≤ String.length first.1)%nat
  end.
Proof.
  induction candidates as [|x rest IH]; [done|]. cbn.
  destruct (sort longerFirst rest) as [|first sorted]; cbn.
  - subst rest. split; [by left|]. by intros other ->%list_elem_of_singleton.
  - destruct IH as [Hfirst Hmax]. unfold longerFirst at 1.
    destruct (Z.leb_spec (Z.of_nat (String.length first.1)
                          - Z.of_nat (String.length x.1)) 0).
    + split; [by left|]. intros other [->|Hother]%elem_of_cons; [done|].
      apply Hmax in Hother. lia.
    + split; [by right|]. intros other [->|Hother]%elem_of_cons; [lia|].
      by apply Hmax.
Qed.

(** What [findMatchingServlet] returns: the mapping under the path itself
    when there is one; otherwise a mapping under a longest key that is a
    prefix of the path; nothing exactly when no key is a prefix. *)
Lemma findMatchingServlet_spec (path : string)
    (mappings : JsMap.t ServletMapping) :
  match findMatchingServlet path mappings with
  | Some mapping =>
      ∃ key,
        (key, mapping) ∈ mappings
        ∧ JsString.startsWith path key = true
        ∧ (∀ q m, (q, m) ∈ mappings → JsString.startsWith path q = true →
                  (String.length q ≤ String.length key)%nat)
  | None =>
      ∀ q m, (q, m) ∈ mappings → JsString.startsWith path q = false
  end.
Proof.
  unfold findMatchingServlet. rewrite find_get.
  destruct (JsMap.get path mappings) as [mapping|] eqn:Hget; cbn.
  - exists path. split; [by apply get_elem_of|].
    split; [apply JsString.startsWith_refl|].
    intros q m _ Hq. by apply JsString.startsWith_length.
  - pose proof (sort_longerFirst_head (prefixMatches path mappings)) as Hsort.
    destruct (sort longerFirst (prefixMatches path mappings))
      as [|[key mapping] sorted].
    + intros q m Hin. destruct (JsString.startsWith path q) eqn:Hq; [|done].
      assert ((q, m) ∈ prefixMatches path mappings) as Hcand
        by by apply elem_of_prefixMatches.
      rewrite Hsort in Hcand. by apply elem_of_nil in Hcand.
    + destruct Hsort as [[Hin Hprefix]%elem_of_prefixMatches Hmax].
      exists key. split; [done|]. split; [done|].
      intros q m Hq Hpre. apply (Hmax (q, m)). by apply elem_of_prefixMatches.
Qed.

Lemma findMatchingServlet_exact (path : string)
    (mappings : JsMap.t ServletMapping) (mapping : ServletMapping) :
  JsMap.get path mappings = Some mapping →
  findMatchingServlet path mappings = Some mapping.
Proof. intros Hget. unfold findMatchingServlet. by rewrite find_get, Hget. Qed.

(** *** One dispatch *)

(** Unfolds the plumbing of [M] down to the state transformers. *)
Ltac eff :=
  unfold handleRequest, unregisterServlet, registerServlet, start, stop,
    initializeServlet, isServletInitialized, servletInit, servletDestroy,
    servletService, runService, storeConfig, getServletConfig, getContainer,
    setContainer, getNow, record, onResponse, responseHeadersSent, complete,
    tryCatch, throw, mbind, mret, Eff_bind, Eff_ret;
  cbn [container servletConfigs response now events].

(** The calls a dispatch to [mapping] makes on its servlet. *)
Definition dispatchTrace (hooks : Hooks) (w : World) (mapping : ServletMapping)
  : list Event :=
  let s := servlet mapping in
  match servletConfigs w !! s with
  | Some _ => [Serviced s]
  | None =>
      match onInit hooks s with
      | Normal _ => [Initialized s; Serviced s]
      | Throw _ => []
      end
  end.

(** A stopped container refuses the request: [handleRequest] throws and
    nothing else happens. *)
Lemma handleRequest_stopped (hooks : Hooks) (request : Request.t) (w : World) :
  isStarted (container w) = false →
  handleRequest hooks request w
  = (Throw (ServletContainerException "Container is not started"), w).
Proof. intros Hstopped. eff. by rewrite Hstopped. Qed.

(** No key is a prefix of the path: not handled, nothing happens. *)
Lemma handleRequest_unmatched (hooks : Hooks) (request : Request.t) (w : World) :
  isStarted (container w) = true →
  findMatchingServlet (Request.path request) (servletMappings (container w))
  = None →
  handleRequest hooks request w = (Normal false, w).
Proof. intros Hstarted Hnone. eff. by rewrite Hstarted, Hnone. Qed.

(** The request goes to the servlet of the selected mapping, and is
    reported as handled whatever the servlet does. *)
Lemma handleRequest_dispatch (hooks : Hooks) (request : Request.t) (w : World)
    (mapping : ServletMapping) :
  isStarted (container w) = true →
  findMatchingServlet (Request.path request) (servletMappings (container w))
  = Some mapping →
  ∃ w',
    handleRequest hooks request w = (Normal true, w')
    ∧ container w'
      = countRequest (storeMapping (touch (now w) mapping) (container w))
    ∧ events w' = events w ++ dispatchTrace hooks w mapping.
Proof.
  intros Hstarted Hfind. unfold dispatchTrace. eff.
  rewrite Hstarted, Hfind. cbn [negb touch servlet config].
  destruct (servletConfigs w !! servlet mapping) as [cfg|] eqn:Hcfg.
  - rewrite bool_decide_true by done. cbn.
    destruct (onService hooks (servlet mapping) request (response w))
      as [[[]|e] r]; cbn.
    + by eexists.
    + destruct (Response.headersSent r); by eexists.
  - rewrite bool_decide_false by (by intros [? ?]). cbn.
    destruct (onInit hooks (servlet mapping)) as [[]|e]; cbn.
    + destruct (onService hooks (servlet mapping) request (response w))
        as [[[]|e] r]; cbn.
      * eexists. by rewrite <- app_assoc.
      * destruct (Response.headersSent r); eexists; by rewrite <- app_assoc.
    + rewrite app_nil_r.
      destruct (Response.headersSent (response w)); by eexists.
Qed.

(** C1. On a running container: when the request path is itself a
    registered pattern, its mapping is selected; otherwise the selected
    mapping is registered under a pattern that is a prefix of the path and
    at least as long as every registered pattern that is a prefix of the
    path; a mapping is selected as soon as one registered pattern is a
    prefix; the request then goes to the servlet of the selected mapping and
    [handleRequest] returns [true]; and when no registered pattern is a
    prefix of the path, [handleRequest] returns [false] and changes
    nothing. *)
Theorem handleRequest_selects_longest_prefix (hooks : Hooks)
    (request : Request.t) (w : World) :
  isStarted (container w) = true →
  let mappings := servletMappings (container w) in
  let path := Request.path request in
  (∀ mapping, JsMap.get path mappings = Some mapping →
              findMatchingServlet path mappings = Some mapping)
  ∧ (∀ mapping,
       findMatchingServlet path mappings = Some mapping →
       ∃ key,
         (key, mapping) ∈ mappings
         ∧ JsString.startsWith path key = true
         ∧ (∀ q m, (q, m) ∈ mappings → JsString.startsWith path q = true →
                   (String.length q ≤ String.length key)%nat)
         ∧ ∃ w', handleRequest hooks request w = (Normal true, w')
                 ∧ events w' = events w ++ dispatchTrace hooks w mapping)
  ∧ (∀ q m, (q, m) ∈ mappings → JsString.startsWith path q = true →
            is_Some (findMatchingServlet path mappings))
  ∧ ((∀ q m, (q, m) ∈ mappings → JsString.startsWith path q = false) →
     handleRequest hooks request w = (Normal false, w)).
Proof.
  intros Hstarted mappings path.
  pose proof (findMatchingServlet_spec path mappings) as Hspec.
  split; [|split; [|split]].
  - apply findMatchingServlet_exact.
  - intros mapping Hfind. rewrite Hfind in Hspec.
    destruct Hspec as (key & Hin & Hprefix & Hmax).
    exists key. split; [done|]. split; [done|]. split; [done|].
    destruct (handleRequest_dispatch hooks request w mapping Hstarted Hfind)
      as (w' & Hrun & _ & Hevents).
    by exists w'.
  - intros q m Hin Hprefix.
    destruct (findMatchingServlet path mappings); [done|].
    rewrite (Hspec q m Hin) in Hprefix. done.
  - intros Hnone. apply handleRequest_unmatched; [done|].
    fold mappings path. destruct (findMatchingServlet path mappings) eqn:Hfind;
      [|done].
    destruct Hspec as (key & Hin & Hprefix & _).
    rewrite (Hnone _ _ Hin) in Hprefix. done.
Qed.

(** Servlet code that never fails and answers [ok]. *)
Definition okHooks : Hooks := {|
  onInit := λ _, Normal tt;
  onDestroy := λ _, Normal tt;
  onService := λ _ _ r, (Normal tt, Response.text "ok" r)
|}.

Definition named (name : string) : ServletConfig :=
  {| servletName := name; initParameters := ∅ |}.

(** A running container with servlet 0 at [/a] and servlet 1 at [/a/b],
    both lazy. *)
Definition worldAB : World :=
  ((registerServlet okHooks "/a" 0 (named "A") None;;
    registerServlet okHooks "/a/b" 1 (named "B") None;;
    start okHooks) initialWorld).2.

Definition getABC : Request.t :=
  {| Request.method := "GET"; Request.path := "/a/b/c" |}.

(** A request to [/a/b/c] initializes and calls the servlet at [/a/b]. *)
Lemma handleRequest_selects_longest_prefix_witness :
  ∃ w', handleRequest okHooks getABC worldAB = (Normal true, w')
        ∧ events w' = [Initialized 1; Serviced 1].
Proof.
  destruct (handleRequest_selects_longest_prefix okHooks getABC worldAB eq_refl)
    as (_ & Hselect & _).
  destruct (findMatchingServlet (Request.path getABC)
              (servletMappings (container worldAB))) as [mapping|] eqn:Hfind;
    [|discriminate Hfind].
  destruct (Hselect mapping eq_refl) as (key & _ & _ & _ & w' & Hrun & Hevents).
  exists w'. split; [exact Hrun|].
  rewrite Hevents. injection Hfind as <-. reflexivity.
Defined.

(** C10. On a running container with a mapping registered under [P], every
    path [P ++ rest] is dispatched, whatever character [rest] starts with:
    a mapping is selected, it is registered under a prefix of the path at
    least as long as [P], under [P] itself when no longer registered
    pattern is a prefix of the path, and its servlet gets the request. *)
Theorem prefix_match_ignores_segment_boundary (hooks : Hooks) (w : World)
    (method P rest : string) (registered : ServletMapping) :
  isStarted (container w) = true →
  (P, registered) ∈ servletMappings (container w) →
  let mappings := servletMappings (container w) in
  let request := {| Request.method := method; Request.path := P +:+ rest |} in
  ∃ key mapping w',
    findMatchingServlet (P +:+ rest) mappings = Some mapping
    ∧ (key, mapping) ∈ mappings
    ∧ JsString.startsWith (P +:+ rest) key = true
    ∧ (String.length P ≤ String.length key)%nat
    ∧ ((∀ q m, (q, m) ∈ mappings → JsString.startsWith (P +:+ rest) q = true →
               (String.length q ≤ String.length P)%nat) →
       key = P)
    ∧ handleRequest hooks request w = (Normal true, w')
    ∧ events w' = events w ++ dispatchTrace hooks w mapping.
Proof.
  intros Hstarted Hin mappings request.
  pose proof (findMatchingServlet_spec (P +:+ rest) mappings) as Hspec.
  pose proof (JsString.startsWith_app P rest) as HP.
  destruct (findMatchingServlet (P +:+ rest) mappings) as [mapping|] eqn:Hfind.
  2: { rewrite (Hspec P registered Hin) in HP. done. }
  destruct Hspec as (key & Hkey & Hprefix & Hmax).
  destruct (handleRequest_dispatch hooks request w mapping Hstarted Hfind)
    as (w' & Hrun & _ & Hevents).
  exists key, mapping, w'. split; [done|]. split; [done|]. split; [done|].
  split; [by eapply Hmax|]. split; [|done].
  intros Hlongest. symmetry.
  apply (JsString.startsWith_same_length (P +:+ rest)); [done..|].
  apply Nat.le_antisymm; [by eapply Hmax|by eapply Hlongest].
Qed.

(** A running container with the eager servlet 0 at [/servlet/hello]. *)
Definition worldHello : World :=
  ((registerServlet okHooks "/servlet/hello" 0 (named "HelloServlet") (Some 1%Z);;
    start okHooks) initialWorld).2.

(** A request to [/servlet/helloextra] is served by the servlet at
    [/servlet/hello]. *)
Lemma prefix_match_ignores_segment_boundary_witness :
  ∃ mapping w',
    findMatchingServlet "/servlet/helloextra"
      (servletMappings (container worldHello)) = Some mapping
    ∧ urlPattern mapping = "/servlet/hello"
    ∧ handleRequest okHooks
        {| Request.method := "GET"; Request.path := "/servlet/helloextra" |}
        worldHello = (Normal true, w')
    ∧ events w' = [Initialized 0; Serviced 0].
Proof.
  destruct (JsMap.get "/servlet/hello" (servletMappings (container worldHello)))
    as [registered|] eqn:Hget; [|discriminate Hget].
  destruct (prefix_match_ignores_segment_boundary okHooks worldHello "GET"
              "/servlet/hello" "extra" registered eq_refl
              (get_elem_of _ _ _ Hget))
    as (key & mapping & w' & Hfind & _ & _ & _ & _ & Hrun & Hevents).
  exists mapping, w'. split; [exact Hfind|].
  injection Hfind as <-. split; [reflexivity|]. split; [exact Hrun|].
  rewrite Hevents. reflexivity.
Defined.

(** *** Unregistering *)

(** C9. When [destroy] of the servlet mapped at [pattern] throws,
    [unregisterServlet] throws a container exception that carries the
    error, and nothing has changed: both indexes are as they were, and a
    path equal to the pattern still selects the mapping. *)
Theorem unregisterServlet_destroy_failure (hooks : Hooks) (pattern : string)
    (w : World) (mapping : ServletMapping) (e : Error) :
  JsMap.get pattern (servletMappings (container w)) = Some mapping →
  onDestroy hooks (servlet mapping) = Throw e →
  ∃ w',
    unregisterServlet hooks pattern w
    = (Throw (ServletContainerExceptionCaused
                ("Failed to unregister servlet: " +:+ pattern) e), w')
    ∧ w' = w
    ∧ servletMappings (container w') = servletMappings (container w)
    ∧ servletsByName (container w') = servletsByName (container w)
    ∧ JsMap.get pattern (servletMappings (container w')) = Some mapping
    ∧ findMatchingServlet pattern (servletMappings (container w'))
      = Some mapping.
Proof.
  intros Hget Hdestroy. exists w. split.
  - eff. rewrite Hget. cbn. by rewrite Hdestroy.
  - split; [done|]. split; [done|]. split; [done|]. split; [done|].
    by apply findMatchingServlet_exact.
Qed.

(** Servlet code whose [destroy] throws. *)
Definition stubbornHooks : Hooks := {|
  onInit := λ _, Normal tt;
  onDestroy := λ _, Throw (plainError "busy");
  onService := λ _ _ r, (Normal tt, Response.text "ok" r)
|}.

Lemma unregisterServlet_destroy_failure_witness :
  ∃ mapping,
    JsMap.get "/servlet/hello" (servletMappings (container worldHello))
    = Some mapping
    ∧ unregisterServlet stubbornHooks "/servlet/hello" worldHello
      = (Throw (ServletContainerExceptionCaused
                  "Failed to unregister servlet: /servlet/hello"
                  (plainError "busy")), worldHello)
    ∧ JsMap.get "HelloServlet" (servletsByName (container worldHello))
      = Some mapping.
Proof.
  destruct (JsMap.get "/servlet/hello" (servletMappings (container worldHello)))
    as [mapping|] eqn:Hget; [|discriminate Hget].
  destruct (unregisterServlet_destroy_failure stubbornHooks "/servlet/hello"
              worldHello mapping (plainError "busy") Hget eq_refl)
    as (w' & Hrun & -> & _).
  exists mapping. split; [reflexivity|]. split; [exact Hrun|].
  injection Hget as <-. reflexivity.
Defined.

(** *** Sequences of calls *)

(** The public methods, as the embedding application calls them. *)
Inductive Op :=
| CallStart
| CallStop
| CallRegister (pattern : string) (s : ServletRef) (cfg : ServletConfig)
    (priority : option Z)
| CallUnregister (pattern : string)
| CallHandle (request : Request.t).

(** One call: the method, the time of the call, and the servlet code it
    meets. *)
Record Call := { op : Op; time : Z; hooks : Hooks }.

Definition arrive (time : Z) (r : Response.t) (w : World) : World := {|
  container := container w; servletConfigs := servletConfigs w;
  response := r; now := time; events := events w
|}.

(** The world after one call; the caller goes on after an exception, and
    every request comes with a response object of its own. *)
Definition step (w : World) (call : Call) : World :=
  let w0 := arrive (time call) (response w) w in
  match op call with
  | CallStart => (start (hooks call) w0).2
  | CallStop => (stop (hooks call) w0).2
  | CallRegister pattern s cfg priority =>
      (registerServlet (hooks call) pattern s cfg priority w0).2
  | CallUnregister pattern => (unregisterServlet (hooks call) pattern w0).2
  | CallHandle request =>
      (handleRequest (hooks call) request
         (arrive (time call) Response.fresh w)).2
  end.

Definition run (calls : list Call) (w : World) : World := foldl step w calls.





(** The servlet objects handed to [registerServlet], in the order of the
    calls. *)
Fixpoint registered (calls : list Call) : list ServletRef :=
  match calls with
  | [] => []
  | call :: rest =>
      match op call with
      | CallRegister _ s _ _ => s :: registered rest
      | _ => registered rest
      end
  end.

(** *** What each method does to the indexes and to the servlets *)








Lemma get_None_set {V : Type} (key : string) (value : V) (m : JsMap.t V) :
  JsMap.get key m = None → JsMap.set key value m = m ++ [(key, value)].
Proof.
  induction m as [|[k v] rest IH]; [done|]. cbn.
  destruct (String.eqb k key); [done|]. intros H. by rewrite IH.
Qed.



(** *** Traces *)








(** *** The indexes *)

(** What the lifecycle depends on in an entry of [servletMappings]: its
    key, the pattern recorded in the mapping, and the servlet object. *)
Definition entryView (entry : string * ServletMapping)
  : string * string * ServletRef :=
  (entry.1, urlPattern entry.2, servlet entry.2).

Definition index (mappings : JsMap.t ServletMapping)
  : list (string * string * ServletRef) :=
  entryView <$> mappings.

Lemma delete_sublist {V : Type} (key : string) (m : JsMap.t V) :
  JsMap.delete key m `sublist_of` m.
Proof.
  induction m as [|[k v] rest IH]; cbn; [constructor|].
  destruct (String.eqb k key); by constructor.
Qed.


Lemma get_delete {V : Type} (key : string) (m : JsMap.t V) :
  JsMap.get key (JsMap.delete key m) = None.
Proof.
  induction m as [|[k v] rest IH]; cbn; [done|].
  destruct (String.eqb k key) eqn:E; [done|]. cbn. by rewrite E.
Qed.



Lemma get_None_keys {V : Type} (key : string) (m : JsMap.t V) :
  JsMap.get key m = None → key ∉ m.*1.
Proof.
  intros Hget [[k v] [-> Hin]]%list_elem_of_fmap.
  by apply (get_None_elem_of _ _ v) in Hget.
Qed.










(** *** Preservation along a sequence of calls *)










Definition getA : Request.t :=
  {| Request.method := "GET"; Request.path := "/a" |}.

Definition called (o : Op) : Call := {| op := o; time := 0; hooks := okHooks |}.






End ServletContainer.

(** ** Response.ts: headers and the committed response *)

Module ResponseHeaders.

Import Response.



(** [redirect(url, statusCode)] *)
Definition redirect (url : string) (statusCode : Z) (r : t) : t :=
  end_ (setHeader "Location" url (status statusCode r)).









End ResponseHeaders.

(** ** HttpServlet.ts *)

Module HttpServlet.

(** A [do*] method: it acts on the response and returns or throws. *)
Definition MethodHandler : Type :=
  Request.t → Response.t → Completion unit * Response.t.

(** The [do*] methods a subclass overrides ([None]: inherited). *)
Record t := {
  doGet : option MethodHandler;
  doHead : option MethodHandler;
  doPost : option MethodHandler;
  doPut : option MethodHandler;
  doDelete : option MethodHandler;
  doOptions : option MethodHandler;
  doTrace : option MethodHandler
}.

(** A subclass that overrides nothing. *)
Definition inheritsAll : t := {|
  doGet := None; doHead := None; doPost := None; doPut := None;
  doDelete := None; doOptions := None; doTrace := None
|}.

(** The inherited answer of [doGet], [doPost], [doPut], [doDelete] and
    [doTrace]. *)
Definition refuse (message : string) : MethodHandler :=
  λ _ r, (Normal tt, Response.text message (Response.status 405 r)).

Definition callGet (s : t) : MethodHandler :=
  default (refuse "Method GET is not supported") (doGet s).

(** The inherited [doHead] calls [this.doGet]. *)
Definition callHead (s : t) : MethodHandler := default (callGet s) (doHead s).

Definition callPost (s : t) : MethodHandler :=
  default (refuse "Method POST is not supported") (doPost s).

Definition callPut (s : t) : MethodHandler :=
  default (refuse "Method PUT is not supported") (doPut s).

Definition callDelete (s : t) : MethodHandler :=
  default (refuse "Method DELETE is not supported") (doDelete s).

Definition callTrace (s : t) : MethodHandler :=
  default (refuse "Method TRACE is not supported for security reasons")
    (doTrace s).

(** [this.doX !== HttpServlet.prototype.doX] *)
Definition overridden (method : option MethodHandler) : bool :=
  match method with
  | Some _ => true
  | None => false
  end.

(** The list the inherited [doOptions] joins into the [Allow] header. *)
Definition allowedMethods (s : t) : list string :=
  (if overridden (doGet s) then ["GET"; "HEAD"] else [])
  ++ (if overridden (doPost s) then ["POST"] else [])
  ++ (if overridden (doPut s) then ["PUT"] else [])
  ++ (if overridden (doDelete s) then ["DELETE"] else [])
  ++ ["OPTIONS"].

Definition inheritedOptions (s : t) : MethodHandler :=
  λ _ r,
    (Normal tt,
     Response.text ""
       (Response.status 200
          (Response.setHeader "Allow" (String.concat ", " (allowedMethods s)) r))).

Definition callOptions (s : t) : MethodHandler :=
  default (inheritedOptions s) (doOptions s).

Definition unsupported (method : string) : MethodHandler :=
  λ _ r,
    (Normal tt,
     Response.text ("Method " +:+ method +:+ " is not supported")
       (Response.status 501 r)).

(** The [switch] of [service]. *)
Definition dispatch (s : t) (method : string) : MethodHandler :=
  if String.eqb method "GET" then callGet s
  else if String.eqb method "HEAD" then callHead s
  else if String.eqb method "POST" then callPost s
  else if String.eqb method "PUT" then callPut s
  else if String.eqb method "DELETE" then callDelete s
  else if String.eqb method "OPTIONS" then callOptions s
  else if String.eqb method "TRACE" then callTrace s
  else unsupported method.

(** [service] *)
Definition service (s : t) : MethodHandler :=
  λ request r,
    let method := JsString.toUpperCase (Request.method request) in
    match dispatch s method request r with
    | (Normal _, r') => (Normal tt, r')
    | (Throw _, r') =>
        (Normal tt,
         Response.text "Internal Server Error" (Response.status 500 r'))
    end.

(** The methods the inherited code refuses. *)
Definition refusedByDefault (method : string) : bool :=
  bool_decide (method ∈ ["GET"; "HEAD"; "POST"; "PUT"; "DELETE"; "TRACE"]).

Lemma refuse_commits (message : string) (request : Request.t) (r : Response.t) :
  Response.headersSent r = false → Response.finished r = false →
  ∃ r', refuse message request r = (Normal tt, r')
        ∧ Response.rawStatusCode (Response.raw r') = 405%Z
        ∧ Response.rawBody (Response.raw r') = Some message.
Proof.
  intros Hsent Hfin. eexists. split; [reflexivity|].
  destruct (Response.status_text_commits 405 message r Hsent Hfin)
    as (Hcode & Hbody & _).
  by split.
Qed.




(** X4. A servlet that overrides nothing answers, on a response nothing was
    sent on: 405 to GET, HEAD, POST, PUT, DELETE and TRACE; 200 with
    [Allow: OPTIONS] and an empty body to OPTIONS; and 501 to every other
    method (PATCH among them). The method is compared in upper case. *)
Theorem service_inherited_answers (request : Request.t) (r : Response.t) :
  Response.headersSent r = false → Response.finished r = false →
  let method := JsString.toUpperCase (Request.method request) in
  ∃ r',
    service inheritsAll request r = (Normal tt, r')
    ∧ Response.finished r' = true
    ∧ Response.rawStatusCode (Response.raw r')
      = (if refusedByDefault method then 405
         else if String.eqb method "OPTIONS" then 200 else 501)%Z
    ∧ (method = "OPTIONS" →
       Response.rawHeaders (Response.raw r') !! "allow" = Some "OPTIONS"
       ∧ Response.rawBody (Response.raw r') = Some "").
Proof.
  intros Hsent Hfin method. subst method. unfold service. cbv zeta.
  set (method := JsString.toUpperCase (Request.method request)).
  clearbody method.
  assert (Hrefuse : ∀ message,
            let r' := (refuse message request r).2 in
            refuse message request r = (Normal tt, r')
            ∧ Response.finished r' = true
            ∧ Response.rawStatusCode (Response.raw r') = 405%Z).
  { intros message. split; [reflexivity|].
    destruct (Response.status_text_commits 405 message r Hsent Hfin)
      as (Hcode & _ & Hdone). by split. }
  unfold dispatch, refusedByDefault,
    callGet, callHead, callPost, callPut, callDelete, callOptions, callTrace.
  cbn [doGet doHead doPost doPut doDelete doOptions doTrace inheritsAll default].
  destruct (String.eqb_spec method "GET") as [->|HnG].
  { destruct (Hrefuse "Method GET is not supported") as (-> & ? & ?).
    eexists. by repeat split. }
  destruct (String.eqb_spec method "HEAD") as [->|HnH].
  { destruct (Hrefuse "Method GET is not supported") as (-> & ? & ?).
    eexists. by repeat split. }
  destruct (String.eqb_spec method "POST") as [->|HnP].
  { destruct (Hrefuse "Method POST is not supported") as (-> & ? & ?).
    eexists. by repeat split. }
  destruct (String.eqb_spec method "PUT") as [->|HnU].
  { destruct (Hrefuse "Method PUT is not supported") as (-> & ? & ?).
    eexists. by repeat split. }
  destruct (String.eqb_spec method "DELETE") as [->|HnD].
  { destruct (Hrefuse "Method DELETE is not supported") as (-> & ? & ?).
    eexists. by repeat split. }
  unfold Response.headersSent, Response.finished in Hsent, Hfin.
  apply orb_false_iff in Hsent as [Hs Hr].
  destruct (String.eqb_spec method "OPTIONS") as [->|HnO].
  { eexists. split; [reflexivity|]. split; [apply Response.finished_text|].
    unfold Response.text, Response.send, Response.contentType,
      Response.setHeader, Response.status, Response.writeHeadersIfNeeded,
      Response.headersSent, Response.withRaw, Response.rawEnd. cbn.
    rewrite Hs, Hr. cbn. rewrite Hfin. cbn. split; [done|]. intros _.
    split; [|done]. apply lookup_union_Some_l.
    rewrite lookup_insert_ne by done. apply lookup_insert_eq. }
  destruct (String.eqb_spec method "TRACE") as [->|HnT].
  { destruct (Hrefuse "Method TRACE is not supported for security reasons")
      as (-> & ? & ?).
    eexists. by repeat split. }
  eexists. split; [reflexivity|]. split; [apply Response.finished_text|].
  rewrite bool_decide_false.
  2: { rewrite !elem_of_cons, elem_of_nil. naive_solver. }
  split; [|done].
  unfold unsupported.
  pose proof (Response.status_text_commits 501
                ("Method " +:+ method +:+ " is not supported") r) as Hc.
  unfold Response.headersSent, Response.finished in Hc.
  rewrite Hs, Hr in Hc. by destruct (Hc eq_refl Hfin) as (-> & _).
Qed.

Lemma service_inherited_answers_witness :
  ∃ r', service inheritsAll
          {| Request.method := "patch"; Request.path := "/servlet/api" |}
          Response.fresh = (Normal tt, r')
        ∧ Response.rawStatusCode (Response.raw r') = 501%Z.
Proof.
  destruct (service_inherited_answers
              {| Request.method := "patch"; Request.path := "/servlet/api" |}
              Response.fresh eq_refl eq_refl) as (r' & Hrun & _ & Hcode & _).
  exists r'. split; [exact Hrun|exact Hcode].
Defined.

End HttpServlet.

(** ** ServletContainer.ts: registration and lifecycle *)

From Stdlib Require Sorting.Sorted.

Module ContainerLifecycle.

Import ServletContainer.

(** *** Lookups in a [Map] *)

Lemma get_set_eq {V : Type} (key : string) (value : V) (m : JsMap.t V) :
  JsMap.get key (JsMap.set key value m) = Some value.
Proof.
  induction m as [|[k v] rest IH]; cbn; [by rewrite String.eqb_refl|].
  destruct (String.eqb k key) eqn:E; cbn; by rewrite E.
Qed.

Lemma get_set_ne {V : Type} (key other : string) (value : V) (m : JsMap.t V) :
  other ≠ key →
  JsMap.get other (JsMap.set key value m) = JsMap.get other m.
Proof.
  intros Hne. induction m as [|[k v] rest IH]; cbn.
  - by destruct (String.eqb_spec key other) as [->|].
  - destruct (String.eqb_spec k key) as [->|]; cbn.
    + by destruct (String.eqb_spec key other) as [->|].
    + destruct (String.eqb k other); [done|]. exact IH.
Qed.

Lemma get_delete_ne {V : Type} (key other : string) (m : JsMap.t V) :
  other ≠ key →
  JsMap.get other (JsMap.delete key m) = JsMap.get other m.
Proof.
  intros Hne. induction m as [|[k v] rest IH]; cbn; [done|].
  destruct (String.eqb_spec k key) as [->|]; cbn.
  - by destruct (String.eqb_spec key other) as [->|].
  - destruct (String.eqb k other); [done|]. exact IH.
Qed.

Lemma delete_absent {V : Type} (key : string) (m : JsMap.t V) :
  JsMap.get key m = None → JsMap.delete key m = m.
Proof.
  induction m as [|[k v] rest IH]; cbn; [done|].
  destruct (String.eqb k key); [done|]. intros H. by rewrite IH.
Qed.

Lemma delete_set_absent {V : Type} (key : string) (value : V) (m : JsMap.t V) :
  JsMap.get key m = None → JsMap.delete key (JsMap.set key value m) = m.
Proof.
  induction m as [|[k v] rest IH]; cbn; [by rewrite String.eqb_refl|].
  destruct (String.eqb k key) eqn:E; [done|]. cbn. rewrite E.
  intros H. by rewrite IH.
Qed.

Lemma has_get {V : Type} (key : string) (m : JsMap.t V) :
  JsMap.has key m = false ↔ JsMap.get key m = None.
Proof. unfold JsMap.has. by destruct (JsMap.get key m). Qed.

(** *** Registration *)

(** The mapping [registerServlet] creates. *)
Definition newMapping (pattern : string) (s : ServletRef) (cfg : ServletConfig)
    (priority : option Z) (at_ : Z) : ServletMapping := {|
  urlPattern := pattern; servlet := s; config := cfg;
  loadOnStartup := priority; createdAt := at_; lastAccessed := at_;
  requestCount := 0
|}.

(** X5. [registerServlet] refuses a pattern that is taken, and a servlet
    name that is taken, with a container exception; nothing is registered,
    no servlet code runs, and the world is as before. The pattern is
    checked first. *)
Theorem registerServlet_rejects_duplicates (hooks : Hooks) (pattern : string)
    (s : ServletRef) (cfg : ServletConfig) (priority : option Z) (w : World) :
  (JsMap.has pattern (servletMappings (container w)) = true →
   registerServlet hooks pattern s cfg priority w
   = (Throw (ServletContainerException
               ("Servlet already mapped to URL pattern: " +:+ pattern)), w))
  ∧ (JsMap.has pattern (servletMappings (container w)) = false →
     JsMap.has (servletName cfg) (servletsByName (container w)) = true →
     registerServlet hooks pattern s cfg priority w
     = (Throw (ServletContainerException
                 ("Servlet name already exists: " +:+ servletName cfg)), w)).
Proof.
  split.
  - intros Hp. eff. by rewrite Hp.
  - intros Hp Hn. eff. by rewrite Hp, Hn.
Qed.

Lemma registerServlet_rejects_duplicates_witness :
  registerServlet okHooks "/servlet/hello" 7 (named "Other") None worldHello
  = (Throw (ServletContainerException
              "Servlet already mapped to URL pattern: /servlet/hello"),
     worldHello)
  ∧ registerServlet okHooks "/other" 7 (named "HelloServlet") None worldHello
    = (Throw (ServletContainerException
                "Servlet name already exists: HelloServlet"), worldHello).
Proof.
  destruct (registerServlet_rejects_duplicates okHooks "/servlet/hello" 7
              (named "Other") None worldHello) as [Hpattern _].
  destruct (registerServlet_rejects_duplicates okHooks "/other" 7
              (named "HelloServlet") None worldHello) as [_ Hname].
  split; [exact (Hpattern eq_refl)|exact (Hname eq_refl eq_refl)].
Defined.

(** X6. A successful [registerServlet] can be looked up under its pattern
    and under its name. On a stopped container no servlet code runs. On a
    running container the servlet is initialized at once: its
    configuration is stored, and when its initialization throws,
    [registerServlet] throws a container exception that carries the error
    while the servlet stays registered. *)
Theorem registerServlet_registers (hooks : Hooks) (pattern : string)
    (s : ServletRef) (cfg : ServletConfig) (priority : option Z) (w : World) :
  JsMap.has pattern (servletMappings (container w)) = false →
  JsMap.has (servletName cfg) (servletsByName (container w)) = false →
  let r := registerServlet hooks pattern s cfg priority w in
  let mapping := newMapping pattern s cfg priority (now w) in
  JsMap.get pattern (servletMappings (container r.2)) = Some mapping
  ∧ JsMap.get (servletName cfg) (servletsByName (container r.2)) = Some mapping
  ∧ (isStarted (container w) = false →
     r.1 = Normal tt ∧ events r.2 = events w
     ∧ servletConfigs r.2 = servletConfigs w)
  ∧ (isStarted (container w) = true →
     servletConfigs r.2 !! s = Some cfg
     ∧ match onInit hooks s with
       | Normal _ =>
           r.1 = Normal tt ∧ events r.2 = events w ++ [Initialized s]
       | Throw e =>
           r.1 = Throw (ServletContainerExceptionCaused
                          ("Servlet initialization failed: "
                           +:+ servletName cfg) e)
           ∧ events r.2 = events w
       end).
Proof.
  intros Hp Hn. eff. rewrite Hp, Hn. fold (newMapping pattern s cfg priority (now w)).
  destruct (isStarted (container w)) eqn:Hstarted; cbn.
  - destruct (onInit hooks s) as [[]|e]; cbn;
      (split; [apply get_set_eq|]); (split; [apply get_set_eq|]);
      (split; [done|]); intros _; (split; [apply lookup_insert_eq|done]).
  - split; [apply get_set_eq|]. split; [apply get_set_eq|]. by split.
Qed.

Definition faultyInit : Hooks := {|
  onInit := λ _, Throw (plainError "no database");
  onDestroy := λ _, Normal tt;
  onService := λ _ _ r, (Normal tt, Response.text "ok" r)
|}.

Lemma registerServlet_registers_witness :
  let r := registerServlet faultyInit "/late" 5 (named "Late") None worldHello in
  r.1 = Throw (ServletContainerExceptionCaused
                 "Servlet initialization failed: Late"
                 (plainError "no database"))
  ∧ JsMap.has "/late" (servletMappings (container r.2)) = true.
Proof.
  destruct (registerServlet_registers faultyInit "/late" 5 (named "Late") None
              worldHello eq_refl eq_refl) as (Hget & _ & _ & Hrunning).
  destruct (Hrunning eq_refl) as [_ [Hthrow _]].
  split; [exact Hthrow|]. unfold JsMap.has. by rewrite Hget.
Defined.

(** X7. [unregisterServlet] of a pattern nobody is registered under throws a
    container exception and changes nothing. When the servlet is found and
    its [destroy] returns, the mapping is gone from both indexes, under its
    pattern and under its name, and the other entries are as before. *)
Theorem unregisterServlet_removes (hooks : Hooks) (pattern : string) (w : World) :
  (JsMap.get pattern (servletMappings (container w)) = None →
   unregisterServlet hooks pattern w
   = (Throw (ServletContainerException
               ("No servlet mapped to URL pattern: " +:+ pattern)), w))
  ∧ ∀ mapping,
      JsMap.get pattern (servletMappings (container w)) = Some mapping →
      onDestroy hooks (servlet mapping) = Normal tt →
      let r := unregisterServlet hooks pattern w in
      r.1 = Normal tt
      ∧ JsMap.get pattern (servletMappings (container r.2)) = None
      ∧ JsMap.get (servletName (config mapping))
          (servletsByName (container r.2)) = None
      ∧ (∀ other, other ≠ pattern →
           JsMap.get other (servletMappings (container r.2))
           = JsMap.get other (servletMappings (container w)))
      ∧ (∀ other, other ≠ servletName (config mapping) →
           JsMap.get other (servletsByName (container r.2))
           = JsMap.get other (servletsByName (container w)))
      ∧ events r.2 = events w ++ [Destroyed (servlet mapping)].
Proof.
  split.
  - intros Hget. eff. by rewrite Hget.
  - intros mapping Hget Hdestroy. eff. rewrite Hget. cbn. rewrite Hdestroy. cbn.
    split; [done|]. split; [apply get_delete|]. split; [apply get_delete|].
    split; [intros other Hne; by apply get_delete_ne|].
    split; [intros other Hne; by apply get_delete_ne|done].
Qed.

Lemma unregisterServlet_removes_witness :
  unregisterServlet okHooks "/nowhere" worldHello
  = (Throw (ServletContainerException
              "No servlet mapped to URL pattern: /nowhere"), worldHello)
  ∧ JsMap.get "HelloServlet"
      (servletsByName
         (container (unregisterServlet okHooks "/servlet/hello" worldHello).2))
    = None.
Proof.
  destruct (unregisterServlet_removes okHooks "/nowhere" worldHello)
    as [Hunknown _].
  destruct (unregisterServlet_removes okHooks "/servlet/hello" worldHello)
    as [_ Hknown].
  split; [exact (Hunknown eq_refl)|].
  destruct (JsMap.get "/servlet/hello" (servletMappings (container worldHello)))
    as [mapping|] eqn:Hget; [|discriminate Hget].
  destruct (Hknown mapping eq_refl eq_refl) as (_ & _ & Hname & _).
  injection Hget as <-. exact Hname.
Defined.

(** X8. Registering a servlet and unregistering it again (its [destroy]
    returns) gives back the container as it was: both indexes, the running
    flag and the counters. *)
Theorem register_unregister_round_trip (hooks hooks' : Hooks)
    (pattern : string) (s : ServletRef) (cfg : ServletConfig)
    (priority : option Z) (w : World) :
  JsMap.has pattern (servletMappings (container w)) = false →
  JsMap.has (servletName cfg) (servletsByName (container w)) = false →
  onDestroy hooks' s = Normal tt →
  let w1 := (registerServlet hooks pattern s cfg priority w).2 in
  let r := unregisterServlet hooks' pattern w1 in
  r.1 = Normal tt ∧ container r.2 = container w.
Proof.
  intros Hp Hn Hdestroy.
  assert (Hregistered :
    container (registerServlet hooks pattern s cfg priority w).2
    = withMappings
        (JsMap.set pattern (newMapping pattern s cfg priority (now w))
           (servletMappings (container w)))
        (JsMap.set (servletName cfg) (newMapping pattern s cfg priority (now w))
           (servletsByName (container w)))
        (container w)).
  { eff. rewrite Hp, Hn. cbn.
    destruct (isStarted (container w)); [|done].
    by destruct (onInit hooks s). }
  intros w1 r. subst r. fold w1 in Hregistered. clearbody w1.
  eff. rewrite Hregistered. cbn.
  rewrite get_set_eq. cbn. rewrite Hdestroy. cbn. rewrite Hregistered.
  split; [done|]. unfold withMappings. cbn.
  rewrite !delete_set_absent by by apply has_get.
  by destruct (container w).
Qed.

Lemma register_unregister_round_trip_witness :
  container
    (unregisterServlet okHooks "/tmp"
       (registerServlet okHooks "/tmp" 9 (named "Tmp") None worldHello).2).2
  = container worldHello.
Proof.
  exact (proj2 (register_unregister_round_trip okHooks okHooks "/tmp" 9
                  (named "Tmp") None worldHello eq_refl eq_refl eq_refl)).
Defined.

(** *** The order of the startup *)

Section SortByKey.

Context {A : Type} (key : A → Z).

Let byKey (a b : A) : Z := (key a - key b)%Z.

Lemma sortInsert_perm (x : A) (l : list A) : sortInsert byKey x l ≡ₚ x :: l.
Proof.
  induction l as [|y l IH]; cbn; [done|].
  destruct (byKey x y <=? 0)%Z; [done|].
  by rewrite IH, Permutation_swap.
Qed.

Lemma sort_perm (l : list A) : sort byKey l ≡ₚ l.
Proof.
  induction l as [|x l IH]; cbn; [done|]. by rewrite sortInsert_perm, IH.
Qed.

Lemma sortInsert_sorted (x : A) (l : list A) :
  Sorted.StronglySorted (λ a b, key a ≤ key b)%Z l →
  Sorted.StronglySorted (λ a b, key a ≤ key b)%Z (sortInsert byKey x l).
Proof.
  induction l as [|y l IH]; cbn; intros Hsorted.
  - repeat constructor.
  - pose proof (Sorted.StronglySorted_inv Hsorted) as [Hrest Hy].
    unfold byKey at 1.
    destruct (Z.leb_spec (key x - key y) 0).
    + constructor; [done|].
      constructor; [lia|]. eapply Forall_impl; [exact Hy|]. cbn. lia.
    + constructor; [by apply IH|].
      rewrite sortInsert_perm. constructor; [lia|done].
Qed.

Lemma sort_sorted (l : list A) :
  Sorted.StronglySorted (λ a b, key a ≤ key b)%Z (sort byKey l).
Proof.
  induction l as [|x l IH]; cbn; [constructor|]. by apply sortInsert_sorted.
Qed.

(** Items with the same key keep their order. *)
Lemma sortInsert_stable (k : Z) (x : A) (l : list A) :
  List.filter (λ a, key a =? k)%Z (sortInsert byKey x l)
  = List.filter (λ a, key a =? k)%Z (x :: l).
Proof.
  induction l as [|y l IH]; cbn; [done|]. unfold byKey at 1.
  destruct (Z.leb_spec (key x - key y) 0); [done|].
  cbn. rewrite IH. cbn.
  destruct (Z.eqb_spec (key x) k), (Z.eqb_spec (key y) k); try done. lia.
Qed.

Lemma sort_stable (k : Z) (l : list A) :
  List.filter (λ a, key a =? k)%Z (sort byKey l)
  = List.filter (λ a, key a =? k)%Z l.
Proof.
  induction l as [|x l IH]; cbn; [done|].
  rewrite sortInsert_stable. cbn. by rewrite IH.
Qed.

End SortByKey.

Definition eager (mapping : ServletMapping) : bool :=
  bool_decide (is_Some (loadOnStartup mapping)).

(** X9. The servlets [start] initializes are exactly the registered
    mappings that have a [loadOnStartup], in ascending order of it, and in
    the order of registration among those with the same value. *)
Theorem startupServlets_order (c : t) :
  startupServlets c
  ≡ₚ List.filter eager (JsMap.values (servletMappings c))
  ∧ Sorted.StronglySorted (λ a b, startupOrder a ≤ startupOrder b)%Z
      (startupServlets c)
  ∧ ∀ k,
      List.filter (λ m, startupOrder m =? k)%Z (startupServlets c)
      = List.filter (λ m, startupOrder m =? k)%Z
          (List.filter eager (JsMap.values (servletMappings c))).
Proof.
  unfold startupServlets. split; [apply (sort_perm startupOrder)|].
  split; [apply (sort_sorted startupOrder)|].
  intros k. apply (sort_stable startupOrder).
Qed.

(** The mappings [start] gets through before an initialization throws. *)
Fixpoint untilFailure (hooks : Hooks) (items : list ServletMapping)
  : list ServletMapping :=
  match items with
  | [] => []
  | mapping :: rest =>
      match onInit hooks (servlet mapping) with
      | Normal _ => mapping :: untilFailure hooks rest
      | Throw _ => []
      end
  end.

(** The first mapping whose initialization throws, and the error. *)
Fixpoint firstFailure (hooks : Hooks) (items : list ServletMapping)
  : option (ServletMapping * Error) :=
  match items with
  | [] => None
  | mapping :: rest =>
      match onInit hooks (servlet mapping) with
      | Normal _ => firstFailure hooks rest
      | Throw e => Some (mapping, e)
      end
  end.

Definition initializationFailed (mapping : ServletMapping) (e : Error) : Error :=
  ServletContainerExceptionCaused
    ("Servlet initialization failed: " +:+ servletName (config mapping)) e.

Lemma initializeServlet_exact (hooks : Hooks) (mapping : ServletMapping)
    (w : World) :
  let r := initializeServlet hooks mapping w in
  container r.2 = container w
  ∧ now r.2 = now w
  ∧ match onInit hooks (servlet mapping) with
    | Normal _ =>
        r.1 = Normal tt
        ∧ events r.2 = events w ++ [Initialized (servlet mapping)]
    | Throw e =>
        r.1 = Throw (initializationFailed mapping e) ∧ events r.2 = events w
    end.
Proof. eff. by destruct (onInit hooks (servlet mapping)) as [[]|e]. Qed.

Lemma forEach_initialize_exact (hooks : Hooks) (items : list ServletMapping)
    (w : World) :
  let r := forEach (initializeServlet hooks) items w in
  container r.2 = container w
  ∧ now r.2 = now w
  ∧ events r.2
    = events w ++ ((λ m, Initialized (servlet m)) <$> untilFailure hooks items)
  ∧ r.1 = match firstFailure hooks items with
          | None => Normal tt
          | Some (mapping, e) => Throw (initializationFailed mapping e)
          end.
Proof.
  revert w. induction items as [|mapping rest IH]; intros w; cbn.
  - by rewrite app_nil_r.
  - unfold mbind, Eff_bind.
    pose proof (initializeServlet_exact hooks mapping w) as (Hc & Hn & Hcases).
    destruct (initializeServlet hooks mapping w) as [c w1]; cbn in *.
    destruct (onInit hooks (servlet mapping)) as [[]|e];
      destruct Hcases as [-> He]; cbn.
    + destruct (IH w1) as (Hc' & Hn' & He' & Hr').
      rewrite Hc', Hn', He', He, <- app_assoc, Hc, Hn. done.
    + by rewrite app_nil_r.
Qed.

(** X10. [start] on a running container throws and changes nothing. On a
    stopped container it initializes the startup servlets in their order
    and stops at the first initialization that throws: either all of them
    are initialized and the container is running, or [start] throws a
    container exception that carries the error, the container is still
    stopped, and the servlets before the failing one stay initialized. The
    indexes are not touched. *)
Theorem start_all_or_nothing (hooks : Hooks) (w : World) :
  (isStarted (container w) = true →
   start hooks w
   = (Throw (ServletContainerException "Container is already started"), w))
  ∧ (isStarted (container w) = false →
     let r := start hooks w in
     let todo := startupServlets (container w) in
     servletMappings (container r.2) = servletMappings (container w)
     ∧ servletsByName (container r.2) = servletsByName (container w)
     ∧ events r.2
       = events w ++ ((λ m, Initialized (servlet m)) <$> untilFailure hooks todo)
     ∧ match firstFailure hooks todo with
       | None =>
           r.1 = Normal tt
           ∧ isStarted (container r.2) = true
           ∧ startedAt (container r.2) = Some (now w)
           ∧ untilFailure hooks todo = todo
       | Some (mapping, e) =>
           r.1 = Throw (ServletContainerExceptionCaused
                          "Container startup failed"
                          (initializationFailed mapping e))
           ∧ isStarted (container r.2) = false
           ∧ mapping ∈ todo
       end).
Proof.
  split.
  - intros Hstarted. unfold start, mbind, Eff_bind, getContainer. cbn.
    by rewrite Hstarted.
  - intros Hstopped.
    unfold start, mbind, Eff_bind, getContainer, tryCatch, throw, getNow,
      setContainer.
    cbn. rewrite Hstopped.
    pose proof (forEach_initialize_exact hooks (startupServlets (container w)) w)
      as (Hc & Hn & He & Hr).
    destruct (forEach (initializeServlet hooks) (startupServlets (container w)) w)
      as [c w1]; cbn in *. subst c.
    destruct (firstFailure hooks (startupServlets (container w)))
      as [[mapping e]|] eqn:Hfail; cbn.
    + rewrite Hc. split; [done|]. split; [done|]. split; [done|].
      split; [done|]. split; [done|].
      clear -Hfail. revert Hfail.
      generalize (startupServlets (container w)). intros items.
      induction items as [|m rest IH]; cbn; [done|].
      destruct (onInit hooks (servlet m)).
      * intros H. right. by apply IH.
      * intros [= -> _]. by left.
    + rewrite Hc, Hn. split; [done|]. split; [done|]. split; [done|].
      split; [done|]. split; [done|]. split; [done|].
      clear -Hfail. revert Hfail.
      generalize (startupServlets (container w)). intros items.
      induction items as [|m rest IH]; cbn; [done|].
      destruct (onInit hooks (servlet m)); [|done].
      intros H. by rewrite IH.
Qed.

(** A stopped container that holds servlet 1 with priority 2 and servlet 2
    with priority 1, registered in that order. *)
Definition twoEager : World :=
  ((registerServlet okHooks "/one" 1 (named "One") (Some 2%Z);;
    registerServlet okHooks "/two" 2 (named "Two") (Some 1%Z)) initialWorld).2.

(** Servlet 1 cannot be initialized. *)
Definition secondFails : Hooks := {|
  onInit := λ s, if Nat.eqb s 1 then Throw (plainError "no port") else Normal tt;
  onDestroy := λ _, Normal tt;
  onService := λ _ _ r, (Normal tt, Response.text "ok" r)
|}.

Lemma start_all_or_nothing_witness :
  let r := start secondFails twoEager in
  events r.2 = [Initialized 2]
  ∧ isStarted (container r.2) = false
  ∧ r.1 = Throw (ServletContainerExceptionCaused "Container startup failed"
                   (ServletContainerExceptionCaused
                      "Servlet initialization failed: One"
                      (plainError "no port"))).
Proof.
  destruct (start_all_or_nothing secondFails twoEager) as [_ Hstart].
  destruct (Hstart eq_refl) as (_ & _ & Hevents & Hresult).
  split; [exact Hevents|].
  destruct (firstFailure secondFails (startupServlets (container twoEager)))
    as [[mapping e]|] eqn:Hfail; [|discriminate Hfail].
  destruct Hresult as (Hthrow & Hstopped & _).
  split; [exact Hstopped|]. rewrite Hthrow. by injection Hfail as <- <-.
Defined.

(** *** Shutdown *)

(** [destroy] of the servlet of [mapping] returns. *)
Definition destroys (hooks : Hooks) (mapping : ServletMapping) : bool :=
  match onDestroy hooks (servlet mapping) with
  | Normal _ => true
  | Throw _ => false
  end.

Lemma destroyLogged_exact (hooks : Hooks) (mapping : ServletMapping)
    (w : World) :
  let r := destroyLogged hooks mapping w in
  r.1 = Normal tt
  ∧ container r.2 = container w
  ∧ servletConfigs r.2 = servletConfigs w
  ∧ response r.2 = response w
  ∧ now r.2 = now w
  ∧ events r.2
    = events w ++ (if destroys hooks mapping
                   then [Destroyed (servlet mapping)] else []).
Proof.
  unfold destroyLogged, destroys. eff.
  destruct (onDestroy hooks (servlet mapping)) as [[]|e]; cbn;
    by rewrite ?app_nil_r.
Qed.

Lemma forEach_destroy_exact (hooks : Hooks) (items : list ServletMapping)
    (w : World) :
  let r := forEach (destroyLogged hooks) items w in
  r.1 = Normal tt
  ∧ container r.2 = container w
  ∧ servletConfigs r.2 = servletConfigs w
  ∧ response r.2 = response w
  ∧ now r.2 = now w
  ∧ events r.2
    = events w
      ++ ((λ m, Destroyed (servlet m)) <$> List.filter (destroys hooks) items).
Proof.
  revert w. induction items as [|mapping rest IH]; intros w; cbn.
  - by rewrite app_nil_r.
  - unfold mbind, Eff_bind.
    pose proof (destroyLogged_exact hooks mapping w)
      as (Hr & Hc & Hs & Hp & Hn & He).
    destruct (destroyLogged hooks mapping w) as [c w1]; cbn in *. subst c.
    destruct (IH w1) as (Hr' & Hc' & Hs' & Hp' & Hn' & He').
    rewrite Hr', Hc', Hs', Hp', Hn', He', He, Hc, Hs, Hp, Hn, <- app_assoc.
    by destruct (destroys hooks mapping).
Qed.

(** X11. [stop] never throws. On a stopped container it does nothing. On a
    running container it calls [destroy] on the servlet of every registered
    mapping, in the order of registration, whether or not an earlier
    [destroy] threw; then the container is stopped with no start time. The
    registrations, the request counter, and the configuration each servlet
    holds are as before. *)
Theorem stop_destroys_every_servlet (hooks : Hooks) (w : World) :
  (isStarted (container w) = false → stop hooks w = (Normal tt, w))
  ∧ (isStarted (container w) = true →
     let r := stop hooks w in
     r.1 = Normal tt
     ∧ container r.2 = setStarted false None (container w)
     ∧ servletConfigs r.2 = servletConfigs w
     ∧ events r.2
       = events w
         ++ ((λ m, Destroyed (servlet m))
               <$> List.filter (destroys hooks)
                     (JsMap.values (servletMappings (container w))))).
Proof.
  split; intros Hstarted.
  - unfold stop, mbind, Eff_bind, getContainer. cbn. by rewrite Hstarted.
  - unfold stop, mbind, Eff_bind, getContainer, tryCatch, setContainer, throw.
    cbn. rewrite Hstarted. cbn.
    pose proof (forEach_destroy_exact hooks
                  (JsMap.values (servletMappings (container w))) w)
      as (Hr & Hc & Hs & Hp & Hn & He).
    destruct (forEach (destroyLogged hooks)
                (JsMap.values (servletMappings (container w))) w)
      as [c w1]; cbn in *. subst c. cbn. by rewrite Hc.
Qed.

(** Servlet 0 refuses to be destroyed. *)
Definition firstStubborn : Hooks := {|
  onInit := λ _, Normal tt;
  onDestroy := λ s, if Nat.eqb s 0 then Throw (plainError "busy") else Normal tt;
  onService := λ _ _ r, (Normal tt, Response.text "ok" r)
|}.

Lemma stop_destroys_every_servlet_witness :
  let r := stop firstStubborn worldAB in
  r.1 = Normal tt
  ∧ isStarted (container r.2) = false
  ∧ events r.2 = [Destroyed 1].
Proof.
  destruct (stop_destroys_every_servlet firstStubborn worldAB) as [_ Hstop].
  destruct (Hstop eq_refl) as (Hr & Hc & _ & He).
  split; [exact Hr|]. split; [by rewrite Hc|exact He].
Defined.

(** *** Failures behind a request *)





(** X13. A servlet whose first initialization, behind a request, throws is
    not initialized again: it holds its configuration from then on, so the
    next request under the same pattern calls [service] on it directly. *)
Theorem failed_lazy_init_not_retried (hooks hooks' : Hooks)
    (request request' : Request.t) (w : World) (mapping : ServletMapping)
    (e : Error) (time : Z) :
  isStarted (container w) = true →
  JsMap.get (Request.path request) (servletMappings (container w))
  = Some mapping →
  urlPattern mapping = Request.path request →
  Request.path request' = Request.path request →
  servletConfigs w !! servlet mapping = None →
  onInit hooks (servlet mapping) = Throw e →
  let w1 := (handleRequest hooks request w).2 in
  let w2 := (handleRequest hooks' request' (arrive time Response.fresh w1)).2 in
  events w1 = events w
  ∧ events w2 = events w ++ [Serviced (servlet mapping)].
Proof.
  intros Hstarted Hget Hpattern Hpath Hcfg Hinit w1 w2.
  pose proof (findMatchingServlet_exact _ _ _ Hget) as Hfind.
  assert (Hw1 : container w1
                = countRequest (storeMapping (touch (now w) mapping) (container w))
                ∧ events w1 = events w
                ∧ servletConfigs w1 !! servlet mapping = Some (config mapping)).
  { subst w1. eff. rewrite Hstarted, Hfind. cbn [negb touch servlet config].
    rewrite Hcfg, bool_decide_false by (by intros [? ?]). cbn.
    rewrite Hinit. cbn.
    destruct (Response.headersSent (response w)); cbn;
      by rewrite lookup_insert_eq. }
  destruct Hw1 as (Hc1 & He1 & Hcfg1). split; [done|].
  assert (Hfind' :
    findMatchingServlet (Request.path request')
      (servletMappings (container (arrive time Response.fresh w1)))
    = Some (touch (now w) mapping)).
  { apply findMatchingServlet_exact. cbn. rewrite Hc1. cbn.
    rewrite Hpath, Hpattern. apply get_set_eq. }
  destruct (handleRequest_dispatch hooks' request'
              (arrive time Response.fresh w1) (touch (now w) mapping))
    as (w' & Hrun & _ & Hevents); [by cbn; rewrite Hc1|done|].
  subst w2. rewrite Hrun. cbn. rewrite Hevents. cbn.
  unfold dispatchTrace. cbn. by rewrite Hcfg1, He1.
Qed.

(** Servlet 0 at [/a] cannot be initialized; the second request meets
    healthy code and is served without an initialization. *)
Definition getA : Request.t := {| Request.method := "GET"; Request.path := "/a" |}.

Lemma failed_lazy_init_not_retried_witness :
  let w1 := (handleRequest faultyInit getA worldAB).2 in
  let w2 := (handleRequest okHooks getA (arrive 7 Response.fresh w1)).2 in
  events w1 = [] ∧ events w2 = [Serviced 0].
Proof.
  destruct (JsMap.get "/a" (servletMappings (container worldAB)))
    as [mapping|] eqn:Hget; [|discriminate Hget].
  injection Hget as Hmapping.
  refine (failed_lazy_init_not_retried faultyInit okHooks getA getA worldAB
            _ (plainError "no database") 7 eq_refl eq_refl _ eq_refl _ _).
  - reflexivity.
  - reflexivity.
  - reflexivity.
Defined.

(** *** The two indexes *)

Lemma elem_of_get {V : Type} (key : string) (value : V) (m : JsMap.t V) :
  NoDup m.*1 → (key, value) ∈ m → JsMap.get key m = Some value.
Proof.
  induction m as [|[k v] rest IH]; cbn; [by intros _ ?%elem_of_nil|].
  intros [Hk Hrest]%NoDup_cons [[= -> ->]|Hin]%elem_of_cons.
  - by rewrite String.eqb_refl.
  - destruct (String.eqb_spec k key) as [->|]; [|by apply IH].
    destruct Hk. apply list_elem_of_fmap. by exists (key, value).
Qed.

Lemma get_delete_eq {V : Type} (key : string) (m : JsMap.t V) :
  JsMap.get key (JsMap.delete key m) = None.
Proof.
  induction m as [|[k v] rest IH]; cbn; [done|].
  destruct (String.eqb k key) eqn:E; [done|]. cbn. by rewrite E.
Qed.

Lemma NoDup_set {V : Type} (key : string) (value : V) (m : JsMap.t V) :
  NoDup m.*1 → NoDup (JsMap.set key value m).*1.
Proof.
  intros Hm. destruct (JsMap.get key m) as [v|] eqn:Hget.
  - assert ((JsMap.set key value m).*1 = m.*1) as ->; [|done].
    clear Hm. revert Hget. induction m as [|[k x] rest IH]; cbn; [done|].
    destruct (String.eqb k key); cbn; [done|]. intros H. by rewrite IH.
  - rewrite get_None_set by done. rewrite fmap_app. cbn.
    apply NoDup_app. split; [done|]. split; [|apply NoDup_singleton].
    intros k Hk ->%list_elem_of_singleton. by apply get_None_keys in Hget.
Qed.

Lemma NoDup_delete {V : Type} (key : string) (m : JsMap.t V) :
  NoDup m.*1 → NoDup (JsMap.delete key m).*1.
Proof.
  intros Hm. eapply sublist_NoDup; [exact Hm|].
  apply fmap_sublist, delete_sublist.
Qed.

(** Every mapping is filed under its own pattern in [servletMappings] and
    under its own name in [servletsByName], and the two maps hold the same
    mappings. *)
Record InSync (byPattern byName : JsMap.t ServletMapping) : Prop := {
  sync_patterns : NoDup byPattern.*1;
  sync_names : NoDup byName.*1;
  sync_byPattern :
    ∀ key m, JsMap.get key byPattern = Some m →
             urlPattern m = key
             ∧ JsMap.get (servletName (config m)) byName = Some m;
  sync_byName :
    ∀ name m, JsMap.get name byName = Some m →
              servletName (config m) = name
              ∧ JsMap.get (urlPattern m) byPattern = Some m
}.

Lemma InSync_set (byPattern byName : JsMap.t ServletMapping)
    (mapping : ServletMapping) :
  InSync byPattern byName →
  JsMap.get (urlPattern mapping) byPattern = None →
  JsMap.get (servletName (config mapping)) byName = None →
  InSync (JsMap.set (urlPattern mapping) mapping byPattern)
         (JsMap.set (servletName (config mapping)) mapping byName).
Proof.
  intros [Hp Hn HP HN] Hpattern Hname.
  split; [by apply NoDup_set|by apply NoDup_set|..].
  - intros key m. destruct (decide (key = urlPattern mapping)) as [->|Hne].
    + rewrite get_set_eq. intros [= <-]. split; [done|apply get_set_eq].
    + rewrite get_set_ne by done. intros Hget.
      destruct (HP _ _ Hget) as [Hkey Hback]. split; [done|].
      rewrite get_set_ne; [done|]. intros Heq. congruence.
  - intros name m.
    destruct (decide (name = servletName (config mapping))) as [->|Hne].
    + rewrite get_set_eq. intros [= <-]. split; [done|apply get_set_eq].
    + rewrite get_set_ne by done. intros Hget.
      destruct (HN _ _ Hget) as [Hkey Hback]. split; [done|].
      rewrite get_set_ne; [done|]. intros Heq. congruence.
Qed.

Lemma InSync_delete (byPattern byName : JsMap.t ServletMapping)
    (pattern : string) (mapping : ServletMapping) :
  InSync byPattern byName →
  JsMap.get pattern byPattern = Some mapping →
  InSync (JsMap.delete pattern byPattern)
         (JsMap.delete (servletName (config mapping)) byName).
Proof.
  intros [Hp Hn HP HN] Hget. destruct (HP _ _ Hget) as [Hpattern Hname].
  split; [by apply NoDup_delete|by apply NoDup_delete|..].
  - intros key m. destruct (decide (key = pattern)) as [->|Hne].
    { by rewrite get_delete_eq. }
    rewrite get_delete_ne by done. intros Hm.
    destruct (HP _ _ Hm) as [Hkey Hback]. split; [done|].
    rewrite get_delete_ne; [done|]. intros Heq. rewrite Heq in Hback.
    congruence.
  - intros name m.
    destruct (decide (name = servletName (config mapping))) as [->|Hne].
    { by rewrite get_delete_eq. }
    rewrite get_delete_ne by done. intros Hm.
    destruct (HN _ _ Hm) as [Hkey Hback]. split; [done|].
    rewrite get_delete_ne; [done|]. intros Heq. rewrite Heq in Hback.
    congruence.
Qed.

(** An assignment to a field of a registered mapping. *)
Lemma InSync_update (byPattern byName : JsMap.t ServletMapping)
    (mapping updated : ServletMapping) :
  InSync byPattern byName →
  JsMap.get (urlPattern mapping) byPattern = Some mapping →
  urlPattern updated = urlPattern mapping →
  config updated = config mapping →
  InSync (JsMap.set (urlPattern updated) updated byPattern)
         (JsMap.set (servletName (config updated)) updated byName).
Proof.
  intros [Hp Hn HP HN] Hget Hpattern Hconfig.
  destruct (HP _ _ Hget) as [_ Hname]. rewrite Hpattern, Hconfig.
  split; [by apply NoDup_set|by apply NoDup_set|..].
  - intros key m. destruct (decide (key = urlPattern mapping)) as [->|Hne].
    + rewrite get_set_eq. intros [= <-]. rewrite Hconfig.
      split; [done|apply get_set_eq].
    + rewrite get_set_ne by done. intros Hm.
      destruct (HP _ _ Hm) as [Hkey Hback]. split; [done|].
      rewrite get_set_ne; [done|]. intros Heq. rewrite Heq in Hback.
      congruence.
  - intros name m.
    destruct (decide (name = servletName (config mapping))) as [->|Hne].
    + rewrite get_set_eq. intros [= <-]. rewrite Hconfig, Hpattern.
      split; [done|apply get_set_eq].
    + rewrite get_set_ne by done. intros Hm.
      destruct (HN _ _ Hm) as [Hkey Hback]. split; [done|].
      rewrite get_set_ne; [done|]. intros Heq. rewrite Heq in Hback.
      congruence.
Qed.

Definition inSync (w : World) : Prop :=
  InSync (servletMappings (container w)) (servletsByName (container w)).

Lemma start_indexes (hooks : Hooks) (w : World) :
  let c := container (start hooks w).2 in
  servletMappings c = servletMappings (container w)
  ∧ servletsByName c = servletsByName (container w).
Proof.
  unfold start, mbind, Eff_bind, getContainer, tryCatch, throw, getNow,
    setContainer.
  cbn. destruct (isStarted (container w)); [done|].
  pose proof (forEach_initialize_exact hooks (startupServlets (container w)) w)
    as (Hc & _).
  destruct (forEach (initializeServlet hooks) (startupServlets (container w)) w)
    as [[[]|e] w1]; cbn in *; by rewrite Hc.
Qed.

Lemma stop_indexes (hooks : Hooks) (w : World) :
  let c := container (stop hooks w).2 in
  servletMappings c = servletMappings (container w)
  ∧ servletsByName c = servletsByName (container w).
Proof.
  unfold stop, mbind, Eff_bind, getContainer, tryCatch, setContainer, throw.
  cbn. destruct (isStarted (container w)); [|done]. cbn.
  pose proof (forEach_destroy_exact hooks
                (JsMap.values (servletMappings (container w))) w)
    as (Hr & Hc & _).
  destruct (forEach (destroyLogged hooks)
              (JsMap.values (servletMappings (container w))) w)
    as [c w1]; cbn in *. subst c. cbn. by rewrite Hc.
Qed.

Lemma registerServlet_indexes (hooks : Hooks) (pattern : string)
    (s : ServletRef) (cfg : ServletConfig) (priority : option Z) (w : World) :
  let c := container (registerServlet hooks pattern s cfg priority w).2 in
  let mapping := newMapping pattern s cfg priority (now w) in
  servletMappings c = servletMappings (container w)
  ∧ servletsByName c = servletsByName (container w)
  ∨ JsMap.get pattern (servletMappings (container w)) = None
    ∧ JsMap.get (servletName cfg) (servletsByName (container w)) = None
    ∧ servletMappings c = JsMap.set pattern mapping (servletMappings (container w))
    ∧ servletsByName c
      = JsMap.set (servletName cfg) mapping (servletsByName (container w)).
Proof.
  unfold registerServlet, mbind, Eff_bind, mret, Eff_ret, getContainer, getNow,
    setContainer, throw, JsMap.has, newMapping.
  cbn.
  destruct (JsMap.get pattern (servletMappings (container w))) eqn:Hpattern;
    [by left|].
  destruct (JsMap.get (servletName cfg) (servletsByName (container w)))
    eqn:Hname; [by left|].
  cbn. right.
  destruct (isStarted (container w)); [|done].
  match goal with |- context [initializeServlet hooks ?m ?w1] =>
    pose proof (initializeServlet_exact hooks m w1) as (Hc & _);
    destruct (initializeServlet hooks m w1) as [c w2] end.
  cbn in *. by rewrite Hc.
Qed.

Lemma unregisterServlet_indexes (hooks : Hooks) (pattern : string) (w : World) :
  let c := container (unregisterServlet hooks pattern w).2 in
  servletMappings c = servletMappings (container w)
  ∧ servletsByName c = servletsByName (container w)
  ∨ ∃ mapping,
      JsMap.get pattern (servletMappings (container w)) = Some mapping
      ∧ servletMappings c = JsMap.delete pattern (servletMappings (container w))
      ∧ servletsByName c
        = JsMap.delete (servletName (config mapping))
            (servletsByName (container w)).
Proof.
  eff. destruct (JsMap.get pattern (servletMappings (container w)))
    as [mapping|] eqn:Hget; cbn; [|by left].
  destruct (onDestroy hooks (servlet mapping)) as [[]|e]; cbn; [|by left].
  right. by exists mapping.
Qed.

Lemma handleRequest_indexes (hooks : Hooks) (request : Request.t) (w : World) :
  let c := container (handleRequest hooks request w).2 in
  servletMappings c = servletMappings (container w)
  ∧ servletsByName c = servletsByName (container w)
  ∨ ∃ key mapping,
      (key, mapping) ∈ servletMappings (container w)
      ∧ c = countRequest
              (storeMapping (touch (now w) mapping) (container w)).
Proof.
  cbn. destruct (isStarted (container w)) eqn:Hstarted.
  2: { left. by rewrite handleRequest_stopped. }
  pose proof (findMatchingServlet_spec (Request.path request)
                (servletMappings (container w))) as Hspec.
  destruct (findMatchingServlet (Request.path request)
              (servletMappings (container w))) as [mapping|] eqn:Hfind.
  - destruct Hspec as (key & Hin & _).
    destruct (handleRequest_dispatch hooks request w mapping Hstarted Hfind)
      as (w' & Hrun & Hc & _).
    right. exists key, mapping. by rewrite Hrun.
  - left. by rewrite handleRequest_unmatched.
Qed.

Lemma step_inSync (w : World) (call : Call) : inSync w → inSync (step w call).
Proof.
  unfold inSync, step. intros Hsync.
  set (w0 := arrive (time call) (response w) w).
  destruct (op call) as [| |pattern s cfg priority|pattern|request].
  - destruct (start_indexes (hooks call) w0) as [-> ->]. exact Hsync.
  - destruct (stop_indexes (hooks call) w0) as [-> ->]. exact Hsync.
  - destruct (registerServlet_indexes (hooks call) pattern s cfg priority w0)
      as [[-> ->]|(Hpattern & Hname & -> & ->)]; [exact Hsync|].
    by apply (InSync_set _ _ (newMapping pattern s cfg priority (now w0))).
  - destruct (unregisterServlet_indexes (hooks call) pattern w0)
      as [[-> ->]|(mapping & Hget & -> & ->)]; [exact Hsync|].
    by apply InSync_delete.
  - destruct (handleRequest_indexes (hooks call) request
                (arrive (time call) Response.fresh w))
      as [[-> ->]|(key & mapping & Hin & ->)]; [exact Hsync|].
    cbn in *. apply elem_of_get in Hin; [|apply Hsync].
    destruct (sync_byPattern _ _ Hsync _ _ Hin) as [<- _].
    by apply (InSync_update _ _ mapping (touch (time call) mapping)).
Qed.

Lemma run_inSync (calls : list Call) (w : World) :
  inSync w → inSync (run calls w).
Proof.
  revert w. induction calls as [|call rest IH]; intros w Hsync; [done|].
  cbn. apply IH. by apply step_inSync.
Qed.

Lemma InSync_values (byPattern byName : JsMap.t ServletMapping) :
  InSync byPattern byName → JsMap.values byPattern ≡ₚ JsMap.values byName.
Proof.
  intros [Hp Hn HP HN]. unfold JsMap.values.
  assert (Hkeys : ∀ (key : ServletMapping → string) (m : JsMap.t ServletMapping),
    NoDup m.*1 → (∀ k v, JsMap.get k m = Some v → key v = k) → NoDup m.*2).
  { intros key m Hm Hkey. apply (NoDup_fmap_1 key).
    assert (key <$> m.*2 = m.*1) as ->; [|done].
    induction m as [|[k v] rest IH]; cbn; [done|].
    apply NoDup_cons in Hm as [Hk Hrest]. f_equal.
    - apply Hkey. cbn. by rewrite String.eqb_refl.
    - apply IH; [done|]. intros k' v' Hget. apply Hkey. cbn.
      destruct (String.eqb_spec k k') as [->|]; [|done].
      destruct Hk. apply get_elem_of in Hget.
      apply list_elem_of_fmap. by exists (k', v'). }
  apply NoDup_Permutation.
  - apply (Hkeys urlPattern); [done|]. intros k v Hget. by apply HP.
  - apply (Hkeys (λ v, servletName (config v))); [done|].
    intros k v Hget. by apply HN.
  - intros m. rewrite !list_elem_of_fmap. split.
    + intros ([k v] & -> & Hin). cbn.
      apply elem_of_get in Hin; [|done]. destruct (HP _ _ Hin) as [_ Hback].
      exists (servletName (config v), v). split; [done|by apply get_elem_of].
    + intros ([k v] & -> & Hin). cbn.
      apply elem_of_get in Hin; [|done]. destruct (HN _ _ Hin) as [_ Hback].
      exists (urlPattern v, v). split; [done|by apply get_elem_of].
Qed.

(** X14. After any sequence of calls on a new container, whatever the
    servlets do, the index by pattern and the index by name hold the same
    mappings, with the same counters: a mapping is found under a name
    exactly when it has that name and is found under its own pattern, every
    mapping is filed under the pattern it records, no pattern and no name is
    filed twice, and the mappings of the two indexes are the same up to
    their order. *)
Theorem indexes_agree (calls : list Call) :
  let c := container (run calls initialWorld) in
  (∀ name m,
     JsMap.get name (servletsByName c) = Some m
     ↔ servletName (config m) = name
       ∧ JsMap.get (urlPattern m) (servletMappings c) = Some m)
  ∧ (∀ key m, (key, m) ∈ servletMappings c → urlPattern m = key)
  ∧ NoDup (servletMappings c).*1
  ∧ NoDup (servletsByName c).*1
  ∧ JsMap.values (servletMappings c) ≡ₚ JsMap.values (servletsByName c).
Proof.
  assert (Hsync : inSync (run calls initialWorld)).
  { apply run_inSync. split; cbn; try constructor; done. }
  cbn. split; [|split; [|split; [|split]]].
  - intros name m. split; [apply Hsync|].
    intros [<- Hget]. by apply (sync_byPattern _ _ Hsync) in Hget as [_ ?].
  - intros key m Hin. apply elem_of_get in Hin; [|apply Hsync].
    by apply (sync_byPattern _ _ Hsync) in Hin as [? _].
  - apply Hsync.
  - apply Hsync.
  - by apply InSync_values.
Qed.

End ContainerLifecycle.

(** ** Route.ts: the paths a template accepts *)

Module RouteMatching.

Import Route.

(** A text without parameters: no syntax character of the pattern language
    and no colon. *)
Fixpoint staticText (s : string) : bool :=
  match s with
  | EmptyString => true
  | String c s' =>
      negb (RegExp.isSyntaxChar c) && negb (Ascii.eqb c ":") && staticText s'
  end.

(** The pattern that reads a text character by character. *)
Fixpoint literal (s : string) : RegExp.t :=
  match s with
  | EmptyString => []
  | String c s' => RegExp.Char c :: literal s'
  end.

Lemma append_nil_r (s : string) : s +:+ "" = s.
Proof.
  induction s as [|c s IH]; [done|]. by rewrite JsString.app_cons, IH.
Qed.

Lemma staticText_cons (c : ascii) (s : string) :
  staticText (String c s) = true →
  RegExp.isSyntaxChar c = false ∧ Ascii.eqb c ":" = false
  ∧ staticText s = true.
Proof.
  cbn [staticText]. intros [[Hc Hcolon]%andb_true_iff Hs]%andb_true_iff.
  by apply negb_true_iff in Hc, Hcolon.
Qed.

Lemma escapeSlashes_app (a b : string) :
  escapeSlashes (a +:+ b) = escapeSlashes a +:+ escapeSlashes b.
Proof.
  induction a as [|c a IH]; [done|]. rewrite JsString.app_cons.
  cbn [escapeSlashes]. destruct (Ascii.eqb c "/");
    by rewrite ?JsString.app_cons, IH.
Qed.

(** A text without separator is its own escaped form, and the greedy run
    at its head is the whole text. *)
Lemma noSlash_fixed (s : string) :
  JsString.includes s "/" = false → escapeSlashes s = s ∧ nameRun s = s.
Proof.
  induction s as [|c s IH]; [done|]. rewrite JsString.includes_char.
  intros [Hc Hs]%orb_false_elim. destruct (IH Hs) as [He Hn].
  cbn [escapeSlashes nameRun].
  destruct (Ascii.eqb_spec c "/") as [->|_]; [done|]. by rewrite He, Hn.
Qed.

Lemma replaceParams_keep (c : ascii) (s : string) :
  Ascii.eqb c ":" = false →
  replaceParams (String c s) 0
  = ((String c) (replaceParams s 0).1, (replaceParams s 0).2).
Proof.
  intros Hc. cbn [replaceParams]. rewrite Hc. by destruct (replaceParams s 0).
Qed.

Lemma replaceParams_static (s rest : string) :
  staticText s = true →
  replaceParams (escapeSlashes s +:+ rest) 0
  = (escapeSlashes s +:+ (replaceParams rest 0).1, (replaceParams rest 0).2).
Proof.
  induction s as [|c s IH]; intros Hs.
  - cbn [escapeSlashes]. rewrite !JsString.app_nil_l.
    by destruct (replaceParams rest 0).
  - apply staticText_cons in Hs as (_ & Hcolon & Hs). cbn [escapeSlashes].
    destruct (Ascii.eqb_spec c "/") as [->|_].
    + rewrite !JsString.app_cons.
      rewrite (replaceParams_keep "\") by reflexivity.
      rewrite (replaceParams_keep "/") by reflexivity.
      by rewrite IH.
    + rewrite !JsString.app_cons. rewrite replaceParams_keep by done.
      by rewrite IH.
Qed.

Lemma replaceParams_skip (s : string) :
  replaceParams s (String.length s) = (EmptyString, []).
Proof. induction s as [|c s IH]; [done|]. exact IH. Qed.

Lemma replaceParams_param (name : string) :
  name ≠ EmptyString → nameRun name = name →
  replaceParams (String ":" name) 0 = (captureSource, [name]).
Proof.
  intros Hname Hrun. cbn [replaceParams]. rewrite Ascii.eqb_refl, Hrun.
  destruct name as [|c name]; [done|]. by rewrite replaceParams_skip.
Qed.

Lemma parsesAs_literal (s rest : string) (body : RegExp.t) :
  staticText s = true → parsesAs rest body →
  parsesAs (escapeSlashes s +:+ rest) (literal s ++ body).
Proof.
  intros Hs Hrest. induction s as [|c s IH]; [done|].
  apply staticText_cons in Hs as (Hc & _ & Hs). cbn [escapeSlashes literal].
  destruct (Ascii.eqb_spec c "/") as [->|_].
  - rewrite !JsString.app_cons. apply parsesAs_slash. by apply IH.
  - rewrite JsString.app_cons. apply parsesAs_char; [done|]. by apply IH.
Qed.

(** The compiled form of a template made of a static text and of what
    [rest] compiles to. *)
Lemma createPattern_static (prefix rest out : string) (names : list string)
    (body : RegExp.t) :
  staticText prefix = true →
  replaceParams rest 0 = (out, names) → parsesAs out body →
  escapeSlashes (prefix +:+ rest) = escapeSlashes prefix +:+ rest →
  createPattern (prefix +:+ rest)
  = Some (RegExp.Start :: literal prefix ++ body ++ [RegExp.End_], names).
Proof.
  intros Hprefix Hrest Hbody Hescape. unfold createPattern.
  rewrite Hescape, replaceParams_static, Hrest by done. cbn [fst snd].
  unfold RegExp.parse. rewrite JsString.app_cons, JsString.app_nil_l.
  rewrite RegExp.parseFrom_start.
  rewrite (parsesAs_literal prefix out body Hprefix Hbody "$").
  rewrite RegExp.parseFrom_end. cbn. by rewrite <- app_assoc.
Qed.

Lemma run_literal_end (text : string) (atStart : bool) (path : string) :
  RegExp.run (literal text ++ [RegExp.End_]) atStart path
  = if String.eqb path text then Some (path, []) else None.
Proof.
  revert atStart path. induction text as [|c text IH]; intros atStart path.
  - by destruct path.
  - destruct path as [|d path]; [done|]. cbn [literal app RegExp.run String.eqb].
    rewrite IH. destruct (Ascii.eqb_spec c d) as [->|Hne].
    + rewrite Ascii.eqb_refl. by destruct (String.eqb path text).
    + destruct (Ascii.eqb_spec d c) as [->|_]; done.
Qed.

(** The capture in front of the end of the pattern takes a whole final
    segment. *)
Lemma segment_all (value : string) :
  RegExp.goodCapture value →
  RegExp.segment (RegExp.run [RegExp.End_] false) value
  = Some (value, (EmptyString, [])).
Proof.
  intros [Hne Hslash]. induction value as [|d value IH]; [done|].
  rewrite JsString.includes_char in Hslash.
  apply orb_false_elim in Hslash as [Hd Hslash].
  cbn [RegExp.segment]. destruct (Ascii.eqb_spec d "/") as [->|_]; [done|].
  destruct value as [|e value]; [done|]. by rewrite IH.
Qed.

Lemma run_literal_segment (prefix : string) (atStart : bool) (path matched : string)
    (captures : list string) :
  RegExp.run (literal prefix ++ [RegExp.Segment; RegExp.End_]) atStart path
  = Some (matched, captures)
  ↔ ∃ value,
      path = prefix +:+ value ∧ RegExp.goodCapture value
      ∧ matched = path ∧ captures = [value].
Proof.
  revert atStart path matched captures.
  induction prefix as [|c prefix IH]; intros atStart path matched captures.
  - cbn [literal app RegExp.run]. split.
    + destruct (RegExp.segment _ path) as [[capture [m cs]]|] eqn:Hseg; [|done].
      intros [= <- <-].
      apply RegExp.segment_inv in Hseg as (rest & -> & Hend & Hgood).
      destruct rest; [|done]. injection Hend as <- <-.
      exists capture. by rewrite append_nil_r.
    + intros (value & -> & Hgood & -> & ->). rewrite JsString.app_nil_l.
      rewrite segment_all by done. by rewrite append_nil_r.
  - cbn [literal app RegExp.run]. destruct path as [|d path].
    { split; [done|]. by intros (value & [=] & _). }
    destruct (Ascii.eqb_spec c d) as [->|Hne].
    + destruct (RegExp.run _ false path) as [[m cs]|] eqn:Hrun.
      * apply IH in Hrun as (value & -> & Hgood & -> & ->). split.
        -- intros [= <- <-]. by exists value.
        -- intros (value' & Heq & _ & -> & ->).
           rewrite JsString.app_cons in Heq. injection Heq as Heq.
           f_equal. f_equal. f_equal.
           apply JsString.app_inj_suffix in Heq as [_ ?]; [done|].
           apply (f_equal String.length) in Heq.
           rewrite !JsString.length_app in Heq. lia.
      * split; [done|]. intros (value & Heq & Hgood & -> & ->).
        rewrite JsString.app_cons in Heq. injection Heq as ->.
        assert (RegExp.run (literal prefix ++ [RegExp.Segment; RegExp.End_])
                  false (prefix +:+ value)
                = Some (prefix +:+ value, [value])) as Hsome.
        { apply IH. by exists value. }
        congruence.
    + split; [done|]. intros (value & Heq & _).
      rewrite JsString.app_cons in Heq. by injection Heq as -> _.
Qed.

(** X15. A template without parameters compiles to a route with no
    parameter names that accepts its own text and nothing else, with an
    empty parameter record: no prefix, no longer path, and no path that
    differs in the case of a letter or in a trailing separator. *)
Theorem static_route_matches_itself (method : HttpMethod) (template : string)
    (handler : RouteHandler) :
  staticText template = true →
  ∃ route,
    new method template handler = Some route
    ∧ paramNames route = []
    ∧ ∀ candidate,
        match_ route candidate
        = if String.eqb candidate template then Some ∅ else None.
Proof.
  intros Hstatic.
  pose proof (createPattern_static template "" "" [] [] Hstatic eq_refl
                parsesAs_nil) as Hcreate.
  rewrite escapeSlashes_app in Hcreate. specialize (Hcreate eq_refl).
  rewrite append_nil_r in Hcreate. unfold new. rewrite Hcreate.
  eexists. split; [reflexivity|]. split; [done|].
  intros candidate. unfold match_. cbn [pattern paramNames].
  rewrite RegExp.exec_anchored_start, run_literal_end.
  by destruct (String.eqb candidate template).
Qed.

Lemma static_route_matches_itself_witness :
  ∃ route,
    new GET "/api/health" idleHandler = Some route
    ∧ match_ route "/api/health" = Some ∅
    ∧ match_ route "/api/health/" = None
    ∧ match_ route "/api/Health" = None
    ∧ match_ route "/api" = None.
Proof.
  destruct (static_route_matches_itself GET "/api/health" idleHandler eq_refl)
    as (route & Hnew & _ & Hmatch).
  exists route. split; [exact Hnew|]. by rewrite !Hmatch.
Defined.

(** X16. A template that ends with one parameter, after a text without
    parameters, accepts exactly the paths made of that text and one more
    non-empty segment without separator, and binds the parameter to that
    segment. The name is everything after the colon; it may hold any
    character but the separator, and [__proto__] is left aside. *)
Theorem trailing_parameter_round_trip (method : HttpMethod)
    (prefix name : string) (handler : RouteHandler) :
  staticText prefix = true →
  RegExp.goodCapture name →
  name ≠ "__proto__" →
  ∃ route,
    new method (prefix +:+ String ":" name) handler = Some route
    ∧ paramNames route = [name]
    ∧ ∀ candidate params,
        match_ route candidate = Some params
        ↔ ∃ value,
            candidate = prefix +:+ value
            ∧ RegExp.goodCapture value
            ∧ params = {[ name := str value ]}.
Proof.
  intros Hstatic [Hname Hslash] Hproto.
  destruct (noSlash_fixed name Hslash) as [Hescape Hrun].
  pose proof (createPattern_static prefix (String ":" name) captureSource
                [name] [RegExp.Segment] Hstatic
                (replaceParams_param name Hname Hrun)) as Hcreate.
  rewrite escapeSlashes_app in Hcreate. cbn [escapeSlashes] in Hcreate.
  change (Ascii.eqb ":" "/") with false in Hcreate. cbv iota in Hcreate.
  rewrite Hescape in Hcreate.
  specialize (Hcreate (parsesAs_capture "" [] parsesAs_nil) eq_refl).
  unfold new. rewrite Hcreate. eexists. split; [reflexivity|]. split; [done|].
  intros candidate params. unfold match_. cbn [pattern paramNames].
  rewrite RegExp.exec_anchored_start. cbn [app].
  destruct (RegExp.run (literal prefix ++ [RegExp.Segment; RegExp.End_]) true
              candidate) as [[matched captures]|] eqn:Hrun'.
  - apply run_literal_segment in Hrun' as (value & -> & Hgood & -> & ->).
    cbn [assignParams]. unfold recordSet, matchesAt. cbn.
    destruct (String.eqb_spec name "__proto__") as [|_]; [done|].
    rewrite insert_empty. split.
    + intros [= <-]. by exists value.
    + intros (value' & Heq & _ & ->).
      assert (value' = value) as ->; [|done].
      apply JsString.app_inj_suffix in Heq as [_ ?]; [done|].
      apply (f_equal String.length) in Heq.
      rewrite !JsString.length_app in Heq. lia.
  - split; [done|]. intros (value & -> & Hgood & _).
    assert (RegExp.run (literal prefix ++ [RegExp.Segment; RegExp.End_]) true
              (prefix +:+ value) = Some (prefix +:+ value, [value])) as Hsome.
    { apply run_literal_segment. by exists value. }
    congruence.
Qed.

Lemma trailing_parameter_round_trip_witness :
  ∃ route,
    new GET "/users/:id" idleHandler = Some route
    ∧ match_ route "/users/42" = Some {[ "id" := str "42" ]}.
Proof.
  destruct (trailing_parameter_round_trip GET "/users/" "id" idleHandler)
    as (route & Hnew & _ & Hmatch).
  - reflexivity.
  - split; [discriminate|reflexivity].
  - discriminate.
  - exists route. split; [exact Hnew|]. apply Hmatch.
    exists "42". split; [reflexivity|]. split; [|reflexivity].
    split; [discriminate|reflexivity].
Defined.

End RouteMatching.

(** ** Router.ts: the middleware chain and the registration helpers *)

Module RouterChain.

(** The completion and the response of the routing step on a response. *)
Definition routed (router : Router.t) (request : Request.t) (r : Response.t)
  : Completion unit * Response.t :=
  let out := Router.executeRouting router request (Router.initialWorld r) in
  (out.1, Router.response out.2).

Arguments routed : simpl never.

(** The errors nobody is left to handle. *)
Definition lost (c : Completion unit) : list Error :=
  match c with
  | Normal _ => []
  | Throw e => [e]
  end.

(** The closure [handle] appends to the chain. *)
Definition routingStep (router : Router.t) (completed : nat)
  : Router.MiddlewareHandler :=
  λ req _,
    Router.executeRouting router req;;
    Router.writeCell completed true.

Ltac chain :=
  unfold Router.newCell, Router.readCell, Router.writeCell, Router.onResponse,
    Router.responseFinished, Router.consoleError, Router.detach, tryCatch,
    throw, mbind, mret, Eff_bind, Eff_ret;
  cbn [Router.response Router.cells Router.unhandled Router.console fst snd].

(** Routing reads and writes the response only. *)
Lemma executeRouting_response (router : Router.t) (request : Request.t)
    (w : Router.World) :
  Router.executeRouting router request w
  = ((routed router request (Router.response w)).1,
     {| Router.response := (routed router request (Router.response w)).2;
        Router.cells := Router.cells w;
        Router.unhandled := Router.unhandled w;
        Router.console := Router.console w |}).
Proof.
  unfold routed, Router.executeRouting.
  destruct (Router.findRoute _ _ router) as [[route params]|].
  - unfold Router.callHandler. cbn.
    by destruct (Route.handler route request (Router.response w) (Some params)).
  - done.
Qed.

Lemma runChain_routing (router : Router.t) (request : Request.t)
    (completed : nat) (w : Router.World) :
  let out := routed router request (Router.response w) in
  ∃ w',
    Router.runChain request [routingStep router completed] w = (out.1, w')
    ∧ Router.response w' = out.2
    ∧ Router.unhandled w' = Router.unhandled w
    ∧ Router.console w' = Router.console w
    ∧ ∀ i, Router.cells w !! i = Some true → Router.cells w' !! i = Some true.
Proof.
  assert (Hkeep : ∀ i, Router.cells w !! i = Some true →
                       (Router.cells w ++ [false]) !! i = Some true).
  { intros i Hi. by apply lookup_app_l_Some. }
  assert (Hset : ∀ i, Router.cells w !! i = Some true →
            <[completed:=true]> (Router.cells w ++ [false]) !! i = Some true).
  { intros i Hi. destruct (decide (completed = i)) as [->|Hne].
    - apply list_lookup_insert_eq. apply lookup_lt_Some in Hi.
      rewrite length_app. lia.
    - rewrite list_lookup_insert_ne by done. by apply Hkeep. }
  intros out. cbn [Router.runChain]. unfold routingStep. chain.
  rewrite executeRouting_response.
  cbn [Router.response Router.cells Router.unhandled Router.console].
  fold out. clearbody out. destruct out as [[[]|e] r]; cbn.
  - match goal with |- context [if ?b then _ else _] => destruct b end;
      by eexists.
  - by eexists.
Qed.

(** A middleware that changes the response and hands over. *)
Definition tap (f : Request.t → Response.t → Response.t)
  : Router.MiddlewareHandler :=
  λ request next, Router.onResponse (f request);; next.

(** A middleware that answers and does not call [next]. *)
Definition answer (g : Request.t → Response.t → Response.t)
  : Router.MiddlewareHandler :=
  λ request _, Router.onResponse (g request).

(** A middleware that calls [next] twice. *)
Definition twice : Router.MiddlewareHandler := λ _ next, next;; next.

(** The response after the middlewares [tap f], for [f] in [fs], in this
    order. *)
Definition through (request : Request.t)
    (fs : list (Request.t → Response.t → Response.t)) (r : Response.t)
  : Response.t :=
  foldl (λ r f, f request r) r fs.

(** What [next] makes of the rest of the chain: its error is dropped. *)
Definition dropped (out : Completion unit * Router.World) : Router.World :=
  {| Router.response := Router.response out.2;
     Router.cells := Router.cells out.2;
     Router.unhandled := Router.unhandled out.2 ++ lost out.1;
     Router.console := Router.console out.2 |}.

Lemma runChain_taps (request : Request.t)
    (fs : list (Request.t → Response.t → Response.t))
    (rest : list Router.MiddlewareHandler) (w : Router.World) :
  fs ≠ [] →
  ∃ cells',
    Router.runChain request ((tap <$> fs) ++ rest) w
    = (Normal tt,
       dropped
         (Router.runChain request rest
            {| Router.response := through request fs (Router.response w);
               Router.cells := cells';
               Router.unhandled := Router.unhandled w;
               Router.console := Router.console w |})).
Proof.
  revert w. induction fs as [|f fs IH]; intros w Hfs; [done|clear Hfs].
  destruct fs as [|f' fs].
  - cbn [fmap list_fmap app Router.runChain through foldl].
    unfold tap at 1. chain.
    rewrite lookup_app_r by done. rewrite Nat.sub_diag. cbn.
    exists (<[length (Router.cells w):=true]> (Router.cells w ++ [false])).
    match goal with |- context [Router.runChain request rest ?w1] =>
      destruct (Router.runChain request rest w1) as [[[]|e] w2] eqn:Hrest end.
    + unfold dropped. cbn.
      match goal with |- context [if ?b then _ else _] => destruct b end;
        rewrite app_nil_r; by destruct w2.
    + unfold dropped. cbn.
      match goal with |- context [if ?b then _ else _] => destruct b end; done.
  -     change ((tap <$> f :: f' :: fs) ++ rest)
      with (tap f :: ((tap <$> f' :: fs) ++ rest)).
    change (through request (f :: f' :: fs) (Router.response w))
      with (through request (f' :: fs) (f request (Router.response w))).
    remember ((tap <$> f' :: fs) ++ rest) as tail eqn:Htail.
    cbn [Router.runChain]. unfold tap at 1. chain.
    rewrite lookup_app_r by done. rewrite Nat.sub_diag. cbn.
    match goal with |- context [Router.runChain request tail ?w1] =>
      destruct (IH w1) as [cells' Hrun]; [done|]; rewrite Hrun end.
    cbn. exists cells'.
    match goal with |- context [if ?b then _ else _] => destruct b end; done.
Qed.

(** The world after the [catch] of [handle]. *)
Definition caught (out : Completion unit * Router.World) : Router.World :=
  match out.1 with
  | Normal _ => out.2
  | Throw e =>
      {| Router.response := Router.afterCatch (Router.response out.2);
         Router.cells := Router.cells out.2;
         Router.unhandled := Router.unhandled out.2;
         Router.console :=
           Router.console out.2 ++ ["Router error: " +:+ errorMessage e] |}
  end.

Lemma handle_chain (router : Router.t) (request : Request.t)
    (w : Router.World) :
  Router.middlewares router ≠ [] →
  Router.handle router request w
  = (Normal tt,
     caught
       (Router.runChain request
          (Router.middlewares router
           ++ [routingStep router (length (Router.cells w))])
          {| Router.response := Router.response w;
             Router.cells := Router.cells w ++ [false];
             Router.unhandled := Router.unhandled w;
             Router.console := Router.console w |})).
Proof.
  intros Hsome. unfold Router.handle, Router.executeMiddlewares.
  destruct (Router.middlewares router) as [|m ms] eqn:Hms; [done|].
  cbn [length Nat.ltb Nat.leb]. unfold routingStep, caught. chain.
  rewrite drop_0.
  match goal with |- context [Router.runChain request ?chain ?w1] =>
    destruct (Router.runChain request chain w1) as [[[]|e] w2] end; cbn.
  - match goal with |- context [if ?b then _ else _] => destruct b end; done.
  - unfold Router.afterCatch. by destruct (Response.finished (Router.response w2)).
Qed.

Lemma runChain_answer (request : Request.t)
    (g : Request.t → Response.t → Response.t)
    (later : list Router.MiddlewareHandler) (w : Router.World) :
  Router.runChain request (answer g :: later) w
  = (Normal tt,
     {| Router.response := g request (Router.response w);
        Router.cells := Router.cells w ++ [false];
        Router.unhandled := Router.unhandled w;
        Router.console := Router.console w |}).
Proof.
  cbn [Router.runChain]. unfold answer at 1. chain.
  match goal with |- context [if ?b then _ else _] => destruct b end; done.
Qed.

Definition nextTwice : Error := plainError "next() called multiple times".

Lemma runChain_twice (router : Router.t) (request : Request.t)
    (completed : nat) (w : Router.World) :
  let out := routed router request (Router.response w) in
  ∃ w',
    Router.runChain request [twice; routingStep router completed] w
    = (Throw nextTwice, w')
    ∧ Router.response w' = out.2
    ∧ Router.unhandled w' = Router.unhandled w ++ lost out.1
    ∧ Router.console w' = Router.console w.
Proof.
  intros out.
  remember [routingStep router completed] as tail eqn:Htail.
  cbn [Router.runChain]. unfold twice at 1. chain.
  rewrite lookup_app_r by done. rewrite Nat.sub_diag. cbn.
  subst tail.
  match goal with |- context [Router.runChain request _ ?w1] =>
    destruct (runChain_routing router request completed w1)
      as (w2 & Hrun & Hr & Hu & Hc & Hcells) end.
  cbn [Router.response Router.cells Router.unhandled Router.console]
    in Hrun, Hr, Hu, Hc, Hcells.
  fold out in Hrun, Hr |- *. rewrite Hrun. clear Hrun. clearbody out.
  assert (Hcalled : Router.cells w2 !! length (Router.cells w) = Some true).
  { apply Hcells. apply list_lookup_insert_eq. rewrite length_app. cbn. lia. }
  destruct out as [[[]|e] r]; cbn; rewrite Hcalled; cbn.
  - eexists. split; [done|]. cbn. by rewrite Hu, app_nil_r.
  - eexists. split; [done|]. cbn. by rewrite Hu.
Qed.

(** X17. With middlewares that each change the response and call [next],
    [handle] runs them in the order of their registration, each on the
    response the one before left, and then the routing step on the result.
    [handle] returns without an answer of its own: an error of the route
    handler is left with nobody to handle it, and nothing is logged. *)
Theorem handle_runs_middlewares_in_order (router : Router.t)
    (request : Request.t) (fs : list (Request.t → Response.t → Response.t))
    (w : Router.World) :
  fs ≠ [] →
  Router.middlewares router = tap <$> fs →
  let out := routed router request (through request fs (Router.response w)) in
  ∃ w',
    Router.handle router request w = (Normal tt, w')
    ∧ Router.response w' = out.2
    ∧ Router.unhandled w' = Router.unhandled w ++ lost out.1
    ∧ Router.console w' = Router.console w.
Proof.
  intros Hfs Hms out. rewrite handle_chain by (rewrite Hms; by destruct fs).
  rewrite Hms.
  match goal with |- context [Router.runChain request (_ ++ ?rest) ?w1] =>
    destruct (runChain_taps request fs rest w1 Hfs) as [cells' ->] end.
  cbn [Router.response Router.unhandled Router.console].
  match goal with |- context [Router.runChain request _ ?w0] =>
    destruct (runChain_routing router request (length (Router.cells w)) w0)
      as (w2 & Hrun & Hr & Hu & Hc & _) end.
  cbn [Router.response Router.cells Router.unhandled Router.console]
    in Hrun, Hr, Hu, Hc.
  fold out in Hrun, Hr |- *. rewrite Hrun.
  eexists. split; [reflexivity|]. unfold caught, dropped. cbn.
  by rewrite Hr, Hu, Hc.
Qed.

(** A middleware that stamps a header and hands over. *)
Definition stamp : Request.t → Response.t → Response.t :=
  λ _ r, Response.setHeader "X-Trace" "1" r.

Definition tracedRouter : option Router.t :=
  Router.use (tap stamp) <$> Router.get "/users/:id" Router.handlerA Router.empty.

Lemma handle_runs_middlewares_in_order_witness :
  ∃ router w',
    tracedRouter = Some router
    ∧ Router.handle router Router.getUser7 (Router.initialWorld Response.fresh)
      = (Normal tt, w')
    ∧ Response.rawBody (Response.raw (Router.response w')) = Some "A"
    ∧ Response.rawHeaders (Response.raw (Router.response w')) !! "x-trace"
      = Some "1".
Proof.
  destruct tracedRouter as [router|] eqn:Hrouter; [|discriminate Hrouter].
  injection Hrouter as Hrouter.
  destruct (handle_runs_middlewares_in_order router Router.getUser7 [stamp]
              (Router.initialWorld Response.fresh))
    as (w' & Hrun & Hresponse & _); [discriminate|by rewrite <- Hrouter|].
  exists router, w'. split; [reflexivity|]. split; [exact Hrun|].
  rewrite Hresponse, <- Hrouter. split; reflexivity.
Defined.

(** X18. A middleware that answers without calling [next] ends the
    request: the middlewares registered after it and the routing step do
    not run, whatever they are, and [handle] returns with the response the
    middleware left. *)
Theorem handle_stops_at_answering_middleware (router : Router.t)
    (request : Request.t) (fs : list (Request.t → Response.t → Response.t))
    (g : Request.t → Response.t → Response.t)
    (later : list Router.MiddlewareHandler) (w : Router.World) :
  Router.middlewares router = (tap <$> fs) ++ answer g :: later →
  ∃ w',
    Router.handle router request w = (Normal tt, w')
    ∧ Router.response w' = g request (through request fs (Router.response w))
    ∧ Router.unhandled w' = Router.unhandled w
    ∧ Router.console w' = Router.console w.
Proof.
  intros Hms. rewrite handle_chain by (rewrite Hms; by destruct fs).
  rewrite Hms, <- app_assoc. cbn [app].
  destruct fs as [|f fs].
  - cbn [fmap list_fmap app]. rewrite runChain_answer.
    eexists. split; [reflexivity|]. done.
  - match goal with |- context [Router.runChain request (_ ++ ?rest) ?w1] =>
      destruct (runChain_taps request (f :: fs) rest w1) as [cells' ->];
        [done|] end.
    rewrite runChain_answer. eexists. split; [reflexivity|].
    unfold caught, dropped. cbn. by rewrite app_nil_r.
Qed.

(** A router whose only middleware answers 401. *)
Definition deny : Request.t → Response.t → Response.t :=
  λ _ r, Response.text "Unauthorized" (Response.status 401 r).

Definition closedRouter : option Router.t :=
  Router.use (answer deny)
    <$> Router.get "/users/:id" Router.handlerA Router.empty.

Lemma handle_stops_at_answering_middleware_witness :
  ∃ router w',
    closedRouter = Some router
    ∧ Router.handle router Router.getUser7 (Router.initialWorld Response.fresh)
      = (Normal tt, w')
    ∧ Response.rawStatusCode (Response.raw (Router.response w')) = 401%Z
    ∧ Response.rawBody (Response.raw (Router.response w'))
      = Some "Unauthorized".
Proof.
  destruct closedRouter as [router|] eqn:Hrouter; [|discriminate Hrouter].
  injection Hrouter as Hrouter.
  destruct (handle_stops_at_answering_middleware router Router.getUser7 []
              deny [] (Router.initialWorld Response.fresh))
    as (w' & Hrun & Hresponse & _); [by rewrite <- Hrouter|].
  exists router, w'. split; [reflexivity|]. split; [exact Hrun|].
  rewrite Hresponse. split; reflexivity.
Defined.

(** X19. A middleware that calls [next] twice: the rest of the chain runs
    once, and the second call throws. When the middleware is the first of
    the chain, the error reaches the [catch] of [handle]: it is logged, and
    the answer is 500 unless the routing step has finished the response.
    Behind another middleware the error is dropped with the promise of the
    rest of the chain, and nothing is logged. *)
Theorem next_called_twice (router : Router.t) (request : Request.t)
    (fs : list (Request.t → Response.t → Response.t)) (w : Router.World) :
  Router.middlewares router = (tap <$> fs) ++ [twice] →
  let out := routed router request (through request fs (Router.response w)) in
  ∃ w',
    Router.handle router request w = (Normal tt, w')
    ∧ match fs with
      | [] =>
          Router.response w' = Router.afterCatch out.2
          ∧ Router.unhandled w' = Router.unhandled w ++ lost out.1
          ∧ Router.console w'
            = Router.console w
              ++ ["Router error: next() called multiple times"]
      | _ :: _ =>
          Router.response w' = out.2
          ∧ Router.unhandled w'
            = Router.unhandled w ++ lost out.1 ++ [nextTwice]
          ∧ Router.console w' = Router.console w
      end.
Proof.
  intros Hms out. rewrite handle_chain by (rewrite Hms; by destruct fs).
  rewrite Hms, <- app_assoc. cbn [app].
  destruct fs as [|f fs].
  - cbn [fmap list_fmap app].
    match goal with |- context [Router.runChain request _ ?w0] =>
      destruct (runChain_twice router request (length (Router.cells w)) w0)
        as (w2 & Hrun & Hr & Hu & Hc) end.
    cbn [Router.response Router.cells Router.unhandled Router.console]
      in Hrun, Hr, Hu, Hc.
    fold out in Hrun, Hr, Hu. rewrite Hrun.
    eexists. split; [reflexivity|]. unfold caught. cbn.
    by rewrite Hr, Hu, Hc.
  - match goal with |- context [Router.runChain request (_ ++ ?rest) ?w1] =>
      destruct (runChain_taps request (f :: fs) rest w1) as [cells' ->];
        [done|] end.
    cbn [Router.response Router.unhandled Router.console].
    match goal with |- context [Router.runChain request _ ?w0] =>
      destruct (runChain_twice router request (length (Router.cells w)) w0)
        as (w2 & Hrun & Hr & Hu & Hc) end.
    cbn [Router.response Router.cells Router.unhandled Router.console]
      in Hrun, Hr, Hu, Hc.
    fold out in Hrun, Hr, Hu. rewrite Hrun.
    eexists. split; [reflexivity|]. unfold caught, dropped. cbn.
    by rewrite Hr, Hu, Hc, <- app_assoc.
Qed.

Definition eagerRouter : option Router.t :=
  Router.use twice <$> Router.get "/users/:id" Router.handlerA Router.empty.

Lemma next_called_twice_witness :
  ∃ router w',
    eagerRouter = Some router
    ∧ Router.handle router Router.getUser7 (Router.initialWorld Response.fresh)
      = (Normal tt, w')
    ∧ Response.rawBody (Response.raw (Router.response w')) = Some "A"
    ∧ Router.console w' = ["Router error: next() called multiple times"].
Proof.
  destruct eagerRouter as [router|] eqn:Hrouter; [|discriminate Hrouter].
  injection Hrouter as Hrouter.
  destruct (next_called_twice router Router.getUser7 []
              (Router.initialWorld Response.fresh))
    as (w' & Hrun & Hresponse & _ & Hconsole); [by rewrite <- Hrouter|].
  exists router, w'. split; [reflexivity|]. split; [exact Hrun|].
  rewrite Hresponse, Hconsole, <- Hrouter. split; reflexivity.
Defined.

(** X20. Without middleware, a request no route accepts (no route of its
    method matches its path) is answered with the 404 page, which names the
    path and the method of the request; a route of another method that
    matches the path makes no difference. [handle] returns, nothing is
    logged, and on a response nothing was sent on the committed status is
    404. *)
Theorem unmatched_request_gets_404 (router : Router.t) (request : Request.t)
    (w : Router.World) :
  Router.middlewares router = [] →
  (∀ route, route ∈ Router.routes router →
            Route.methodString (Route.method route) ≠ Request.method request
            ∨ Route.match_ route (Request.path request) = None) →
  let page :=
    Response.html (Router.notFoundPage request)
      (Response.status 404 (Router.response w)) in
  Router.handle router request w
  = (Normal tt,
     {| Router.response := page; Router.cells := Router.cells w;
        Router.unhandled := Router.unhandled w;
        Router.console := Router.console w |})
  ∧ (Response.headersSent (Router.response w) = false →
     Response.finished (Router.response w) = false →
     Response.rawStatusCode (Response.raw page) = 404%Z
     ∧ Response.rawBody (Response.raw page) = Some (Router.notFoundPage request)
     ∧ Response.rawHeaders (Response.raw page) !! "content-type"
       = Some "text/html; charset=utf-8").
Proof.
  intros Hnone Hroutes page.
  assert (Hfind : Router.findRoute (Request.method request)
                    (Request.path request) router = None).
  { apply Router.findRouteIn_None. apply Forall_forall. intros route Hin.
    unfold Router.tryRoute.
    destruct (Hroutes route Hin) as [Hmethod|Hmatch].
    - by destruct (String.eqb_spec (Route.methodString (Route.method route))
                     (Request.method request)).
    - by destruct (String.eqb _ _). }
  split.
  - unfold Router.handle, Router.executeRouting, tryCatch. rewrite Hnone, Hfind.
    done.
  - unfold Response.headersSent, Response.finished. intros Hsent Hfinished.
    subst page.
    unfold Response.html, Response.send, Response.contentType,
      Response.setHeader, Response.status, Response.writeHeadersIfNeeded,
      Response.headersSent, Response.withRaw, Response.rawEnd.
    cbn. rewrite Hsent. cbn. rewrite Hfinished. cbn.
    split; [done|]. split; [done|].
    apply lookup_union_Some_l. apply lookup_insert_eq.
Qed.

Definition postUser7 : Request.t :=
  {| Request.method := "POST"; Request.path := "/users/7" |}.

Lemma unmatched_request_gets_404_witness :
  ∃ router w',
    Router.get "/users/:id" Router.handlerA Router.empty = Some router
    ∧ Router.handle router postUser7 (Router.initialWorld Response.fresh)
      = (Normal tt, w')
    ∧ Response.rawStatusCode (Response.raw (Router.response w')) = 404%Z.
Proof.
  destruct (Router.get "/users/:id" Router.handlerA Router.empty)
    as [router|] eqn:Hrouter; [|discriminate Hrouter].
  injection Hrouter as Hrouter.
  destruct (unmatched_request_gets_404 router postUser7
              (Router.initialWorld Response.fresh))
    as [Hrun Hpage].
  - by rewrite <- Hrouter.
  - intros route Hin. left. rewrite <- Hrouter in Hin.
    apply list_elem_of_singleton in Hin as ->. discriminate.
  - eexists router, _. split; [reflexivity|]. split; [exact Hrun|].
    exact (proj1 (Hpage eq_refl eq_refl)).
Defined.

(** *** Registration for every method *)

Definition allMethods : list Route.HttpMethod :=
  [Route.GET; Route.POST; Route.PUT; Route.DELETE; Route.PATCH; Route.HEAD;
   Route.OPTIONS].

(** [all]; [None] when the template does not compile. *)
Definition all (path : string) (handler : Route.RouteHandler)
    (router : Router.t) : option Router.t :=
  foldl (λ acc method, acc ≫= Router.addRoute method path handler)
    (Some router) allMethods.

(** [getRouteCount] *)
Definition getRouteCount (router : Router.t) : nat :=
  length (Router.routes router).

Lemma findRouteIn_app (before after : list Route.t) (method path : string) :
  Router.findRouteIn before method path = None →
  Router.findRouteIn (before ++ after) method path
  = Router.findRouteIn after method path.
Proof.
  induction before as [|route before IH]; cbn; [done|].
  by destruct (Router.tryRoute route method path).
Qed.

(** X21. [all] registers seven routes for the template, one for each of
    GET, POST, PUT, DELETE, PATCH, HEAD and OPTIONS in this order, all with
    the given handler, after the routes that were there and without
    touching the middlewares. A request with one of these methods that no
    earlier route accepts and that the template accepts reaches the
    handler. *)
Theorem all_registers_every_method (template : string)
    (handler : Route.RouteHandler) (router r' : Router.t) :
  all template handler router = Some r' →
  Router.middlewares r' = Router.middlewares router
  ∧ getRouteCount r' = (getRouteCount router + 7)%nat
  ∧ ∃ added,
      Router.routes r' = Router.routes router ++ added
      ∧ Route.method <$> added = allMethods
      ∧ Forall (λ route, Route.path route = template
                         ∧ Route.handler route = handler) added
      ∧ ∀ request route params,
          route ∈ added →
          Route.methodString (Route.method route) = Request.method request →
          Route.match_ route (Request.path request) = Some params →
          Router.findRoute (Request.method request) (Request.path request)
            router = None →
          Router.executeRouting r' request
          = Router.callHandler handler request (Some params).
Proof.
  unfold all, Router.addRoute, Route.new, getRouteCount. cbn [foldl allMethods].
  destruct (Route.createPattern template) as [[pattern names]|]; [|done].
  cbn. intros [= <-]. cbn. split; [done|].
  rewrite <- !app_assoc. cbn [app]. split; [rewrite length_app; cbn; lia|].
  eexists. split; [reflexivity|]. split; [done|].
  split; [by repeat constructor|].
  intros request route params Hin Hmethod Hmatch Hnone.
  unfold Router.executeRouting, Router.findRoute in *. cbn [Router.routes].
  rewrite findRouteIn_app by done. clear Hnone.
  unfold Route.match_ in Hmatch.
  repeat (apply elem_of_cons in Hin as [->|Hin]);
    [..|by apply elem_of_nil in Hin];
    cbn [Route.method Route.methodString Route.pattern Route.paramNames]
      in Hmethod, Hmatch;
    rewrite <- Hmethod;
    unfold Router.findRouteIn, Router.tryRoute, Route.match_;
    cbn [Route.method Route.methodString Route.pattern Route.paramNames
         Route.handler String.eqb Ascii.eqb Bool.eqb];
    by rewrite Hmatch.
Qed.

Lemma all_registers_every_method_witness :
  ∃ router,
    all "/users/:id" Router.handlerA Router.empty = Some router
    ∧ getRouteCount router = 7%nat
    ∧ Route.method <$> Router.routes router = allMethods.
Proof.
  destruct (all "/users/:id" Router.handlerA Router.empty)
    as [router|] eqn:Hall; [|discriminate Hall].
  destruct (all_registers_every_method _ _ _ _ Hall)
    as (_ & Hcount & added & Hroutes & Hmethods & _).
  exists router. split; [reflexivity|]. split; [exact Hcount|].
  rewrite Hroutes. exact Hmethods.
Defined.

End RouterChain.

(** ** SpringBridge.ts: the proxy, and the start and the stop of the bridge *)

Module SpringProxy.

Import SpringBridge.

(** What the upstream does with a proxied request: it answers with a
    status, headers (in the order of [Object.entries]) and a body, or the
    request fails. *)
Inductive Upstream :=
| Answers (statusCode : Z) (headers : list (string * string)) (body : string)
| Fails (e : Error).

(** The part of the answer [makeHttpRequest] settles its promise with,
    headers aside. *)
Definition outcome (u : Upstream) : HttpOutcome :=
  match u with
  | Answers statusCode _ body => HttpResolved statusCode body
  | Fails e => HttpRejected e
  end.

Definition skipHeaders : list string :=
  ["connection"; "transfer-encoding"; "content-encoding"; "content-length"].

(** [shouldSkipHeader] *)
Definition shouldSkipHeader (headerName : string) : bool :=
  existsb (String.eqb (Response.toLowerCase headerName)) skipHeaders.

Arguments shouldSkipHeader : simpl never.

(** The body of the [forEach] over the headers of the answer. *)
Definition copyHeader (r : Response.t) (header : string * string) : Response.t :=
  if shouldSkipHeader header.1 then r
  else Response.setHeader header.1 header.2 r.

(** The two error bodies (the serialised objects, without their
    timestamps). *)
Definition unavailable : string := "Spring application not available".
Definition badGateway : string := "Bad Gateway - Spring request failed".

(** [proxyRequest]; [body] is the result of [request.getBody()]. The
    [catch] logs the error and answers 502. *)
Definition proxyRequest (request : Request.t) (body : Completion string)
    (u : Upstream) (b : t) (r : Response.t) : t * Response.t :=
  if negb (isSpringReady b) then
    (b, Response.json unavailable (Response.status 503 r))
  else
    match body with
    | Throw _ => (b, Response.json badGateway (Response.status 502 r))
    | Normal _ =>
        match makeHttpRequest (Request.method request) (Request.path request)
                (outcome u) b with
        | (Throw _, b') =>
            (b', Response.json badGateway (Response.status 502 r))
        | (Normal (statusCode, answer), b') =>
            let headers :=
              match u with
              | Answers _ headers _ => headers
              | Fails _ => []
              end in
            (b',
             Response.send answer
               (foldl copyHeader (Response.status statusCode r) headers))
        end
    end.

(** [stop] *)
Definition stop (b : t) : t := {|
  config := config b;
  springMetadata := None;
  isSpringReady := false;
  healthCheckInterval := false;
  issued := issued b
|}.

(** [startHealthCheck]: the timer is armed. *)
Definition startHealthCheck (b : t) : t := {|
  config := config b;
  springMetadata := springMetadata b;
  isSpringReady := isSpringReady b;
  healthCheckInterval := true;
  issued := issued b
|}.

(** [isReady] and [getMetadata] *)
Definition isReady (b : t) : bool := isSpringReady b.
Definition getMetadata (b : t) : option SpringMetadata := springMetadata b.

(** *** Waiting for the upstream *)

(** What [waitForSpring] does: to the bridge, and the probes it makes and
    the delays it sleeps. *)
Record Waiting := {
  bridge : t;
  probes : nat;
  sleeps : list Z
}.

Definition notAvailable : Error :=
  plainError "Spring application not available after maximum retry attempts".

(** The loop of [waitForSpring] from [attempt] on, with [remaining]
    iterations to go; [upstream attempt] is what the probe of that attempt
    meets. *)
Fixpoint waitLoop (upstream : nat → HealthProbe) (attempt remaining : nat)
    (w : Waiting) : Completion unit * Waiting :=
  match remaining with
  | O => (Throw notAvailable, w)
  | S remaining' =>
      let probed := {| bridge := bridge w; probes := S (probes w);
                       sleeps := sleeps w |} in
      match checkSpringHealth (upstream attempt) with
      | Normal true =>
          (Normal tt,
           {| bridge := setReady true (bridge w); probes := S (probes w);
              sleeps := sleeps w |})
      | _ =>
          let cfg := config (bridge w) in
          waitLoop upstream (S attempt) remaining'
            (if (Z.of_nat attempt <? retryAttempts cfg)%Z
             then {| bridge := bridge w; probes := S (probes w);
                     sleeps := sleeps w ++ [retryDelay cfg] |}
             else probed)
      end
  end.

(** [waitForSpring]: the attempts are numbered from 1 to [retryAttempts]. *)
Definition waitForSpring (upstream : nat → HealthProbe) (b : t)
  : Completion unit * Waiting :=
  waitLoop upstream 1 (Z.to_nat (retryAttempts (config b)))
    {| bridge := b; probes := 0; sleeps := [] |}.

Section Start.

Variable decodeMappings : string → Completion (list SpringMapping).

(** [start] *)
Definition start (upstream : nat → HealthProbe) (net : HttpOutcome) (b : t)
  : Completion unit * Waiting :=
  match waitForSpring upstream b with
  | (Throw e, w) => (Throw e, w)
  | (Normal _, w) =>
      match loadSpringMetadata decodeMappings net (bridge w) with
      | (Throw e, b1) =>
          (Throw e, {| bridge := b1; probes := probes w; sleeps := sleeps w |})
      | (Normal _, b1) =>
          (Normal tt,
           {| bridge := startHealthCheck b1; probes := probes w;
              sleeps := sleeps w |})
      end
  end.

End Start.

(** *** The proxy *)




Lemma status_json_commits (code : Z) (body : string) (r : Response.t) :
  Response.headersSent r = false → Response.finished r = false →
  let r' := Response.json body (Response.status code r) in
  Response.rawStatusCode (Response.raw r') = code
  ∧ Response.rawBody (Response.raw r') = Some body
  ∧ Response.finished r' = true.
Proof.
  unfold Response.headersSent, Response.finished. intros Hsent Hfin.
  unfold Response.json, Response.send, Response.contentType,
    Response.setHeader, Response.status, Response.writeHeadersIfNeeded,
    Response.headersSent, Response.withRaw, Response.rawEnd, Response.finished.
  cbn. rewrite Hsent. cbn. by rewrite Hfin.
Qed.

(** X22. [proxyRequest] on a bridge that is not ready answers 503 without
    calling the upstream. On a ready bridge it calls the upstream once, with
    the method in upper case and the path of the request, unless the body
    of the request cannot be read; when the body cannot be read or the
    upstream request fails, the answer is 502. The readiness flag, the
    metadata and the configuration are never touched, and on a response
    nothing was sent on the committed status is the 503 or the 502. *)
Theorem proxyRequest_guards (request : Request.t) (body : Completion string)
    (u : Upstream) (b : t) (r : Response.t) :
  let out := proxyRequest request body u b r in
  let committed code text :=
    Response.headersSent r = false → Response.finished r = false →
    Response.rawStatusCode (Response.raw out.2) = code
    ∧ Response.rawBody (Response.raw out.2) = Some text in
  config out.1 = config b
  ∧ springMetadata out.1 = springMetadata b
  ∧ isSpringReady out.1 = isSpringReady b
  ∧ (isSpringReady b = false →
     out = (b, Response.json unavailable (Response.status 503 r))
     ∧ committed 503%Z unavailable)
  ∧ (isSpringReady b = true →
     issued out.1
     = issued b
       ++ match body with
          | Normal _ =>
              [(JsString.toUpperCase (Request.method request),
                Request.path request)]
          | Throw _ => []
          end)
  ∧ (isSpringReady b = true →
     (∃ e, body = Throw e) ∨ (∃ e, u = Fails e) →
     out.2 = Response.json badGateway (Response.status 502 r)
     ∧ committed 502%Z badGateway).
Proof.
  unfold proxyRequest. cbv zeta.
  destruct (isSpringReady b) eqn:Hready; cbn [negb].
  - destruct body as [text|e]; [destruct u as [code headers answer|e]|]; cbn;
      rewrite ?app_nil_r;
      (split; [done|]; split; [done|]; split; [done|]; split; [done|];
       split; [done|]); intros _.
    + by intros [[? [=]]|[? [=]]].
    + intros _. split; [done|]. intros Hs Hf.
      by destruct (status_json_commits 502 badGateway r Hs Hf) as (? & ? & _).
    + intros _. split; [done|]. intros Hs Hf.
      by destruct (status_json_commits 502 badGateway r Hs Hf) as (? & ? & _).
  - cbn. split; [done|]. split; [done|]. split; [done|].
    split; [|by split]. intros _. split; [done|]. intros Hs Hf.
    by destruct (status_json_commits 503 unavailable r Hs Hf) as (? & ? & _).
Qed.

Definition postOrders : Request.t :=
  {| Request.method := "post"; Request.path := "/api/orders" |}.

Definition readyBridge : t := setReady true (create defaultConfig).

Lemma proxyRequest_guards_witness :
  let down := proxyRequest postOrders (Normal "{}") (Answers 200 [] "ok")
                (create defaultConfig) Response.fresh in
  let failed := proxyRequest postOrders (Normal "{}")
                  (Fails (plainError "ECONNREFUSED")) readyBridge
                  Response.fresh in
  (issued down.1 = []
   ∧ Response.rawStatusCode (Response.raw down.2) = 503%Z)
  ∧ (issued failed.1 = [("POST", "/api/orders")]
     ∧ Response.rawStatusCode (Response.raw failed.2) = 502%Z).
Proof.
  split.
  - destruct (proxyRequest_guards postOrders (Normal "{}") (Answers 200 [] "ok")
                (create defaultConfig) Response.fresh)
      as (_ & _ & _ & Hdown & _).
    destruct (Hdown eq_refl) as [Hout Hcommitted].
    split; [by rewrite Hout|]. by destruct (Hcommitted eq_refl eq_refl).
  - destruct (proxyRequest_guards postOrders (Normal "{}")
                (Fails (plainError "ECONNREFUSED")) readyBridge Response.fresh)
      as (_ & _ & _ & _ & Hissued & Hfailed).
    split; [exact (Hissued eq_refl)|].
    destruct (Hfailed eq_refl) as [_ Hcommitted]; [right; by eexists|].
    by destruct (Hcommitted eq_refl eq_refl).
Defined.



(** *** Start and stop *)

(** The probe reports the upstream healthy. *)
Definition healthy (probe : HealthProbe) : bool :=
  match checkSpringHealth probe with
  | Normal true => true
  | _ => false
  end.

Lemma waitLoop_unhealthy (upstream : nat → HealthProbe)
    (attempt remaining : nat) (w : Waiting) :
  (∀ j, attempt ≤ j < attempt + remaining → healthy (upstream j) = false) →
  retryAttempts (config (bridge w)) = (Z.of_nat (attempt + remaining) - 1)%Z →
  let out := waitLoop upstream attempt remaining w in
  out.1 = Throw notAvailable
  ∧ bridge out.2 = bridge w
  ∧ probes out.2 = (probes w + remaining)%nat
  ∧ sleeps out.2
    = sleeps w ++ replicate (remaining - 1) (retryDelay (config (bridge w))).
Proof.
  revert attempt w. induction remaining as [|remaining IH]; intros attempt w Hall Hmax.
  - cbn. by rewrite app_nil_r, Nat.add_0_r.
  - cbn [waitLoop].
    assert (Hnow : healthy (upstream attempt) = false) by (apply Hall; lia).
    unfold healthy in Hnow.
    match goal with |- context [waitLoop upstream (S attempt) remaining ?w1] =>
      set (w' := w1) end.
    assert (Hbridge : bridge w' = bridge w).
    { subst w'. by destruct (_ <? _)%Z. }
    destruct (IH (S attempt) w') as (Hr & Hb & Hp & Hs).
    { intros j Hj. apply Hall. lia. }
    { rewrite Hbridge, Hmax. lia. }
    assert (Hgoal :
      (waitLoop upstream (S attempt) remaining w').1 = Throw notAvailable
      ∧ bridge (waitLoop upstream (S attempt) remaining w').2 = bridge w
      ∧ probes (waitLoop upstream (S attempt) remaining w').2
        = (probes w + S remaining)%nat
      ∧ sleeps (waitLoop upstream (S attempt) remaining w').2
        = sleeps w
          ++ replicate (S remaining - 1) (retryDelay (config (bridge w)))).
    { rewrite Hr, Hb, Hp, Hs, Hbridge. split; [done|]. split; [done|].
      subst w'. destruct (Z.ltb_spec (Z.of_nat attempt)
                            (retryAttempts (config (bridge w)))) as [Hlt|Hge];
        cbn [probes sleeps].
      - split; [lia|]. destruct remaining as [|remaining]; [lia|].
        cbn. by rewrite Nat.sub_0_r, <- app_assoc.
      - split; [lia|]. assert (remaining = 0)%nat as -> by lia.
        done. }
    destruct (checkSpringHealth (upstream attempt)) as [[]|e]; [done|..];
      exact Hgoal.
Qed.

Lemma waitLoop_healthy (upstream : nat → HealthProbe)
    (attempt remaining k : nat) (w : Waiting) :
  attempt ≤ k < attempt + remaining →
  healthy (upstream k) = true →
  (∀ j, attempt ≤ j < k → healthy (upstream j) = false) →
  retryAttempts (config (bridge w)) = (Z.of_nat (attempt + remaining) - 1)%Z →
  let out := waitLoop upstream attempt remaining w in
  out.1 = Normal tt
  ∧ bridge out.2 = setReady true (bridge w)
  ∧ probes out.2 = (probes w + (k - attempt + 1))%nat
  ∧ sleeps out.2
    = sleeps w ++ replicate (k - attempt) (retryDelay (config (bridge w))).
Proof.
  revert attempt w.
  induction remaining as [|remaining IH]; intros attempt w Hk Hgood Hbad Hmax;
    [lia|].
  cbn [waitLoop]. destruct (decide (k = attempt)) as [->|Hne].
  - unfold healthy in Hgood.
    destruct (checkSpringHealth (upstream attempt)) as [[]|e]; [|done..].
    cbn. rewrite Nat.sub_diag. cbn. rewrite app_nil_r.
    split; [done|]. split; [done|]. split; [lia|done].
  - assert (Hnow : healthy (upstream attempt) = false) by (apply Hbad; lia).
    unfold healthy in Hnow.
    assert ((Z.of_nat attempt <? retryAttempts (config (bridge w)))%Z = true)
      as Hsleep by (apply Z.ltb_lt; lia).
    rewrite Hsleep.
    match goal with |- context [waitLoop upstream (S attempt) remaining ?w1] =>
      destruct (IH (S attempt) w1) as (Hr & Hb & Hp & Hs);
        [lia|done|intros j Hj; apply Hbad; lia|cbn; rewrite Hmax; lia|]
    end.
    cbn [bridge probes sleeps] in Hb, Hp, Hs.
    assert (Hgoal : ∀ out,
      out = waitLoop upstream (S attempt) remaining
              {| bridge := bridge w; probes := S (probes w);
                 sleeps := sleeps w ++ [retryDelay (config (bridge w))] |} →
      out.1 = Normal tt
      ∧ bridge out.2 = setReady true (bridge w)
      ∧ probes out.2 = (probes w + (k - attempt + 1))%nat
      ∧ sleeps out.2
        = sleeps w ++ replicate (k - attempt) (retryDelay (config (bridge w)))).
    { intros out ->. rewrite Hr, Hb, Hp, Hs. split; [done|]. split; [done|].
      split; [lia|]. replace (k - attempt)%nat with (S (k - S attempt)) by lia.
      cbn. by rewrite <- app_assoc. }
    destruct (checkSpringHealth (upstream attempt)) as [[]|e]; [done|..];
      by apply Hgoal.
Qed.

Lemma waitForSpring_up (upstream : nat → HealthProbe) (b : t) (k : nat) :
  (1 ≤ k ≤ Z.to_nat (retryAttempts (config b)))%nat →
  healthy (upstream k) = true →
  (∀ j : nat, (1 ≤ j < k)%nat → healthy (upstream j) = false) →
  let out := waitForSpring upstream b in
  out.1 = Normal tt
  ∧ bridge out.2 = setReady true b
  ∧ probes out.2 = k
  ∧ sleeps out.2 = replicate (k - 1) (retryDelay (config b)).
Proof.
  intros Hk Hgood Hbad. unfold waitForSpring.
  destruct (waitLoop_healthy upstream 1 (Z.to_nat (retryAttempts (config b))) k
              {| bridge := b; probes := 0; sleeps := [] |})
    as (Hr & Hb & Hp & Hs); [lia|done|done|cbn; lia|].
  cbn in Hb, Hp, Hs. rewrite Hr, Hb, Hp, Hs. split; [done|]. split; [done|].
  split; [lia|done].
Qed.

Lemma waitForSpring_down (upstream : nat → HealthProbe) (b : t) :
  let attempts := Z.to_nat (retryAttempts (config b)) in
  (∀ j : nat, (1 ≤ j ≤ attempts)%nat → healthy (upstream j) = false) →
  let out := waitForSpring upstream b in
  out.1 = Throw notAvailable
  ∧ bridge out.2 = b
  ∧ probes out.2 = attempts
  ∧ sleeps out.2 = replicate (attempts - 1) (retryDelay (config b)).
Proof.
  intros attempts Hbad. unfold waitForSpring. fold attempts.
  destruct (decide (attempts = 0%nat)) as [Hzero|Hpos].
  { rewrite Hzero. done. }
  destruct (waitLoop_unhealthy upstream 1 attempts
              {| bridge := b; probes := 0; sleeps := [] |})
    as (Hr & Hb & Hp & Hs); [intros j Hj; apply Hbad; lia|cbn; lia|].
  cbn in Hb, Hp, Hs. by rewrite Hr, Hb, Hp, Hs.
Qed.

(** X24. [waitForSpring] probes the upstream at most [retryAttempts] times
    and sleeps [retryDelay] between two probes, not after the last one.
    At the first probe that finds the upstream healthy it marks the bridge
    ready and returns; when none does (or [retryAttempts] is not positive)
    it throws and leaves the bridge as it was. *)
Theorem waitForSpring_bounded_retries (upstream : nat → HealthProbe) (b : t) :
  let attempts := Z.to_nat (retryAttempts (config b)) in
  let out := waitForSpring upstream b in
  (∀ k : nat, (1 ≤ k ≤ attempts)%nat →
        healthy (upstream k) = true →
        (∀ j : nat, (1 ≤ j < k)%nat → healthy (upstream j) = false) →
        out.1 = Normal tt
        ∧ bridge out.2 = setReady true b
        ∧ probes out.2 = k
        ∧ sleeps out.2 = replicate (k - 1) (retryDelay (config b)))
  ∧ ((∀ j : nat, (1 ≤ j ≤ attempts)%nat → healthy (upstream j) = false) →
     out.1 = Throw notAvailable
     ∧ bridge out.2 = b
     ∧ probes out.2 = attempts
     ∧ sleeps out.2 = replicate (attempts - 1) (retryDelay (config b))).
Proof.
  split; [apply waitForSpring_up|apply waitForSpring_down].
Qed.

(** The upstream comes up at the third attempt. *)
Definition lateUpstream (attempt : nat) : HealthProbe :=
  if (attempt <? 3)%nat then ProbeError else ProbeResponse 200.

Lemma waitForSpring_bounded_retries_witness :
  let out := waitForSpring lateUpstream (create defaultConfig) in
  out.1 = Normal tt
  ∧ isSpringReady (bridge out.2) = true
  ∧ probes out.2 = 3%nat
  ∧ sleeps out.2 = [1000; 1000]%Z.
Proof.
  destruct (waitForSpring_bounded_retries lateUpstream (create defaultConfig))
    as [Hup _].
  destruct (Hup 3%nat) as (Hr & Hb & Hp & Hs).
  - cbn. lia.
  - reflexivity.
  - intros j Hj. unfold lateUpstream.
    destruct (Nat.ltb_spec j 3) as [_|Hge]; [reflexivity|lia].
  - split; [exact Hr|]. split; [by rewrite Hb|]. split; [exact Hp|exact Hs].
Defined.

Section StartFacts.

Variable decodeMappings : string → Completion (list SpringMapping).

(** X25. [start] has three outcomes. When no probe finds the upstream
    healthy, it throws and the bridge is as before: no metadata request is
    made and no timer is armed. When the upstream is healthy but the
    metadata cannot be fetched or decoded, it throws after one GET of the
    metadata path and leaves the bridge marked ready, with the metadata it
    had and without the periodic health check. Otherwise it returns with
    the bridge ready, the decoded mappings stored and the timer armed. *)
Theorem start_stages (upstream : nat → HealthProbe) (net : HttpOutcome)
    (b : t) :
  let attempts := Z.to_nat (retryAttempts (config b)) in
  let out := start decodeMappings upstream net b in
  ((∀ j : nat, (1 ≤ j ≤ attempts)%nat → healthy (upstream j) = false) →
   out.1 = Throw notAvailable ∧ bridge out.2 = b)
  ∧ (∀ k : nat, (1 ≤ k ≤ attempts)%nat →
       healthy (upstream k) = true →
       (∀ j : nat, (1 ≤ j < k)%nat → healthy (upstream j) = false) →
       isSpringReady (bridge out.2) = true
       ∧ issued (bridge out.2)
         = issued b ++ [("GET", metadataPath (config b))]
       ∧ (fetchFails decodeMappings net →
          (∃ e, out.1 = Throw e)
          ∧ springMetadata (bridge out.2) = springMetadata b
          ∧ healthCheckInterval (bridge out.2) = healthCheckInterval b)
       ∧ (∀ statusCode body collected,
            net = HttpResolved statusCode body →
            decodeMappings body = Normal collected →
            out.1 = Normal tt
            ∧ mappings <$> springMetadata (bridge out.2) = Some collected
            ∧ healthCheckInterval (bridge out.2) = true)).
Proof.
  intros attempts out. subst out. unfold start. split.
  - intros Hbad.
    destruct (waitForSpring_down upstream b Hbad) as (Hr & Hb & _).
    destruct (waitForSpring upstream b) as [c w]. cbn in Hr, Hb. by subst c.
  - intros k Hk Hgood Hbad.
    destruct (waitForSpring_up upstream b k Hk Hgood Hbad) as (Hr & Hb & _).
    destruct (waitForSpring upstream b) as [c w]. cbn in Hr, Hb. subst c.
    rewrite Hb.
    pose proof (loadSpringMetadata_frame decodeMappings net (setReady true b))
      as (Hissued & Hflag & _).
    split; [|split; [|split]].
    + destruct (loadSpringMetadata decodeMappings net (setReady true b))
        as [[[]|e] b1]; cbn in *; done.
    + destruct (loadSpringMetadata decodeMappings net (setReady true b))
        as [[[]|e] b1]; cbn in *; done.
    + intros Hfail. clear Hissued Hflag. unfold loadSpringMetadata.
      destruct net as [statusCode body|e]; cbn in *.
      * destruct Hfail as [e ->]. split; [by eexists|done].
      * split; [by eexists|done].
    + intros statusCode body collected -> Hdecode.
      unfold loadSpringMetadata. cbn. rewrite Hdecode. done.
Qed.

End StartFacts.

(** A bridge that cannot reach the metadata endpoint is left ready and
    unwatched. *)
Lemma start_stages_witness :
  let out := start sampleDecode lateUpstream (HttpResolved 200 "<html>")
               (create defaultConfig) in
  (∃ e, out.1 = Throw e)
  ∧ isSpringReady (bridge out.2) = true
  ∧ healthCheckInterval (bridge out.2) = false
  ∧ issued (bridge out.2) = [("GET", "/actuator/mappings")].
Proof.
  destruct (start_stages sampleDecode lateUpstream (HttpResolved 200 "<html>")
              (create defaultConfig)) as [_ Hup].
  destruct (Hup 3%nat) as (Hready & Hissued & Hfail & _).
  - cbn. lia.
  - reflexivity.
  - intros j Hj. unfold lateUpstream.
    destruct (Nat.ltb_spec j 3) as [_|Hge]; [reflexivity|lia].
  - destruct Hfail as (Hthrow & _ & Htimer); [cbn; eexists; reflexivity|].
    split; [exact Hthrow|]. split; [exact Hready|].
    split; [exact Htimer|exact Hissued].
Defined.


Lemma upperChar_idemp (c : ascii) :
  JsString.upperChar (JsString.upperChar c) = JsString.upperChar c.
Proof.
  unfold JsString.upperChar at 2 3.
  destruct ((97 <=? nat_of_ascii c)%nat && (nat_of_ascii c <=? 122)%nat) eqn:E.
  - apply andb_true_iff in E as [Hlo Hhi].
    apply Nat.leb_le in Hlo. apply Nat.leb_le in Hhi.
    unfold JsString.upperChar. rewrite nat_ascii_embedding by lia.
    replace ((97 <=? nat_of_ascii c - 32)%nat
             && (nat_of_ascii c - 32 <=? 122)%nat) with false; [done|].
    symmetry. apply andb_false_iff. left. apply Nat.leb_gt. lia.
  - unfold JsString.upperChar. by rewrite E.
Qed.

Lemma toUpperCase_idemp (s : string) :
  JsString.toUpperCase (JsString.toUpperCase s) = JsString.toUpperCase s.
Proof.
  induction s as [|c s IH]; [done|]. cbn. by rewrite upperChar_idemp, IH.
Qed.

(** X26. [hasSpringMapping] reads the method of the request without regard
    to case; a mapping recorded with the method [REQUEST] stands for every
    method; and a bridge without metadata (new, or stopped) claims no path:
    after [stop] the bridge is not ready, [hasSpringMapping] is false for
    every request, and [proxyRequest] answers 503 without calling the
    upstream. *)
Theorem hasSpringMapping_methods (b : t) :
  (∀ method path,
     hasSpringMapping method path b
     = hasSpringMapping (JsString.toUpperCase method) path b)
  ∧ (∀ method path metadata mapping,
       springMetadata b = Some metadata →
       mapping ∈ mappings metadata →
       SpringBridge.method mapping = "REQUEST" →
       matchPath (SpringBridge.path mapping) path = true →
       hasSpringMapping method path b = true)
  ∧ (∀ method path, hasSpringMapping method path (stop b) = false)
  ∧ isReady (stop b) = false
  ∧ getMetadata (stop b) = None
  ∧ (∀ request body u r,
       proxyRequest request body u (stop b) r
       = (stop b, Response.json unavailable (Response.status 503 r))).
Proof.
  split; [|split; [|done]].
  - intros method path. unfold hasSpringMapping.
    by rewrite toUpperCase_idemp.
  - intros method path metadata mapping Hmeta Hin Hmethod Hpath.
    unfold hasSpringMapping. rewrite Hmeta. apply existsb_exists.
    exists mapping. split; [by apply list_elem_of_In|].
    rewrite Hmethod, Hpath. cbn. by rewrite orb_true_r.
Qed.

(** A mapping that stands for every method. *)
Definition legacyMapping : SpringMapping := {|
  path := "/legacy/**"; method := "REQUEST"; produces := []; consumes := [];
  className := "LegacyController"; methodName := "handle"
|}.

Definition legacySnapshot : SpringMetadata := {|
  mappings := [legacyMapping];
  contextPath := ""; port := 8081; profiles := []; properties := ∅
|}.

Definition anyMethodBridge : t := setMetadata (Some legacySnapshot) readyBridge.

Lemma hasSpringMapping_methods_witness :
  hasSpringMapping "delete" "/legacy/orders/7" anyMethodBridge = true
  ∧ hasSpringMapping "delete" "/legacy/orders/7" (stop anyMethodBridge) = false.
Proof.
  destruct (hasSpringMapping_methods anyMethodBridge)
    as (_ & Hany & Hstopped & _).
  split; [|apply Hstopped].
  apply (Hany "delete" "/legacy/orders/7" legacySnapshot legacyMapping);
    [reflexivity| |reflexivity|reflexivity].
  apply list_elem_of_singleton. reflexivity.
Defined.

End SpringProxy.

(** ** ServletContainer.ts: the statistics *)

Module ContainerStats.

Import ServletContainer.
Import ContainerLifecycle.

(** The entry of [activeServlets] for one mapping. *)
Record ServletStats := {
  name : string;
  pattern : string;
  requests : nat;
  lastAccess : Z
}.

Record ContainerStats := {
  servletCount : nat;
  requestTotal : nat;
  since : Z;
  activeServlets : list ServletStats
}.

(** [getStats]; [time] is the time of the call. *)
Definition getStats (time : Z) (c : t) : ContainerStats := {|
  servletCount := JsMap.size (servletMappings c);
  requestTotal := totalRequests c;
  since := default time (startedAt c);
  activeServlets :=
    (λ mapping,
       {| name := servletName (config mapping);
          pattern := urlPattern mapping;
          requests := requestCount mapping;
          lastAccess := lastAccessed mapping |})
    <$> JsMap.values (servletMappings c)
|}.

(** [getServletMappings] and [getServletByName] *)
Definition getServletMappings (c : t) : list ServletMapping :=
  JsMap.values (servletMappings c).

Definition getServletByName (name : string) (c : t) : option ServletMapping :=
  JsMap.get name (servletsByName c).

(** The requests the registered mappings have counted. *)
Definition requestSum (mappings : JsMap.t ServletMapping) : nat :=
  sum_list (requestCount <$> JsMap.values mappings).

Arguments requestSum : simpl never.

(** The calls of [handleRequest] in a sequence of calls. *)
Fixpoint handles (calls : list Call) : nat :=
  match calls with
  | [] => 0
  | call :: rest =>
      match op call with
      | CallHandle _ => S (handles rest)
      | _ => handles rest
      end
  end.

Definition isUnregister (call : Call) : bool :=
  match op call with
  | CallUnregister _ => true
  | _ => false
  end.

Lemma requestSum_set_absent (key : string) (mapping : ServletMapping)
    (mappings : JsMap.t ServletMapping) :
  JsMap.get key mappings = None →
  requestSum (JsMap.set key mapping mappings)
  = (requestSum mappings + requestCount mapping)%nat.
Proof.
  intros Hget. rewrite get_None_set by done. unfold requestSum, JsMap.values.
  rewrite !fmap_app, sum_list_with_app. cbn. lia.
Qed.

Lemma requestSum_set_present (key : string) (old mapping : ServletMapping)
    (mappings : JsMap.t ServletMapping) :
  JsMap.get key mappings = Some old →
  (requestSum (JsMap.set key mapping mappings) + requestCount old)%nat
  = (requestSum mappings + requestCount mapping)%nat.
Proof.
  unfold requestSum, JsMap.values.
  induction mappings as [|[k v] rest IH]; cbn; [done|].
  destruct (String.eqb k key); cbn.
  - intros [= ->]. lia.
  - intros Hget. specialize (IH Hget). lia.
Qed.

Lemma requestSum_delete (key : string) (mappings : JsMap.t ServletMapping) :
  (requestSum (JsMap.delete key mappings) ≤ requestSum mappings)%nat.
Proof.
  unfold requestSum, JsMap.values.
  induction mappings as [|[k v] rest IH]; cbn; [done|].
  destruct (String.eqb k key); cbn; lia.
Qed.

(** What each method can make of the container. *)
Lemma start_container (hooks : Hooks) (w : World) :
  let c := container (start hooks w).2 in
  c = container w ∨ c = setStarted true (Some (now w)) (container w).
Proof.
  unfold start, mbind, Eff_bind, getContainer, tryCatch, throw, getNow,
    setContainer.
  cbn. destruct (isStarted (container w)); [by left|].
  pose proof (forEach_initialize_exact hooks (startupServlets (container w)) w)
    as (Hc & Hn & _).
  destruct (forEach (initializeServlet hooks) (startupServlets (container w)) w)
    as [[[]|e] w1]; cbn in *; rewrite Hc; [right; by rewrite Hn|by left].
Qed.

Lemma stop_container (hooks : Hooks) (w : World) :
  let c := container (stop hooks w).2 in
  c = container w ∨ c = setStarted false None (container w).
Proof.
  unfold stop, mbind, Eff_bind, getContainer, tryCatch, setContainer, throw.
  cbn. destruct (isStarted (container w)); [|by left]. cbn.
  pose proof (forEach_destroy_exact hooks
                (JsMap.values (servletMappings (container w))) w)
    as (Hr & Hc & _).
  destruct (forEach (destroyLogged hooks)
              (JsMap.values (servletMappings (container w))) w)
    as [c w1]; cbn in *. subst c. cbn. rewrite Hc. by right.
Qed.

Lemma registerServlet_container (hooks : Hooks) (pattern : string)
    (s : ServletRef) (cfg : ServletConfig) (priority : option Z) (w : World) :
  let c := container (registerServlet hooks pattern s cfg priority w).2 in
  let mapping := newMapping pattern s cfg priority (now w) in
  c = container w
  ∨ JsMap.get pattern (servletMappings (container w)) = None
    ∧ c = withMappings
            (JsMap.set pattern mapping (servletMappings (container w)))
            (JsMap.set (servletName cfg) mapping (servletsByName (container w)))
            (container w).
Proof.
  unfold registerServlet, mbind, Eff_bind, mret, Eff_ret, getContainer, getNow,
    setContainer, throw, JsMap.has, newMapping.
  cbn.
  destruct (JsMap.get pattern (servletMappings (container w))) eqn:Hpattern;
    [by left|].
  destruct (JsMap.get (servletName cfg) (servletsByName (container w)))
    eqn:Hname; [by left|].
  cbn. right.
  destruct (isStarted (container w)); [|done].
  match goal with |- context [initializeServlet hooks ?m ?w1] =>
    pose proof (initializeServlet_exact hooks m w1) as (Hc & _);
    destruct (initializeServlet hooks m w1) as [c w2] end.
  cbn in *. by rewrite Hc.
Qed.

Lemma unregisterServlet_container (hooks : Hooks) (pattern : string)
    (w : World) :
  let c := container (unregisterServlet hooks pattern w).2 in
  c = container w
  ∨ ∃ mapping,
      c = withMappings
            (JsMap.delete pattern (servletMappings (container w)))
            (JsMap.delete (servletName (config mapping))
               (servletsByName (container w)))
            (container w).
Proof.
  eff. destruct (JsMap.get pattern (servletMappings (container w)))
    as [mapping|] eqn:Hget; cbn; [|by left].
  destruct (onDestroy hooks (servlet mapping)) as [[]|e]; cbn; [|by left].
  right. by exists mapping.
Qed.

Lemma handleRequest_container (hooks : Hooks) (request : Request.t)
    (w : World) :
  let c := container (handleRequest hooks request w).2 in
  c = container w
  ∨ ∃ key mapping,
      (key, mapping) ∈ servletMappings (container w)
      ∧ c = countRequest
              (storeMapping (touch (now w) mapping) (container w)).
Proof.
  cbn. destruct (isStarted (container w)) eqn:Hstarted.
  2: { left. by rewrite handleRequest_stopped. }
  pose proof (findMatchingServlet_spec (Request.path request)
                (servletMappings (container w))) as Hspec.
  destruct (findMatchingServlet (Request.path request)
              (servletMappings (container w))) as [mapping|] eqn:Hfind.
  - destruct Hspec as (key & Hin & _).
    destruct (handleRequest_dispatch hooks request w mapping Hstarted Hfind)
      as (w' & Hrun & Hc & _).
    right. exists key, mapping. by rewrite Hrun.
  - left. by rewrite handleRequest_unmatched.
Qed.

Definition total (w : World) : nat := totalRequests (container w).
Definition counted (w : World) : nat :=
  requestSum (servletMappings (container w)).

Lemma step_counted (w : World) (call : Call) :
  inSync w →
  let w' := step w call in
  (total w' ≤ total w + handles [call])%nat
  ∧ (counted w ≤ total w → counted w' ≤ total w')%nat
  ∧ (isUnregister call = false → counted w = total w →
     counted w' = total w').
Proof.
  unfold inSync, step, total, counted, isUnregister. intros Hsync. cbn.
  set (w0 := arrive (time call) (response w) w).
  destruct (op call) as [| |pattern s cfg priority|pattern|request].
  - destruct (start_container (hooks call) w0) as [->| ->]; cbn;
      (split; [lia|]; split; [done|]; by intros _).
  - destruct (stop_container (hooks call) w0) as [->| ->]; cbn;
      (split; [lia|]; split; [done|]; by intros _).
  - destruct (registerServlet_container (hooks call) pattern s cfg priority w0)
      as [->|[Hnone ->]]; cbn;
      [split; [lia|]; split; [done|]; by intros _|].
    rewrite requestSum_set_absent by done. cbn.
    split; [lia|]. split; [lia|]. intros _. lia.
  - destruct (unregisterServlet_container (hooks call) pattern w0)
      as [->|[mapping ->]]; cbn; [split; [lia|]; split; done|].
    pose proof (requestSum_delete pattern (servletMappings (container w))).
    split; [lia|]. split; [lia|done].
  - destruct (handleRequest_container (hooks call) request
                (arrive (time call) Response.fresh w))
      as [->|(key & mapping & Hin & ->)]; cbn;
      [split; [lia|]; split; [done|]; by intros _|].
    cbn in Hin. apply elem_of_get in Hin; [|apply Hsync].
    destruct (sync_byPattern _ _ Hsync _ _ Hin) as [<- _].
    pose proof (requestSum_set_present (urlPattern mapping) mapping
                  (touch (time call) mapping) _ Hin) as Hsum.
    cbn in Hsum. split; [lia|]. split; [lia|]. intros _. lia.
Qed.

Lemma run_counted (calls : list Call) (w : World) :
  inSync w →
  (total (run calls w) ≤ total w + handles calls)%nat
  ∧ (counted w ≤ total w → counted (run calls w) ≤ total (run calls w))%nat
  ∧ (forallb (λ call, negb (isUnregister call)) calls = true →
     counted w = total w →
     counted (run calls w) = total (run calls w)).
Proof.
  revert w. induction calls as [|call rest IH]; intros w Hsync.
  { cbn. split; [lia|done]. }
  destruct (step_counted w call Hsync) as (Htotal & Hle & Heq).
  destruct (IH (step w call) (step_inSync w call Hsync)) as (Htotal' & Hle' & Heq').
  cbn [run foldl] in *. fold (run rest (step w call)).
  split; [|split].
  - etrans; [exact Htotal'|]. cbn [handles] in *.
    destruct (op call); lia.
  - intros H. by apply Hle', Hle.
  - cbn [forallb]. intros [Hcall Hrest]%andb_true_iff Hw.
    apply Heq'; [done|]. apply Heq; [|done]. by apply negb_true_iff.
Qed.

(** X27. The statistics after any sequence of calls on a new container:
    [servletCount] is the number of entries of [activeServlets]; the
    request counts of the registered servlets add up to at most
    [totalRequests], and to exactly [totalRequests] when no servlet was
    unregistered; [totalRequests] is at most the number of calls of
    [handleRequest]; and no name and no pattern is listed twice. *)
Theorem stats_account_for_requests (calls : list Call) (time : Z) :
  let stats := getStats time (container (run calls initialWorld)) in
  servletCount stats = length (activeServlets stats)
  ∧ (sum_list (requests <$> activeServlets stats) ≤ requestTotal stats)%nat
  ∧ (requestTotal stats ≤ handles calls)%nat
  ∧ (forallb (λ call, negb (isUnregister call)) calls = true →
     sum_list (requests <$> activeServlets stats) = requestTotal stats)
  ∧ NoDup (pattern <$> activeServlets stats)
  ∧ NoDup (name <$> activeServlets stats).
Proof.
  assert (Hsync0 : inSync initialWorld).
  { split; cbn; try constructor; done. }
  pose proof (run_inSync calls initialWorld Hsync0) as Hsync.
  destruct (run_counted calls initialWorld Hsync0) as (Htotal & Hle & Heq).
  unfold total, counted, requestSum in *.
  cbn [getStats servletCount requestTotal activeServlets].
  set (c := container (run calls initialWorld)) in *.
  set (entry := λ mapping, {| name := servletName (config mapping);
                              pattern := urlPattern mapping;
                              requests := requestCount mapping;
                              lastAccess := lastAccessed mapping |}).
  assert (Hrequests : requests <$> (entry <$> JsMap.values (servletMappings c))
                      = requestCount <$> JsMap.values (servletMappings c)).
  { by rewrite <- list_fmap_compose. }
  assert (Hpatterns : pattern <$> (entry <$> JsMap.values (servletMappings c))
                      = urlPattern <$> JsMap.values (servletMappings c)).
  { by rewrite <- list_fmap_compose. }
  assert (Hnames : name <$> (entry <$> JsMap.values (servletMappings c))
                   = (λ v, servletName (config v))
                       <$> JsMap.values (servletMappings c)).
  { by rewrite <- list_fmap_compose. }
  rewrite Hrequests, Hpatterns, Hnames.
  split; [unfold JsMap.size, JsMap.values; by rewrite !length_fmap|].
  split; [by apply Hle|]. split; [exact Htotal|].
  split; [intros Hkeep; by apply Heq|].
  assert (Hkeys : ∀ (key : ServletMapping → string) (m : JsMap.t ServletMapping),
    NoDup m.*1 → (∀ k v, JsMap.get k m = Some v → key v = k) →
    key <$> JsMap.values m = m.*1).
  { intros key m Hm Hkey. unfold JsMap.values.
    induction m as [|[k v] rest IH]; cbn; [done|].
    apply NoDup_cons in Hm as [Hk Hrest]. f_equal.
    - apply Hkey. cbn. by rewrite String.eqb_refl.
    - apply IH; [done|]. intros k' v' Hget. apply Hkey. cbn.
      destruct (String.eqb_spec k k') as [->|]; [|done].
      destruct Hk. apply get_elem_of in Hget.
      apply list_elem_of_fmap. by exists (k', v'). }
  pose proof (InSync_values _ _ Hsync) as Hperm.
  destruct Hsync as [Hp Hn HP HN]. fold c in Hp, Hn, HP, HN, Hperm. split.
  - rewrite (Hkeys urlPattern); [done|done|]. intros k v Hget. by apply HP.
  - rewrite Hperm.
    rewrite (Hkeys (λ v, servletName (config v))); [done|done|].
    intros k v Hget. by apply HN.
Qed.

End ContainerStats.

(** ** HttpServlet.ts: the inherited HEAD and OPTIONS *)

Module InheritedMethods.

Import HttpServlet.

(** X28. What a servlet inherits follows its [doGet]. A HEAD request to a
    servlet that does not override [doHead] runs its GET handler on the same
    request and response, so the answer to HEAD is the answer to GET, body
    included. An OPTIONS request to a servlet that does not override
    [doOptions] is answered, on a response nothing was sent on, with 200, an
    empty body and an [Allow] header that lists GET and HEAD when [doGet] is
    overridden, POST, PUT and DELETE when theirs are, and OPTIONS always;
    overriding [doHead] or [doTrace] adds nothing, and TRACE is never
    listed. *)
Theorem inherited_head_and_options (s : t) (request : Request.t)
    (r : Response.t) :
  (doHead s = None →
   JsString.toUpperCase (Request.method request) = "HEAD" →
   service s request r
   = match callGet s request r with
     | (Normal _, r') => (Normal tt, r')
     | (Throw _, r') =>
         (Normal tt,
          Response.text "Internal Server Error" (Response.status 500 r'))
     end)
  ∧ (doOptions s = None →
     JsString.toUpperCase (Request.method request) = "OPTIONS" →
     Response.headersSent r = false → Response.finished r = false →
     ∃ r',
       service s request r = (Normal tt, r')
       ∧ Response.rawStatusCode (Response.raw r') = 200%Z
       ∧ Response.rawBody (Response.raw r') = Some ""
       ∧ Response.rawHeaders (Response.raw r') !! "allow"
         = Some (String.concat ", " (allowedMethods s)))
  ∧ (∀ method,
       method ∈ allowedMethods s
       ↔ (method = "GET" ∨ method = "HEAD") ∧ is_Some (doGet s)
         ∨ method = "POST" ∧ is_Some (doPost s)
         ∨ method = "PUT" ∧ is_Some (doPut s)
         ∨ method = "DELETE" ∧ is_Some (doDelete s)
         ∨ method = "OPTIONS").
Proof.
  split; [|split].
  - intros Hhead Hmethod. unfold service. rewrite Hmethod.
    unfold dispatch, callHead. cbn. by rewrite Hhead.
  - intros Hoptions Hmethod Hsent Hfinished. unfold service. rewrite Hmethod.
    unfold dispatch, callOptions. cbn. rewrite Hoptions. cbn.
    eexists. split; [reflexivity|].
    unfold Response.headersSent, Response.finished in *.
    apply orb_false_elim in Hsent as [Hs1 Hs2].
    unfold Response.text, Response.send, Response.contentType,
      Response.setHeader, Response.status, Response.writeHeadersIfNeeded,
      Response.headersSent, Response.withRaw, Response.rawEnd.
    cbn. rewrite Hs1, Hs2. cbn. rewrite Hfinished. cbn.
    split; [done|]. split; [done|].
    apply lookup_union_Some_l. rewrite lookup_insert_ne by done.
    apply lookup_insert_eq.
  - intros method. unfold allowedMethods, overridden.
    destruct (doGet s), (doPost s), (doPut s), (doDelete s); cbn;
      rewrite ?elem_of_cons, ?elem_of_nil; unfold is_Some;
      naive_solver.
Qed.

Definition headHello : Request.t :=
  {| Request.method := "head"; Request.path := "/hello" |}.

Definition optionsHello : Request.t :=
  {| Request.method := "OPTIONS"; Request.path := "/hello" |}.

(** A servlet that overrides [doGet] only. *)
Definition helloServlet : t := {|
  doGet := Some (λ _ r, (Normal tt, Response.text "hello" r));
  doHead := None; doPost := None; doPut := None; doDelete := None;
  doOptions := None; doTrace := None
|}.

Lemma inherited_head_and_options_witness :
  Response.rawBody (Response.raw (service helloServlet headHello Response.fresh).2)
  = Some "hello"
  ∧ ∃ r',
      service helloServlet optionsHello Response.fresh = (Normal tt, r')
      ∧ Response.rawHeaders (Response.raw r') !! "allow"
        = Some "GET, HEAD, OPTIONS".
Proof.
  destruct (inherited_head_and_options helloServlet headHello Response.fresh)
    as [Hhead _].
  destruct (inherited_head_and_options helloServlet optionsHello Response.fresh)
    as (_ & Hoptions & _).
  split.
  - rewrite (Hhead eq_refl eq_refl). reflexivity.
  - destruct (Hoptions eq_refl eq_refl eq_refl eq_refl)
      as (r' & Hrun & _ & _ & Hallow).
    exists r'. split; [exact Hrun|exact Hallow].
Defined.

End InheritedMethods.

(** ** Server.ts: servlets before routes *)

Module Server.

(** What a request meets: the servlet container with its servlets, and the
    router with what its chain captures. The response object is one and the
    same for both; it is handed from the one to the other. *)
Record World := {
  servlets : ServletContainer.World;
  routing : Router.World
}.

Definition handOver (r : Response.t) (w : Router.World) : Router.World :=
  {| Router.response := r; Router.cells := Router.cells w;
     Router.unhandled := Router.unhandled w; Router.console := Router.console w |}.

Definition takeBack (r : Response.t) (w : ServletContainer.World)
  : ServletContainer.World :=
  ServletContainer.arrive (ServletContainer.now w) r w.

(** [handleRequest]: the servlet container first, then the router. *)
Definition handleRequest (hooks : ServletContainer.Hooks) (router : Router.t)
    (request : Request.t) (w : World) : Completion unit * World :=
  match ServletContainer.handleRequest hooks request (servlets w) with
  | (Throw e, s') => (Throw e, {| servlets := s'; routing := routing w |})
  | (Normal true, s') => (Normal tt, {| servlets := s'; routing := routing w |})
  | (Normal false, s') =>
      let '(c, r') :=
        Router.handle router request
          (handOver (ServletContainer.response s') (routing w)) in
      (c, {| servlets := takeBack (Router.response r') s'; routing := r' |})
  end.

(** The callback of [http.createServer], from the call of [handleRequest]
    on: an error is logged, and answered with 500 unless the response is
    finished. *)
Definition onRequest (hooks : ServletContainer.Hooks) (router : Router.t)
    (request : Request.t) (w : World) : World :=
  match handleRequest hooks router request w with
  | (Normal _, w') => w'
  | (Throw _, w') =>
      {| servlets :=
           takeBack
             (Router.afterCatch (ServletContainer.response (servlets w')))
             (servlets w');
         routing := routing w' |}
  end.

(** X29. The server asks the servlet container first. On a stopped
    container every request is answered with 500 unless its response is
    finished, and neither a servlet nor the router runs. On a running
    container, a request whose path has a registered servlet pattern as a
    prefix is the container's alone: the router and its middlewares do not
    run, whatever routes it has. Only a request no servlet pattern is a
    prefix of reaches the router, on the response as it arrived, and the
    container is as before. *)
Theorem servlets_before_routes (hooks : ServletContainer.Hooks)
    (router : Router.t) (request : Request.t) (w : World) :
  let container := ServletContainer.container (servlets w) in
  let mappings := ServletContainer.servletMappings container in
  let path := Request.path request in
  let w' := onRequest hooks router request w in
  (ServletContainer.isStarted container = false →
   routing w' = routing w
   ∧ servlets w'
     = takeBack (Router.afterCatch (ServletContainer.response (servlets w)))
         (servlets w))
  ∧ (ServletContainer.isStarted container = true →
     ∀ pattern mapping,
       (pattern, mapping) ∈ mappings →
       JsString.startsWith path pattern = true →
       routing w' = routing w
       ∧ servlets w'
         = (ServletContainer.handleRequest hooks request (servlets w)).2)
  ∧ (ServletContainer.isStarted container = true →
     (∀ pattern mapping, (pattern, mapping) ∈ mappings →
                         JsString.startsWith path pattern = false) →
     let routed :=
       (Router.handle router request
          (handOver (ServletContainer.response (servlets w)) (routing w))).2 in
     routing w' = routed
     ∧ servlets w' = takeBack (Router.response routed) (servlets w)).
Proof.
  intros container mappings path w'. subst w'. unfold onRequest, handleRequest.
  split; [|split].
  - intros Hstopped. by rewrite ServletContainer.handleRequest_stopped.
  - intros Hstarted pattern mapping Hin Hprefix.
    pose proof (ServletContainer.findMatchingServlet_spec path mappings) as Hspec.
    destruct (ServletContainer.findMatchingServlet path mappings)
      as [found|] eqn:Hfind.
    + destruct (ServletContainer.handleRequest_dispatch hooks request
                  (servlets w) found Hstarted Hfind) as (s' & -> & _).
      done.
    + rewrite (Hspec pattern mapping Hin) in Hprefix. done.
  - intros Hstarted Hnone.
    rewrite ServletContainer.handleRequest_unmatched; [|done|].
    + destruct (Router.handle_returns router request
                  (handOver (ServletContainer.response (servlets w)) (routing w)))
        as (r' & Hrun).
      rewrite Hrun. done.
    + pose proof (ServletContainer.findMatchingServlet_spec path mappings)
        as Hspec.
      destruct (ServletContainer.findMatchingServlet path mappings)
        as [found|] eqn:Hfind; [|done].
      destruct Hspec as (key & Hin & Hprefix & _).
      rewrite (Hnone key found Hin) in Hprefix. done.
Qed.

End Server.
